(** * The compression filter of the gRPC core channel stack

    A shallow embedding of [src/core/channel/compress_filter.c]: the
    channel-scoped configuration built by [init_channel_elem], the
    negotiation of the compression algorithm on the initial metadata
    ([compression_md_filter], [process_send_initial_metadata]) and the
    per-call machine that drains the outgoing byte stream, compresses the
    collected message and forwards it ([continue_send_message], [got_slice],
    [finish_send_message], [send_done]).

    The C functions mutate [call_data] and [channel_data] through the element
    pointer and talk to their collaborators through calls; here every function
    passes the [world] explicitly, and every call to a collaborator that the
    properties below speak about leaves an [event] in the world's trace. *)

From Stdlib Require Import ZArith List String Bool Lia.
From stdpp Require Import base list strings.
Import ListNotations.
Open Scope Z_scope.

(** ** Results of fallible code *)

(** [GPR_ASSERT] aborts the process; using a pointer that was never assigned
    is undefined.  Both end the run. *)
Inductive fault : Type :=
  | assertion_failed (what : string)
  | indeterminate_pointer (what : string).

Inductive result (A : Type) : Type :=
  | Ok (a : A)
  | Abort (why : fault).
Arguments Ok {A} a.
Arguments Abort {A} why.

#[global] Instance result_bind : MBind result :=
  fun A B k r =>
    match r with
    | Ok a => k a
    | Abort why => Abort why
    end.

Definition GPR_ASSERT (cond : bool) (what : string) : result unit :=
  if cond then Ok tt else Abort (assertion_failed what).

(** A [for] loop over the indices [0 .. n-1], left to right, that stops at the
    first abort. *)
Fixpoint for_each {S : Type} (idxs : list nat) (body : nat -> S -> result S)
    (st : S) : result S :=
  match idxs with
  | [] => Ok st
  | i :: rest => st' ← body i st; for_each rest body st'
  end.

(** ** Slices and slice buffers *)

Definition gpr_slice := list Byte.byte.

Definition GPR_SLICE_LENGTH (s : gpr_slice) : Z := Z.of_nat (length s).

(** [gpr_slice_buffer]: the slices in order and the [length] member, the
    running total of their sizes that the filter compares with
    [send_length]. *)
Record gpr_slice_buffer : Type := mk_slice_buffer {
  sb_slices : list gpr_slice;
  sb_length : Z
}.

Definition gpr_slice_buffer_init : gpr_slice_buffer :=
  {| sb_slices := []; sb_length := 0 |}.

(** Modelled from the spec: [gpr_slice_buffer_add] is declared in
    grpc/support/slice_buffer.h and defined outside this file; "each appended
    chunk's size is added to a running total", chunks kept in arrival
    order. *)
Definition gpr_slice_buffer_add (sb : gpr_slice_buffer) (s : gpr_slice)
    : gpr_slice_buffer :=
  {| sb_slices := sb_slices sb ++ [s];
     sb_length := sb_length sb + GPR_SLICE_LENGTH s |}.

(** ** Compression algorithms and the collaborators of the filter *)

(** [grpc_compression_algorithm] is the enumeration of grpc/compression.h;
    the filter uses its members as array indices and bit positions, so they
    are numbers here.  Its first member is the no-compression sentinel. *)
Definition grpc_compression_algorithm := nat.
Definition GRPC_COMPRESS_NONE : grpc_compression_algorithm := 0%nat.

(** What the filter takes from the rest of the core: the size of the
    enumeration, the name table and its parser, the compression transform,
    and three constants of headers that are not part of this file. *)
Class grpc_core : Type := {
  GRPC_COMPRESS_ALGORITHMS_COUNT : nat;
  (** [grpc_compression_algorithm_name]: [None] stands for the return value
      0, [Some name] for 1 with [*name] set. *)
  grpc_compression_algorithm_name : grpc_compression_algorithm -> option string;
  (** [grpc_compression_algorithm_parse]: [None] stands for the return value
      0, which leaves [*algorithm] alone. *)
  grpc_compression_algorithm_parse : string -> option grpc_compression_algorithm;
  (** [grpc_msg_compress algorithm input output]: [Some out] stands for the
      return value 1 with [out] written to [output], [None] for 0. *)
  grpc_msg_compress :
    grpc_compression_algorithm -> gpr_slice_buffer -> option gpr_slice_buffer;
  GRPC_COMPRESS_REQUEST_ALGORITHM_KEY : string;
  GRPC_WRITE_NO_COMPRESS : Z;
  GRPC_WRITE_INTERNAL_COMPRESS : Z
}.

(** ** Interned metadata and its reference counts *)

(** A [grpc_mdstr] is an interned string and a [grpc_mdelem] an interned
    key/value pair: inside one metadata context two pointers are equal
    exactly when the contents are, which is what the filter relies on when it
    compares [md->key] with its own key by pointer. *)
Definition grpc_mdstr := string.

Record grpc_mdelem : Type := mk_mdelem {
  key : grpc_mdstr;
  value : grpc_mdstr
}.

Inductive md_handle : Type :=
  | h_mdstr (s : grpc_mdstr)
  | h_mdelem (e : grpc_mdelem).

#[global] Instance grpc_mdelem_eq_dec : EqDecision grpc_mdelem.
Proof. solve_decision. Defined.

#[global] Instance md_handle_eq_dec : EqDecision md_handle.
Proof. solve_decision. Defined.

(** Modelled from the spec: the metadata context
    (src/core/transport/metadata.c) is defined outside this file.  "Cloning a
    reference increments a count, dropping decrements it": the context is the
    ledger of the references that its clients hold on each interned object. *)
Definition grpc_mdctx := md_handle -> Z.

Definition mdctx_add (h : md_handle) (d : Z) (ctx : grpc_mdctx) : grpc_mdctx :=
  fun x => if decide (x = h) then ctx x + d else ctx x.

(** [grpc_mdstr_from_string] hands out one reference on the interned string. *)
Definition grpc_mdstr_from_string (ctx : grpc_mdctx) (s : string)
    : grpc_mdstr * grpc_mdctx :=
  (s, mdctx_add (h_mdstr s) 1 ctx).

Definition GRPC_MDSTR_REF (ctx : grpc_mdctx) (s : grpc_mdstr)
    : grpc_mdstr * grpc_mdctx :=
  (s, mdctx_add (h_mdstr s) 1 ctx).

Definition GRPC_MDSTR_UNREF (ctx : grpc_mdctx) (s : grpc_mdstr) : grpc_mdctx :=
  mdctx_add (h_mdstr s) (-1) ctx.

(** [grpc_mdelem_from_metadata_strings] takes over the caller's references on
    the key and on the value and hands out one reference on the element. *)
Definition grpc_mdelem_from_metadata_strings (ctx : grpc_mdctx)
    (k v : grpc_mdstr) : grpc_mdelem * grpc_mdctx :=
  let e := {| key := k; value := v |} in
  (e, mdctx_add (h_mdelem e) 1
        (mdctx_add (h_mdstr v) (-1) (mdctx_add (h_mdstr k) (-1) ctx))).

Definition GRPC_MDELEM_REF (ctx : grpc_mdctx) (e : grpc_mdelem)
    : grpc_mdelem * grpc_mdctx :=
  (e, mdctx_add (h_mdelem e) 1 ctx).

Definition GRPC_MDELEM_UNREF (ctx : grpc_mdctx) (e : grpc_mdelem) : grpc_mdctx :=
  mdctx_add (h_mdelem e) (-1) ctx.

(** A member of [channel_data] that holds an element pointer: [None] until
    something is assigned to it.  Passing such a pointer to the reference
    counting macros is undefined. *)
Abbreviation mdelem_slot := (option grpc_mdelem).

Definition slot_ref (ctx : grpc_mdctx) (what : string) (slot : mdelem_slot)
    : result (grpc_mdelem * grpc_mdctx) :=
  match slot with
  | Some e => Ok (GRPC_MDELEM_REF ctx e)
  | None => Abort (indeterminate_pointer what)
  end.

Definition slot_unref (ctx : grpc_mdctx) (what : string) (slot : mdelem_slot)
    : result grpc_mdctx :=
  match slot with
  | Some e => Ok (GRPC_MDELEM_UNREF ctx e)
  | None => Abort (indeterminate_pointer what)
  end.

(** ** Channel data *)

Record grpc_compression_options : Type := mk_options {
  enabled_algorithms_bitset : Z;
  opt_default_compression_algorithm : grpc_compression_algorithm
}.

(** Modelled from the spec: [grpc_compression_options_is_algorithm_enabled]
    lives in src/core/compression/algorithm.c; [enabled_algorithms] is "a
    fixed-size bitset over the closed set of known algorithm identifiers", one
    bit per identifier. *)
Definition grpc_compression_options_is_algorithm_enabled
    (opts : grpc_compression_options) (algorithm : grpc_compression_algorithm)
    : bool :=
  Z.testbit (enabled_algorithms_bitset opts) (Z.of_nat algorithm).

Record channel_data : Type := mk_channel_data {
  mdstr_request_compression_algorithm_key : grpc_mdstr;
  mdstr_outgoing_compression_algorithm_key : grpc_mdstr;
  mdstr_compression_capabilities_key : grpc_mdstr;
  mdelem_compression_algorithms : list mdelem_slot;
  mdelem_accept_encoding : mdelem_slot;
  default_compression_algorithm : grpc_compression_algorithm;
  compression_options : grpc_compression_options
}.

(** What [init_channel_elem] reads from its [args]: the two channel arguments
    that [grpc_channel_args_compression_algorithm_get_states] and
    [grpc_channel_args_get_compression_algorithm] extract, and [is_last]. *)
Record grpc_channel_element_args : Type := mk_channel_args {
  compression_algorithm_states : Z;
  channel_compression_algorithm : grpc_compression_algorithm;
  is_last : bool
}.

Definition uint32 (z : Z) : Z := z mod 2 ^ 32.

(** Modelled from the spec: [gpr_strjoin_sep] (src/core/support/string.c)
    joins the names with the separator between them. *)
Definition gpr_strjoin_sep (strs : list string) (sep : string) : string :=
  String.concat sep strs.

Section Channel.
Context `{core : grpc_core}.

(** The state of the loop of [init_channel_elem]: the element table, the
    names collected in [supported_algorithms_names] (its first
    [supported_algorithms_idx] entries) and the metadata context. *)
Record init_loop_state : Type := mk_init_loop {
  il_table : list mdelem_slot;
  il_names : list string;
  il_ctx : grpc_mdctx
}.

Definition init_channel_loop_body (opts : grpc_compression_options)
    (outgoing_key : grpc_mdstr) (algo_idx : nat) (st : init_loop_state)
    : result init_loop_state :=
  (* skip disabled algorithms *)
  if negb (grpc_compression_options_is_algorithm_enabled opts algo_idx)
  then Ok st
  else
    match grpc_compression_algorithm_name algo_idx with
    | None =>
        Abort (assertion_failed
                 "grpc_compression_algorithm_name(algo_idx, &algorithm_name) != 0")
    | Some algorithm_name =>
        let '(k, ctx1) := GRPC_MDSTR_REF (il_ctx st) outgoing_key in
        let '(v, ctx2) := grpc_mdstr_from_string ctx1 algorithm_name in
        let '(e, ctx3) := grpc_mdelem_from_metadata_strings ctx2 k v in
        Ok {| il_table := <[algo_idx := Some e]> (il_table st);
              il_names := if (0 <? algo_idx)%nat
                          then il_names st ++ [algorithm_name]
                          else il_names st;
              il_ctx := ctx3 |}
    end.

(** Constructor for channel_data. *)
Definition init_channel_elem (ctx : grpc_mdctx)
    (args : grpc_channel_element_args) : result (channel_data * grpc_mdctx) :=
  let opts0 :=
    {| enabled_algorithms_bitset := uint32 (compression_algorithm_states args);
       opt_default_compression_algorithm := GRPC_COMPRESS_NONE |} in
  let default := channel_compression_algorithm args in
  (* Make sure the default isn't disabled. *)
  _ ← GPR_ASSERT (grpc_compression_options_is_algorithm_enabled opts0 default)
        "default compression algorithm is enabled";
  let opts :=
    {| enabled_algorithms_bitset := enabled_algorithms_bitset opts0;
       opt_default_compression_algorithm := default |} in
  let '(request_key, ctx1) :=
    grpc_mdstr_from_string ctx GRPC_COMPRESS_REQUEST_ALGORITHM_KEY in
  let '(outgoing_key, ctx2) := grpc_mdstr_from_string ctx1 "grpc-encoding" in
  let '(capabilities_key, ctx3) :=
    grpc_mdstr_from_string ctx2 "grpc-accept-encoding" in
  st ← for_each (seq 0 GRPC_COMPRESS_ALGORITHMS_COUNT)
         (init_channel_loop_body opts outgoing_key)
         {| il_table := replicate GRPC_COMPRESS_ALGORITHMS_COUNT None;
            il_names := [];
            il_ctx := ctx3 |};
  let accept_encoding_str := gpr_strjoin_sep (il_names st) "," in
  let '(k, ctx4) := GRPC_MDSTR_REF (il_ctx st) capabilities_key in
  let '(v, ctx5) := grpc_mdstr_from_string ctx4 accept_encoding_str in
  let '(accept, ctx6) := grpc_mdelem_from_metadata_strings ctx5 k v in
  _ ← GPR_ASSERT (negb (is_last args)) "!args->is_last";
  Ok ({| mdstr_request_compression_algorithm_key := request_key;
         mdstr_outgoing_compression_algorithm_key := outgoing_key;
         mdstr_compression_capabilities_key := capabilities_key;
         mdelem_compression_algorithms := il_table st;
         mdelem_accept_encoding := Some accept;
         default_compression_algorithm := default;
         compression_options := opts |}, ctx6).

(** Destructor for channel data. *)
Definition destroy_channel_elem (ctx : grpc_mdctx) (channeld : channel_data)
    : result grpc_mdctx :=
  let ctx1 :=
    GRPC_MDSTR_UNREF ctx (mdstr_request_compression_algorithm_key channeld) in
  let ctx2 :=
    GRPC_MDSTR_UNREF ctx1 (mdstr_outgoing_compression_algorithm_key channeld) in
  let ctx3 :=
    GRPC_MDSTR_UNREF ctx2 (mdstr_compression_capabilities_key channeld) in
  ctx4 ← for_each (seq 0 GRPC_COMPRESS_ALGORITHMS_COUNT)
           (fun algo_idx c =>
              slot_unref c "mdelem_compression_algorithms[algo_idx]"
                (mdelem_compression_algorithms channeld !!! algo_idx))
           ctx3;
  slot_unref ctx4 "mdelem_accept_encoding" (mdelem_accept_encoding channeld).

End Channel.

(** ** Transport operations, byte streams and closures *)

(** A [grpc_closure *].  The filter owns two closures, both bound to the call
    element by [init_call_elem]; every other closure belongs to a caller. *)
Inductive grpc_closure : Type :=
  | closure_of_caller (id : nat)
  | calld_send_done
  | calld_got_slice.

(** A [grpc_byte_stream *]: the address of a stream of the layer above, or
    [&calld->replacement_stream.base]. *)
Inductive byte_stream_ptr : Type :=
  | upstream_stream (addr : nat)
  | calld_replacement_stream.

(** [grpc_transport_stream_op]: the three members the filter names, and the
    remaining members of the struct as one value of type [R].  A metadata
    batch is pointed to by its address; [on_complete] is the closure of the
    operation, which [send_done] calls through without a test for NULL. *)
Record grpc_transport_stream_op (R : Type) : Type := mk_op {
  send_initial_metadata : option nat;
  send_message : option byte_stream_ptr;
  on_complete : grpc_closure;
  op_rest : R
}.
Arguments mk_op {R}.
Arguments send_initial_metadata {R}.
Arguments send_message {R}.
Arguments on_complete {R}.
Arguments op_rest {R}.

(** What a stream of the layer above does at one [grpc_byte_stream_next]:
    hand the slice out at once, or keep the closure and deliver the slice
    later. *)
Inductive delivery : Type :=
  | ready (s : gpr_slice)
  | later (s : gpr_slice).

Definition delivered (d : delivery) : gpr_slice :=
  match d with ready s => s | later s => s end.

(** A byte stream of the layer above: the [length] and [flags] members of
    [grpc_byte_stream], and what its [next] will do from now on. *)
Record grpc_byte_stream : Type := mk_byte_stream {
  bs_length : Z;
  bs_flags : Z;
  deliveries : list delivery
}.

(** [grpc_slice_buffer_stream]: its [base.length], [base.flags] and [cursor];
    the backing buffer of [calld->replacement_stream] is [&calld->slices]. *)
Record grpc_slice_buffer_stream : Type := mk_slice_buffer_stream {
  rs_length : Z;
  rs_flags : Z;
  rs_cursor : nat
}.

(** Modelled from the spec: [grpc_slice_buffer_stream_init]
    (src/core/transport/byte_stream.c) builds the "adapter object presenting
    [buffer]'s contents as a byte-source" with the given flags. *)
Definition grpc_slice_buffer_stream_init (sb : gpr_slice_buffer) (flags : Z)
    : grpc_slice_buffer_stream :=
  {| rs_length := sb_length sb; rs_flags := flags; rs_cursor := 0 |}.

Definition grpc_metadata_batch := list grpc_mdelem.

Section Call.
Context `{core : grpc_core} {R : Type}.

Record call_data : Type := mk_call_data {
  slices : gpr_slice_buffer;
  compression_algorithm_storage : mdelem_slot;
  accept_encoding_storage : mdelem_slot;
  remaining_slice_bytes : Z;
  compression_algorithm : grpc_compression_algorithm;
  has_compression_algorithm : bool;
  send_op : grpc_transport_stream_op R;
  send_length : Z;
  send_flags : Z;
  incoming_slice : gpr_slice;
  replacement_stream : grpc_slice_buffer_stream;
  post_send : grpc_closure
}.

(** The calls to collaborators that can be observed from outside. *)
Inductive event : Type :=
  | ev_log (msg : string)
  | ev_byte_stream_next (got : bool)
  | ev_slice_buffer_add (s : gpr_slice) (length_after : Z)
  | ev_slice_buffer_reset_and_unref
  | ev_call_next_op (op : grpc_transport_stream_op R)
  | ev_closure_run (c : grpc_closure) (success : Z).

(** The memory a call element works on: its [call_data], the metadata
    context, the metadata batches and byte streams that operations point
    to, the closure a byte stream holds while a request is pending together
    with the slice it is going to deliver, and the trace. *)
Record world : Type := mk_world {
  calld : call_data;
  mdctx : grpc_mdctx;
  md_batches : nat -> grpc_metadata_batch;
  byte_streams : nat -> grpc_byte_stream;
  pending : option (grpc_closure * gpr_slice);
  trace : list event
}.

(** *** Assignments *)

Definition update_calld (f : call_data -> call_data) (w : world) : world :=
  {| calld := f (calld w); mdctx := mdctx w; md_batches := md_batches w;
     byte_streams := byte_streams w; pending := pending w;
     trace := trace w |}.

Definition emit (e : event) (w : world) : world :=
  {| calld := calld w; mdctx := mdctx w; md_batches := md_batches w;
     byte_streams := byte_streams w; pending := pending w;
     trace := trace w ++ [e] |}.

Definition set_mdctx (ctx : grpc_mdctx) (w : world) : world :=
  {| calld := calld w; mdctx := ctx; md_batches := md_batches w;
     byte_streams := byte_streams w; pending := pending w;
     trace := trace w |}.

Definition set_md_batch (p : nat) (b : grpc_metadata_batch) (w : world)
    : world :=
  {| calld := calld w; mdctx := mdctx w;
     md_batches := fun q => if decide (q = p) then b else md_batches w q;
     byte_streams := byte_streams w; pending := pending w;
     trace := trace w |}.

Definition set_byte_stream (a : nat) (bs : grpc_byte_stream) (w : world)
    : world :=
  {| calld := calld w; mdctx := mdctx w; md_batches := md_batches w;
     byte_streams := fun q => if decide (q = a) then bs else byte_streams w q;
     pending := pending w; trace := trace w |}.

Definition set_pending (p : option (grpc_closure * gpr_slice)) (w : world)
    : world :=
  {| calld := calld w; mdctx := mdctx w; md_batches := md_batches w;
     byte_streams := byte_streams w; pending := p; trace := trace w |}.

Definition set_slices (sb : gpr_slice_buffer) (c : call_data) : call_data :=
  mk_call_data sb (compression_algorithm_storage c)
    (accept_encoding_storage c) (remaining_slice_bytes c)
    (compression_algorithm c) (has_compression_algorithm c) (send_op c)
    (send_length c) (send_flags c) (incoming_slice c) (replacement_stream c)
    (post_send c).

Definition set_compression_algorithm_storage (m : mdelem_slot)
    (c : call_data) : call_data :=
  mk_call_data (slices c) m
    (accept_encoding_storage c) (remaining_slice_bytes c)
    (compression_algorithm c) (has_compression_algorithm c) (send_op c)
    (send_length c) (send_flags c) (incoming_slice c) (replacement_stream c)
    (post_send c).

Definition set_accept_encoding_storage (m : mdelem_slot) (c : call_data)
    : call_data :=
  mk_call_data (slices c) (compression_algorithm_storage c)
    m (remaining_slice_bytes c)
    (compression_algorithm c) (has_compression_algorithm c) (send_op c)
    (send_length c) (send_flags c) (incoming_slice c) (replacement_stream c)
    (post_send c).

Definition set_compression_algorithm (a : grpc_compression_algorithm)
    (c : call_data) : call_data :=
  mk_call_data (slices c) (compression_algorithm_storage c)
    (accept_encoding_storage c) (remaining_slice_bytes c)
    a (has_compression_algorithm c) (send_op c)
    (send_length c) (send_flags c) (incoming_slice c) (replacement_stream c)
    (post_send c).

Definition set_has_compression_algorithm (b : bool) (c : call_data)
    : call_data :=
  mk_call_data (slices c) (compression_algorithm_storage c)
    (accept_encoding_storage c) (remaining_slice_bytes c)
    (compression_algorithm c) b (send_op c)
    (send_length c) (send_flags c) (incoming_slice c) (replacement_stream c)
    (post_send c).

Definition set_send_op (op : grpc_transport_stream_op R) (c : call_data)
    : call_data :=
  mk_call_data (slices c) (compression_algorithm_storage c)
    (accept_encoding_storage c) (remaining_slice_bytes c)
    (compression_algorithm c) (has_compression_algorithm c) op
    (send_length c) (send_flags c) (incoming_slice c) (replacement_stream c)
    (post_send c).

Definition set_send_length (n : Z) (c : call_data) : call_data :=
  mk_call_data (slices c) (compression_algorithm_storage c)
    (accept_encoding_storage c) (remaining_slice_bytes c)
    (compression_algorithm c) (has_compression_algorithm c) (send_op c)
    n (send_flags c) (incoming_slice c) (replacement_stream c)
    (post_send c).

Definition set_send_flags (f : Z) (c : call_data) : call_data :=
  mk_call_data (slices c) (compression_algorithm_storage c)
    (accept_encoding_storage c) (remaining_slice_bytes c)
    (compression_algorithm c) (has_compression_algorithm c) (send_op c)
    (send_length c) f (incoming_slice c) (replacement_stream c)
    (post_send c).

Definition set_incoming_slice (s : gpr_slice) (c : call_data) : call_data :=
  mk_call_data (slices c) (compression_algorithm_storage c)
    (accept_encoding_storage c) (remaining_slice_bytes c)
    (compression_algorithm c) (has_compression_algorithm c) (send_op c)
    (send_length c) (send_flags c) s (replacement_stream c)
    (post_send c).

Definition set_replacement_stream (r : grpc_slice_buffer_stream)
    (c : call_data) : call_data :=
  mk_call_data (slices c) (compression_algorithm_storage c)
    (accept_encoding_storage c) (remaining_slice_bytes c)
    (compression_algorithm c) (has_compression_algorithm c) (send_op c)
    (send_length c) (send_flags c) (incoming_slice c) r
    (post_send c).

Definition set_post_send (p : grpc_closure) (c : call_data) : call_data :=
  mk_call_data (slices c) (compression_algorithm_storage c)
    (accept_encoding_storage c) (remaining_slice_bytes c)
    (compression_algorithm c) (has_compression_algorithm c) (send_op c)
    (send_length c) (send_flags c) (incoming_slice c) (replacement_stream c)
    p.

Definition set_send_message (m : option byte_stream_ptr)
    (op : grpc_transport_stream_op R) : grpc_transport_stream_op R :=
  mk_op (send_initial_metadata op) m (on_complete op) (op_rest op).

Definition set_on_complete (c : grpc_closure)
    (op : grpc_transport_stream_op R) : grpc_transport_stream_op R :=
  mk_op (send_initial_metadata op) (send_message op) c (op_rest op).

(** *** Collaborators that act on the world *)

Definition slice_buffer_add (s : gpr_slice) (w : world) : world :=
  let sb := gpr_slice_buffer_add (slices (calld w)) s in
  emit (ev_slice_buffer_add s (sb_length sb)) (update_calld (set_slices sb) w).

(** Modelled from the spec: [gpr_slice_buffer_reset_and_unref] is defined
    outside this file; it is the "release/reset the buffer" of the
    completion step, all owned slices released and the buffer empty. *)
Definition slice_buffer_reset_and_unref (w : world) : world :=
  emit ev_slice_buffer_reset_and_unref
    (update_calld (set_slices gpr_slice_buffer_init) w).

Definition gpr_log (msg : string) (w : world) : world := emit (ev_log msg) w.

(** [grpc_call_next_op]: the operation is handed to the next filter. *)
Definition grpc_call_next_op (op : grpc_transport_stream_op R) (w : world)
    : world :=
  emit (ev_call_next_op op) w.

(** [stream->length] and [stream->flags] for a stream pointer. *)
Definition byte_stream_length (w : world) (p : byte_stream_ptr) : Z :=
  match p with
  | upstream_stream a => bs_length (byte_streams w a)
  | calld_replacement_stream => rs_length (replacement_stream (calld w))
  end.

Definition byte_stream_flags (w : world) (p : byte_stream_ptr) : Z :=
  match p with
  | upstream_stream a => bs_flags (byte_streams w a)
  | calld_replacement_stream => rs_flags (replacement_stream (calld w))
  end.

(** Modelled from the spec: the byte-source interface
    (src/core/transport/byte_stream.h), "next(max_bytes) -> chunk |
    Pending(continuation)".  [grpc_byte_stream_next stream slice on_complete]
    with [slice = &calld->incoming_slice]: a ready chunk is written to the
    slice and 1 is returned; otherwise 0 is returned, and a stream that has
    a chunk to come keeps the closure until it delivers.  A stream with
    nothing left to deliver never runs the closure.  The filter only reads
    streams of the layer above: a request through any other pointer is
    outside the model. *)
Definition grpc_byte_stream_next (stream : option byte_stream_ptr)
    (on_complete : grpc_closure) (w : world) : result (bool * world) :=
  match stream with
  | Some (upstream_stream a) =>
      let bs := byte_streams w a in
      match deliveries bs with
      | ready s :: rest =>
          Ok (true,
              emit (ev_byte_stream_next true)
                (update_calld (set_incoming_slice s)
                   (set_byte_stream a
                      (mk_byte_stream (bs_length bs) (bs_flags bs) rest) w)))
      | later s :: rest =>
          Ok (false,
              emit (ev_byte_stream_next false)
                (set_pending (Some (on_complete, s))
                   (set_byte_stream a
                      (mk_byte_stream (bs_length bs) (bs_flags bs) rest) w)))
      | [] => Ok (false, emit (ev_byte_stream_next false) w)
      end
  | Some calld_replacement_stream =>
      Abort (indeterminate_pointer "grpc_byte_stream_next on the replacement stream")
  | None => Abort (indeterminate_pointer "grpc_byte_stream_next on NULL")
  end.

(** Modelled from the spec: [grpc_metadata_batch_filter]
    (src/core/transport/metadata_batch.c), the "scan-and-remove-by-key" of
    the metadata batch: the callback sees every element in order; an element
    for which it returns NULL leaves the batch, which drops its reference,
    any other result takes the element's place. *)
Fixpoint grpc_metadata_batch_filter
    (filter : world -> grpc_mdelem -> world * option grpc_mdelem)
    (batch : grpc_metadata_batch) (w : world)
    : world * grpc_metadata_batch :=
  match batch with
  | [] => (w, [])
  | md :: rest =>
      let '(w1, out) := filter w md in
      match out with
      | None =>
          grpc_metadata_batch_filter filter rest
            (set_mdctx (GRPC_MDELEM_UNREF (mdctx w1) md) w1)
      | Some md' =>
          let '(w2, rest') := grpc_metadata_batch_filter filter rest w1 in
          (w2, md' :: rest')
      end
  end.

(** Modelled from the spec: [grpc_metadata_batch_add_tail]
    (src/core/transport/metadata_batch.c), "append-by-reference": the
    storage is pointed at the element and linked at the tail. *)
Definition grpc_metadata_batch_add_tail (batch : grpc_metadata_batch)
    (elem_to_add : grpc_mdelem) : grpc_metadata_batch :=
  batch ++ [elem_to_add].

(** *** The filter *)

(** For each [md] element from the incoming metadata, filter out the entry
    for the requested algorithm, using its value to populate the call
    data's [compression_algorithm] field. *)
Definition compression_md_filter (channeld : channel_data) (w : world)
    (md : grpc_mdelem) : world * option grpc_mdelem :=
  if decide (key md = mdstr_request_compression_algorithm_key channeld) then
    let md_c_str := value md in
    let w1 :=
      match grpc_compression_algorithm_parse md_c_str with
      | Some algorithm =>
          update_calld (set_compression_algorithm algorithm) w
      | None =>
          update_calld (set_compression_algorithm GRPC_COMPRESS_NONE)
            (gpr_log ("Invalid compression algorithm: '" +:+ md_c_str
                        +:+ "' (unknown). Ignoring.") w)
      end in
    let w2 :=
      if negb (grpc_compression_options_is_algorithm_enabled
                 (compression_options channeld)
                 (compression_algorithm (calld w1)))
      then
        update_calld (set_compression_algorithm GRPC_COMPRESS_NONE)
          (gpr_log ("Invalid compression algorithm: '" +:+ md_c_str
                      +:+ "' (previously disabled). Ignoring.") w1)
      else w1 in
    (update_calld (set_has_compression_algorithm true) w2, None)
  else (w, Some md).

Definition skip_compression (channeld : channel_data) (w : world) : bool :=
  if has_compression_algorithm (calld w) then
    if decide (compression_algorithm (calld w) = GRPC_COMPRESS_NONE)
    then true
    else false (* we have an actual call-specific algorithm *)
  else
    (* no per-call compression override *)
    bool_decide (default_compression_algorithm channeld = GRPC_COMPRESS_NONE).

(** Filter initial metadata; [initial_metadata] is the address of the
    batch. *)
Definition process_send_initial_metadata (channeld : channel_data)
    (initial_metadata : nat) (w : world) : result world :=
  (* Parse incoming request for compression. *)
  let '(w1, filtered) :=
    grpc_metadata_batch_filter (compression_md_filter channeld)
      (md_batches w initial_metadata) w in
  let w2 := set_md_batch initial_metadata filtered w1 in
  let w3 :=
    if negb (has_compression_algorithm (calld w2)) then
      (* fall back to the channel default *)
      update_calld (set_has_compression_algorithm true)
        (update_calld
           (set_compression_algorithm (default_compression_algorithm channeld))
           w2)
    else w2 in
  (* hint compression algorithm *)
  '(e1, ctx1) ← slot_ref (mdctx w3)
      "mdelem_compression_algorithms[calld->compression_algorithm]"
      (mdelem_compression_algorithms channeld
         !!! compression_algorithm (calld w3));
  let w4 :=
    set_md_batch initial_metadata
      (grpc_metadata_batch_add_tail (md_batches w3 initial_metadata) e1)
      (update_calld (set_compression_algorithm_storage (Some e1))
         (set_mdctx ctx1 w3)) in
  (* convey supported compression algorithms *)
  '(e2, ctx2) ← slot_ref (mdctx w4) "mdelem_accept_encoding"
      (mdelem_accept_encoding channeld);
  Ok (set_md_batch initial_metadata
        (grpc_metadata_batch_add_tail (md_batches w4 initial_metadata) e2)
        (update_calld (set_accept_encoding_storage (Some e2))
           (set_mdctx ctx2 w4))).

Definition send_done (w : world) (success : Z) : world :=
  let w1 := slice_buffer_reset_and_unref w in
  emit (ev_closure_run (post_send (calld w1)) success) w1.

Definition finish_send_message (w : world) : world :=
  let did_compress :=
    grpc_msg_compress (compression_algorithm (calld w)) (slices (calld w)) in
  let w1 :=
    match did_compress with
    | Some tmp =>
        update_calld
          (fun c =>
             set_send_flags (Z.lor (send_flags c) GRPC_WRITE_INTERNAL_COMPRESS)
               (set_slices tmp c)) w
    | None => w
    end in
  let w2 :=
    update_calld
      (fun c =>
         set_replacement_stream
           (grpc_slice_buffer_stream_init (slices c) (send_flags c)) c) w1 in
  let w3 :=
    update_calld
      (fun c =>
         set_send_op (set_send_message (Some calld_replacement_stream) (send_op c))
           c) w2 in
  let w4 :=
    update_calld (fun c => set_post_send (on_complete (send_op c)) c) w3 in
  let w5 :=
    update_calld
      (fun c => set_send_op (set_on_complete calld_send_done (send_op c)) c)
      w4 in
  grpc_call_next_op (send_op (calld w5)) w5.

(** The [while] loop of [continue_send_message].  Every turn that enters the
    body takes one delivery from the stream, so the turns are counted down
    from a bound; [continue_send_message_eq] shows that the bound chosen by
    [continue_send_message] is never reached. *)
Fixpoint continue_send_message_loop (bound : nat) (w : world)
    : result world :=
  match bound with
  | O => Ok w
  | S bound' =>
      '(got, w1) ← grpc_byte_stream_next (send_message (send_op (calld w)))
                     calld_got_slice w;
      if got : bool then
        let w2 := slice_buffer_add (incoming_slice (calld w1)) w1 in
        if send_length (calld w2) =? sb_length (slices (calld w2)) then
          Ok (finish_send_message w2) (* break *)
        else continue_send_message_loop bound' w2
      else Ok w1
  end.

(** The deliveries left in the stream that [send_op] points to. *)
Definition deliveries_left (w : world) : nat :=
  match send_message (send_op (calld w)) with
  | Some (upstream_stream a) => length (deliveries (byte_streams w a))
  | _ => 0%nat
  end.

Definition continue_send_message (w : world) : result world :=
  continue_send_message_loop (S (deliveries_left w)) w.

Definition got_slice (w : world) (success : Z) : result world :=
  let w1 := slice_buffer_add (incoming_slice (calld w)) w in
  if send_length (calld w1) =? sb_length (slices (calld w1)) then
    Ok (finish_send_message w1)
  else continue_send_message w1.

Definition compress_start_transport_stream_op (channeld : channel_data)
    (op : grpc_transport_stream_op R) (w : world) : result world :=
  w1 ← match send_initial_metadata op with
       | Some initial_metadata =>
           process_send_initial_metadata channeld initial_metadata w
       | None => Ok w
       end;
  match send_message op with
  | Some stream =>
      if negb (skip_compression channeld w1)
         && (Z.land (byte_stream_flags w1 stream) GRPC_WRITE_NO_COMPRESS =? 0)
      then
        let w2 := update_calld (set_send_op op) w1 in
        let w3 :=
          update_calld (set_send_length (byte_stream_length w2 stream)) w2 in
        let w4 :=
          update_calld (set_send_flags (byte_stream_flags w3 stream)) w3 in
        continue_send_message w4
      else
        (* pass control down the stack *)
        Ok (grpc_call_next_op op w1)
  | None => Ok (grpc_call_next_op op w1)
  end.

(** Constructor for call_data: the members it assigns, over whatever the
    call's memory held before. *)
Definition init_call_elem (w : world) : world :=
  update_calld (set_has_compression_algorithm false)
    (update_calld (set_slices gpr_slice_buffer_init) w).

(** Destructor for call_data. *)
Definition destroy_call_elem (w : world) : world :=
  update_calld (set_slices gpr_slice_buffer_init) w.

(** *** The environment of the call *)

(** A byte stream that kept a closure delivers: it writes the slice and
    runs the closure. *)
Definition byte_stream_deliver (w : world) : result world :=
  match pending w with
  | Some (cl, s) =>
      let w1 := update_calld (set_incoming_slice s) (set_pending None w) in
      match cl with
      | calld_got_slice => got_slice w1 1
      | calld_send_done => Ok (send_done w1 1)
      | closure_of_caller _ => Ok (emit (ev_closure_run cl 1) w1)
      end
  | None => Ok w
  end.

(** The stream delivers [n] times, each time as soon as a request is
    pending. *)
Fixpoint deliver_all (n : nat) (w : world) : result world :=
  match n with
  | O => Ok w
  | S n' => w1 ← byte_stream_deliver w; deliver_all n' w1
  end.

End Call.

Arguments call_data : clear implicits.
Arguments event : clear implicits.
Arguments world : clear implicits.

(** ** Vocabulary of the properties *)

Section Vocabulary.
Context `{core : grpc_core} {R : Type}.
Implicit Types (w : world R) (op : grpc_transport_stream_op R).

(** ** The steps of the drain *)

(** The stream at [a] moves past its first delivery. *)
Definition stream_advance (a : nat) (rest : list delivery) w : world R :=
  set_byte_stream a
    (mk_byte_stream (bs_length (byte_streams w a))
       (bs_flags (byte_streams w a)) rest) w.

(** One turn of the loop that finds a chunk ready: the state at the
    completion check. *)
Definition take_ready (a : nat) (s : gpr_slice) (rest : list delivery) w
    : world R :=
  slice_buffer_add s
    (emit (ev_byte_stream_next true)
       (update_calld (set_incoming_slice s) (stream_advance a rest w))).

(** The loop leaves with a request pending. *)
Definition suspend (a : nat) (s : gpr_slice) (rest : list delivery) w
    : world R :=
  emit (ev_byte_stream_next false)
    (set_pending (Some (calld_got_slice, s)) (stream_advance a rest w)).

(** The pending chunk arrives and [got_slice] appends it: the state at the
    completion check. *)
Definition resume (s : gpr_slice) w : world R :=
  slice_buffer_add s
    (update_calld (set_incoming_slice s) (set_pending None w)).

(** The completion check, the same on both paths. *)
Definition all_bytes_collected w : bool :=
  send_length (calld w) =? sb_length (slices (calld w)).

(** The first half of [compress_start_transport_stream_op]: the initial
    metadata, when the operation carries any. *)
Definition after_metadata (channeld : channel_data) op w : result (world R) :=
  match send_initial_metadata op with
  | Some initial_metadata =>
      process_send_initial_metadata channeld initial_metadata w
  | None => Ok w
  end.

(** The state in which [compress_start_transport_stream_op] calls
    [continue_send_message]. *)
Definition enter_drain op (stream : byte_stream_ptr) w : world R :=
  let w2 := update_calld (set_send_op op) w in
  let w3 := update_calld (set_send_length (byte_stream_length w2 stream)) w2 in
  update_calld (set_send_flags (byte_stream_flags w3 stream)) w3.

(** The operation carries the do-not-compress bit. *)
Definition no_compress_requested w (stream : byte_stream_ptr) : Prop :=
  Z.land (byte_stream_flags w stream) GRPC_WRITE_NO_COMPRESS <> 0.

(** The algorithm the call resolved, or the channel default when it
    resolved none, is the no-compression sentinel. *)
Definition resolved_to_none (channeld : channel_data) w : Prop :=
  (has_compression_algorithm (calld w) = true
   /\ compression_algorithm (calld w) = GRPC_COMPRESS_NONE)
  \/ (has_compression_algorithm (calld w) = false
      /\ default_compression_algorithm channeld = GRPC_COMPRESS_NONE).

(** The trace of [w] continues [t0]. *)
Definition extends (t0 : list (event R)) w : Prop :=
  exists evs, trace w = t0 ++ evs.

(** [compress_start_transport_stream_op] for an operation, then [n]
    deliveries of the byte stream. *)
Definition send_and_deliver (channeld : channel_data) op (n : nat) w
    : result (world R) :=
  w0 ← compress_start_transport_stream_op channeld op w; deliver_all n w0.

(** The operation that [finish_send_message] hands down for [op]. *)
Definition forwarded_op op : grpc_transport_stream_op R :=
  mk_op (send_initial_metadata op) (Some calld_replacement_stream)
    calld_send_done (op_rest op).

(** The events of a drain that has not collected [L] bytes yet: requests to
    the stream, and appends that leave the total different from [L]. *)
Definition drain_event (L : Z) (e : event R) : Prop :=
  match e with
  | ev_byte_stream_next _ => True
  | ev_slice_buffer_add _ n => n <> L
  | _ => False
  end.

(** The machine is draining the stream of [op], which declared [L] bytes:
    since the trace [t0] it has only asked for chunks and appended them. *)
Definition draining (t0 : list (event R)) op (L : Z) w : Prop :=
  send_op (calld w) = op
  /\ send_length (calld w) = L
  /\ (forall cl s, pending w = Some (cl, s) -> cl = calld_got_slice)
  /\ exists evs, trace w = t0 ++ evs /\ Forall (drain_event L) evs.

(** The machine stands at the completion check, the chunk just appended. *)
Definition checking (t0 : list (event R)) op (L : Z) w : Prop :=
  send_op (calld w) = op
  /\ send_length (calld w) = L
  /\ pending w = None
  /\ exists evs s,
       trace w = t0 ++ evs ++ [ev_slice_buffer_add s (sb_length (slices (calld w)))]
       /\ Forall (drain_event L) evs.

(** The message of [op] has been handed to the next filter: the last append
    brought the total to [L], and the operation went down right after it. *)
Definition forwarded (t0 : list (event R)) op (L : Z) w : Prop :=
  pending w = None
  /\ send_op (calld w) = forwarded_op op
  /\ post_send (calld w) = on_complete op
  /\ send_length (calld w) = L
  /\ replacement_stream (calld w)
     = grpc_slice_buffer_stream_init (slices (calld w)) (send_flags (calld w))
  /\ exists evs s,
       trace w = t0 ++ evs ++ [ev_slice_buffer_add s L;
                               ev_call_next_op (forwarded_op op)]
       /\ Forall (drain_event L) evs.

(** The completion closures that the filter ran, in order. *)
Definition closure_runs (evs : list (event R)) : list (grpc_closure * Z) :=
  omap (fun e => match e with
                 | ev_closure_run c success => Some (c, success)
                 | _ => None
                 end) evs.

(** The operations that the filter handed to the next filter, in order. *)
Definition next_ops (evs : list (event R)) : list (grpc_transport_stream_op R) :=
  omap (fun e => match e with
                 | ev_call_next_op op => Some op
                 | _ => None
                 end) evs.

(** The buffer totals after each append, in order. *)
Definition appends (evs : list (event R)) : list Z :=
  omap (fun e => match e with
                 | ev_slice_buffer_add _ n => Some n
                 | _ => None
                 end) evs.

(** The bytes of a list of deliveries. *)
Definition bytes_of (ds : list delivery) : Z :=
  fold_right (fun d n => GPR_SLICE_LENGTH (delivered d) + n) 0 ds.

(** The contract of the byte-source: "total bytes delivered across all
    chunks equals the declared message length". *)
Definition honours_length (bs : grpc_byte_stream) : Prop :=
  bytes_of (deliveries bs) = bs_length bs.



(** How often the loop of [continue_send_message] entered its body (the
    stream handed out a chunk at once), and how often the machine was left
    waiting for the stream. *)
Definition loop_turns (evs : list (event R)) : nat :=
  length (List.filter (fun e => match e with
                                | ev_byte_stream_next true => true
                                | _ => false
                                end) evs).

Definition suspensions (evs : list (event R)) : nat :=
  length (List.filter (fun e => match e with
                                | ev_byte_stream_next false => true
                                | _ => false
                                end) evs).

(** The reading of "a zero-length message completes draining immediately":
    the operation returns having forwarded the message, the loop body never
    entered and the machine never left waiting. *)
Definition completes_without_a_turn (channeld : channel_data) op w : Prop :=
  exists w' evs,
    compress_start_transport_stream_op channeld op w = Ok w'
    /\ trace w' = trace w ++ evs
    /\ loop_turns evs = 0%nat
    /\ suspensions evs = 0%nat
    /\ next_ops evs <> [].

(** The flags carry the internal-compression bit. *)
Definition internally_compressed (flags : Z) : Prop :=
  Z.land flags GRPC_WRITE_INTERNAL_COMPRESS = GRPC_WRITE_INTERNAL_COMPRESS.

(** The reading of "the internally-compressed flag bit is set if and only if
    the transform reported success", for a call [w] whose message has been
    collected: the flags of the stream that goes down against the verdict of
    [grpc_msg_compress] on the buffer. *)
Definition compressed_bit_iff_success w : Prop :=
  internally_compressed
    (rs_flags (replacement_stream (calld (finish_send_message w))))
  <-> is_Some (grpc_msg_compress (compression_algorithm (calld w))
                 (slices (calld w))).

(** *** The scan of the initial metadata *)

(** The element is a request for an algorithm. *)
Definition is_request (channeld : channel_data) (md : grpc_mdelem) : bool :=
  bool_decide (key md = mdstr_request_compression_algorithm_key channeld).

(** The elements of the batch that are not requests, in their order. *)
Definition other_headers (channeld : channel_data)
    (batch : grpc_metadata_batch) : grpc_metadata_batch :=
  List.filter (fun md => negb (is_request channeld md)) batch.

(** The last request of the batch, if it has one. *)
Fixpoint last_request (channeld : channel_data) (batch : grpc_metadata_batch)
    : option grpc_mdelem :=
  match batch with
  | [] => None
  | md :: rest =>
      match last_request channeld rest with
      | Some r => Some r
      | None => if is_request channeld md then Some md else None
      end
  end.

(** The algorithm that a request value stands for: the one it names when
    that is known and enabled, the no-compression sentinel otherwise. *)
Definition resolve_request (channeld : channel_data) (v : string)
    : grpc_compression_algorithm :=
  match grpc_compression_algorithm_parse v with
  | Some a =>
      if grpc_compression_options_is_algorithm_enabled
           (compression_options channeld) a
      then a else GRPC_COMPRESS_NONE
  | None => GRPC_COMPRESS_NONE
  end.

(** The algorithm of the call after the negotiation over [batch]: what the
    last request stands for; without a request, the algorithm the call had
    already, or the channel default when it had none. *)
Definition negotiated (channeld : channel_data) (batch : grpc_metadata_batch)
    w : grpc_compression_algorithm :=
  match last_request channeld batch with
  | Some r => resolve_request channeld (value r)
  | None =>
      if has_compression_algorithm (calld w)
      then compression_algorithm (calld w)
      else default_compression_algorithm channeld
  end.

(** The references on [x] that the batch drops with its requests. *)
Definition dropped_with_requests (channeld : channel_data)
    (batch : grpc_metadata_batch) (x : md_handle) : Z :=
  fold_right
    (fun md n =>
       (if is_request channeld md
        then (if decide (x = h_mdelem md) then 1 else 0) else 0) + n)
    0 batch.

(** The log messages among the events. *)
Definition logged (evs : list (event R)) : list string :=
  omap (fun e => match e with ev_log msg => Some msg | _ => None end) evs.

(** *** The contents of the buffer *)

(** The chunks that the stream at [a] has not handed over yet, in order:
    the chunk of a pending request, then the deliveries left. *)
Definition chunks_to_come (a : nat) w : list gpr_slice :=
  match pending w with
  | Some (_, s) => [s]
  | None => []
  end ++ map delivered (deliveries (byte_streams w a)).

(** The bytes of a list of slices. *)
Definition slices_size (l : list gpr_slice) : Z :=
  fold_right (fun s n => GPR_SLICE_LENGTH s + n) 0 l.

(** The call [w] has what the negotiation left in [w1]: the algorithm, the
    two elements it added, the ledger of references and the batches. *)
Definition same_negotiation w1 w : Prop :=
  compression_algorithm (calld w) = compression_algorithm (calld w1)
  /\ has_compression_algorithm (calld w)
     = has_compression_algorithm (calld w1)
  /\ compression_algorithm_storage (calld w)
     = compression_algorithm_storage (calld w1)
  /\ accept_encoding_storage (calld w) = accept_encoding_storage (calld w1)
  /\ mdctx w = mdctx w1
  /\ md_batches w = md_batches w1.

(** The machine is collecting the message of [op]: buffer and stream
    together hold the slices [all] in their order, and the [length] member
    of the buffer has grown with its slices since [w1]. *)
Definition collecting (a : nat) (all : list gpr_slice) op w1 w : Prop :=
  send_op (calld w) = op
  /\ send_length (calld w) = send_length (calld w1)
  /\ (forall cl s, pending w = Some (cl, s) -> cl = calld_got_slice)
  /\ sb_slices (slices (calld w)) ++ chunks_to_come a w = all
  /\ sb_length (slices (calld w)) - slices_size (sb_slices (slices (calld w)))
     = sb_length (slices (calld w1))
       - slices_size (sb_slices (slices (calld w1)))
  /\ same_negotiation w1 w.

(** The message of [op] has gone down: [finish_send_message] ran on a
    buffer that held a first part of [all] and counted [send_length]
    bytes. *)
Definition collected (all : list gpr_slice) op w1 w : Prop :=
  exists w0 rest,
    w = finish_send_message w0
    /\ pending w0 = None
    /\ send_op (calld w0) = op
    /\ sb_slices (slices (calld w0)) ++ rest = all
    /\ sb_length (slices (calld w0)) = send_length (calld w1)
    /\ sb_length (slices (calld w0))
       - slices_size (sb_slices (slices (calld w0)))
       = sb_length (slices (calld w1))
         - slices_size (sb_slices (slices (calld w1)))
    /\ same_negotiation w1 w0.

End Vocabulary.

Section ChannelVocabulary.
Context `{core : grpc_core}.

(** The options that [init_channel_elem] derives from the channel
    arguments. *)
Definition options_of (args : grpc_channel_element_args)
    : grpc_compression_options :=
  {| enabled_algorithms_bitset := uint32 (compression_algorithm_states args);
     opt_default_compression_algorithm := channel_compression_algorithm args |}.

(** The precomputed element that says "the selected algorithm is the one
    named [name]". *)
Definition selected_algorithm_elem (name : string) : grpc_mdelem :=
  {| key := "grpc-encoding"; value := name |}.

(** The algorithms that are advertised: enabled, and not the no-compression
    sentinel; in the order of the enumeration. *)
Definition advertised (opts : grpc_compression_options)
    : list grpc_compression_algorithm :=
  List.filter
    (fun a => grpc_compression_options_is_algorithm_enabled opts a
              && negb (a =? GRPC_COMPRESS_NONE)%nat)
    (seq 0 GRPC_COMPRESS_ALGORITHMS_COUNT).

(** [names] are the canonical names of [algorithms], one by one. *)
Definition canonical_names (algorithms : list grpc_compression_algorithm)
    (names : list string) : Prop :=
  Forall2 (fun a name => grpc_compression_algorithm_name a = Some name)
    algorithms names.

(** No element of the batch is a request for an algorithm. *)
Definition no_request (channeld : channel_data) (batch : grpc_metadata_batch)
    : Prop :=
  Forall (fun md => key md <> mdstr_request_compression_algorithm_key channeld)
    batch.

(** One when the two handles are the same interned object, zero otherwise. *)
Definition same_handle (x h : md_handle) : Z :=
  if decide (x = h) then 1 else 0.

(** The references on [x] that the loop of [init_channel_elem] acquires
    over the indices [idxs]: one for every enabled algorithm whose
    precomputed element is [x]. *)
Definition acquired_by_init (opts : grpc_compression_options) (k : grpc_mdstr)
    (idxs : list nat) (x : md_handle) : Z :=
  fold_right
    (fun i n =>
       (if grpc_compression_options_is_algorithm_enabled opts i
        then match grpc_compression_algorithm_name i with
             | Some name => same_handle x (h_mdelem {| key := k; value := name |})
             | None => 0
             end
        else 0) + n)
    0 idxs.

(** The references on [x] that the loop of [destroy_channel_elem] releases
    over the indices [idxs] of a table whose entries are all assigned. *)
Definition released_by_destroy (table : list mdelem_slot) (idxs : list nat)
    (x : md_handle) : Z :=
  fold_right
    (fun i n =>
       match table !!! i with
       | Some e => same_handle x (h_mdelem e)
       | None => 0
       end + n)
    0 idxs.

End ChannelVocabulary.

(** ** A reference instance of the collaborators

    The three algorithms of grpc/compression.h with their canonical names,
    the flag bits of grpc/grpc.h and src/core/transport/byte_stream.h, and a
    stand-in for the transform that declines short messages.  The examples
    below run the filter on it. *)
Module Reference.

Definition algorithm_name (a : grpc_compression_algorithm) : option string :=
  match a with
  | 0%nat => Some "identity"%string
  | 1%nat => Some "deflate"%string
  | 2%nat => Some "gzip"%string
  | _ => None
  end.

Definition algorithm_parse (s : string) : option grpc_compression_algorithm :=
  if decide (s = "identity"%string) then Some 0%nat
  else if decide (s = "deflate"%string) then Some 1%nat
  else if decide (s = "gzip"%string) then Some 2%nat
  else None.

(** Declines when there is no algorithm or fewer than four bytes; otherwise
    the output is one slice with the first byte of every input slice. *)
Definition msg_compress (a : grpc_compression_algorithm)
    (input : gpr_slice_buffer) : option gpr_slice_buffer :=
  if decide (a = GRPC_COMPRESS_NONE) then None
  else if sb_length input <? 4 then None
  else
    let out := flat_map (take 1) (sb_slices input) in
    Some {| sb_slices := [out]; sb_length := GPR_SLICE_LENGTH out |}.

Definition core : grpc_core :=
  {| GRPC_COMPRESS_ALGORITHMS_COUNT := 3;
     grpc_compression_algorithm_name := algorithm_name;
     grpc_compression_algorithm_parse := algorithm_parse;
     grpc_msg_compress := msg_compress;
     GRPC_COMPRESS_REQUEST_ALGORITHM_KEY := "grpc-internal-encoding-request";
     GRPC_WRITE_NO_COMPRESS := 2;
     GRPC_WRITE_INTERNAL_COMPRESS := 2147483648 |}.

(** Channel arguments: every algorithm enabled, or gzip disabled. *)
Definition args_all (default : grpc_compression_algorithm)
    : grpc_channel_element_args :=
  {| compression_algorithm_states := 7;
     channel_compression_algorithm := default;
     is_last := false |}.

Definition args_no_gzip : grpc_channel_element_args :=
  {| compression_algorithm_states := 3;
     channel_compression_algorithm := 1%nat;
     is_last := false |}.

Definition empty_mdctx : grpc_mdctx := fun _ => 0.

Definition no_stream : grpc_byte_stream :=
  {| bs_length := 0; bs_flags := 0; deliveries := [] |}.

Definition op0 : grpc_transport_stream_op unit :=
  {| send_initial_metadata := None; send_message := None;
     on_complete := closure_of_caller 0; op_rest := tt |}.

(** The memory of a call before [init_call_elem]: nothing in it is relied
    on. *)
Definition raw_calld : call_data unit :=
  {| slices := gpr_slice_buffer_init;
     compression_algorithm_storage := None;
     accept_encoding_storage := None;
     remaining_slice_bytes := 0;
     compression_algorithm := 0%nat;
     has_compression_algorithm := false;
     send_op := op0;
     send_length := 0;
     send_flags := 0;
     incoming_slice := [];
     replacement_stream := grpc_slice_buffer_stream_init gpr_slice_buffer_init 0;
     post_send := closure_of_caller 0 |}.

Definition world0 (ctx : grpc_mdctx) : world unit :=
  {| calld := raw_calld; mdctx := ctx;
     md_batches := fun _ => []; byte_streams := fun _ => no_stream;
     pending := None; trace := [] |}.

(** The channel data that [init_channel_elem] builds from [args_all]. *)
Definition channeld_all (default : grpc_compression_algorithm) : channel_data :=
  {| mdstr_request_compression_algorithm_key := "grpc-internal-encoding-request";
     mdstr_outgoing_compression_algorithm_key := "grpc-encoding";
     mdstr_compression_capabilities_key := "grpc-accept-encoding";
     mdelem_compression_algorithms :=
       [Some (mk_mdelem "grpc-encoding" "identity");
        Some (mk_mdelem "grpc-encoding" "deflate");
        Some (mk_mdelem "grpc-encoding" "gzip")];
     mdelem_accept_encoding :=
       Some (mk_mdelem "grpc-accept-encoding" "deflate,gzip");
     default_compression_algorithm := default;
     compression_options :=
       {| enabled_algorithms_bitset := 7;
          opt_default_compression_algorithm := default |} |}.

(** A call after [init_call_elem], with a byte stream at address 5 and a
    metadata batch at address 9. *)
Definition call_world (bs : grpc_byte_stream) (batch : grpc_metadata_batch)
    : world unit :=
  set_byte_stream 5 bs
    (set_md_batch 9 batch (init_call_elem (world0 empty_mdctx))).

(** An operation that sends the message of the stream at address 5. *)
Definition send_message_op : grpc_transport_stream_op unit :=
  {| send_initial_metadata := None;
     send_message := Some (upstream_stream 5);
     on_complete := closure_of_caller 7;
     op_rest := tt |}.

(** An operation that sends the initial metadata at address 9 and the
    message of the stream at address 5. *)
Definition send_both_op : grpc_transport_stream_op unit :=
  {| send_initial_metadata := Some 9%nat;
     send_message := Some (upstream_stream 5);
     on_complete := closure_of_caller 7;
     op_rest := tt |}.

Definition hello : gpr_slice :=
  [Byte.x68; Byte.x65; Byte.x6c; Byte.x6c; Byte.x6f].

Definition world_ : gpr_slice :=
  [Byte.x20; Byte.x77; Byte.x6f; Byte.x72; Byte.x6c; Byte.x64].

(** An eleven-byte message whose second chunk arrives late, sent on a
    channel whose default is gzip. *)
Definition late_message : world unit :=
  call_world (mk_byte_stream 11 0 [ready hello; later world_]) [].

(** The call after the initial metadata of [send_both_op]: gzip, the
    channel default, is the algorithm of the call. *)
Definition late_message_negotiated : world unit :=
  Eval vm_compute in
    match after_metadata (core := core) (channeld_all 2%nat) send_both_op
            late_message with
    | Ok w => w
    | Abort _ => late_message
    end.

(** The call after the operation and one delivery of the stream. *)
Definition late_message_sent : world unit :=
  Eval vm_compute in
    match send_and_deliver (core := core) (channeld_all 2%nat)
            send_both_op 1 late_message with
    | Ok w => w
    | Abort _ => late_message
    end.

(** A zero-length message whose stream hands out one empty chunk. *)
Definition empty_message : world unit :=
  call_world (mk_byte_stream 0 0 [ready []]) [].

Definition empty_message_negotiated : world unit :=
  Eval vm_compute in
    match after_metadata (core := core) (channeld_all 2%nat) send_both_op
            empty_message with
    | Ok w => w
    | Abort _ => empty_message
    end.

Definition empty_message_sent : world unit :=
  Eval vm_compute in
    match compress_start_transport_stream_op (core := core)
            (channeld_all 2%nat) send_both_op empty_message with
    | Ok w => w
    | Abort _ => empty_message
    end.

(** A two-byte message whose flags already carry the internal-compression
    bit, on a channel whose default is gzip. *)
Definition flagged_message : world unit :=
  call_world (mk_byte_stream 2 2147483648 [ready [Byte.x68; Byte.x69]]) [].

(** The call when the two bytes have been collected and
    [finish_send_message] is about to run. *)
Definition flagged_message_collected : world unit :=
  Eval vm_compute in
    match after_metadata (core := core) (channeld_all 2%nat) send_both_op
            flagged_message with
    | Ok w1 =>
        take_ready 5 [Byte.x68; Byte.x69] []
          (enter_drain send_both_op (upstream_stream 5) w1)
    | Abort _ => flagged_message
    end.

(** A header that has nothing to do with compression, and two requests. *)
Definition user_agent : grpc_mdelem :=
  {| key := "user-agent"; value := "grpc-c/0.11" |}.

Definition request_deflate : grpc_mdelem :=
  {| key := "grpc-internal-encoding-request"; value := "deflate" |}.

Definition request_snappy : grpc_mdelem :=
  {| key := "grpc-internal-encoding-request"; value := "snappy" |}.

(** A call whose initial metadata asks for deflate. *)
Definition deflate_requested : world unit :=
  call_world no_stream [user_agent; request_deflate].

(** The channel data that [init_channel_elem] builds from [args_no_gzip]:
    the gzip entry of the table is left as it was. *)
Definition channeld_no_gzip : channel_data :=
  {| mdstr_request_compression_algorithm_key := "grpc-internal-encoding-request";
     mdstr_outgoing_compression_algorithm_key := "grpc-encoding";
     mdstr_compression_capabilities_key := "grpc-accept-encoding";
     mdelem_compression_algorithms :=
       [Some (mk_mdelem "grpc-encoding" "identity");
        Some (mk_mdelem "grpc-encoding" "deflate");
        None];
     mdelem_accept_encoding :=
       Some (mk_mdelem "grpc-accept-encoding" "deflate");
     default_compression_algorithm := 1%nat;
     compression_options :=
       {| enabled_algorithms_bitset := 3;
          opt_default_compression_algorithm := 1%nat |} |}.

(** Channel arguments with the no-compression sentinel disabled: deflate
    and gzip enabled, gzip the default. *)
Definition args_no_identity : grpc_channel_element_args :=
  {| compression_algorithm_states := 6;
     channel_compression_algorithm := 2%nat;
     is_last := false |}.

(** The channel data that [init_channel_elem] builds from
    [args_no_identity]: the entry of the sentinel is left as it was. *)
Definition channeld_no_identity : channel_data :=
  {| mdstr_request_compression_algorithm_key := "grpc-internal-encoding-request";
     mdstr_outgoing_compression_algorithm_key := "grpc-encoding";
     mdstr_compression_capabilities_key := "grpc-accept-encoding";
     mdelem_compression_algorithms :=
       [None;
        Some (mk_mdelem "grpc-encoding" "deflate");
        Some (mk_mdelem "grpc-encoding" "gzip")];
     mdelem_accept_encoding :=
       Some (mk_mdelem "grpc-accept-encoding" "deflate,gzip");
     default_compression_algorithm := 2%nat;
     compression_options :=
       {| enabled_algorithms_bitset := 6;
          opt_default_compression_algorithm := 2%nat |} |}.

(** A call whose initial metadata asks for an algorithm that the core does
    not know, with a five-byte message to send. *)
Definition snappy_requested : world unit :=
  call_world (mk_byte_stream 5 0 [ready hello]) [user_agent; request_snappy].

(** The call after the scan of that batch on [channeld_no_identity]. *)
Definition snappy_scanned : world unit :=
  Eval vm_compute in
    fst (grpc_metadata_batch_filter
           (compression_md_filter (core := core) channeld_no_identity)
           [user_agent; request_snappy] snappy_requested).

End Reference.

(** * Properties *)

Section Drain.
Context `{core : grpc_core} {R : Type}.
Implicit Types (w : world R) (op : grpc_transport_stream_op R).

Lemma next_ready a s rest w cl :
  deliveries (byte_streams w a) = ready s :: rest ->
  grpc_byte_stream_next (Some (upstream_stream a)) cl w
  = Ok (true, emit (ev_byte_stream_next true)
                (update_calld (set_incoming_slice s) (stream_advance a rest w))).
Proof. intros H. unfold grpc_byte_stream_next. now rewrite H. Qed.

Lemma next_later a s rest w :
  deliveries (byte_streams w a) = later s :: rest ->
  grpc_byte_stream_next (Some (upstream_stream a)) calld_got_slice w
  = Ok (false, suspend a s rest w).
Proof. intros H. unfold grpc_byte_stream_next. now rewrite H. Qed.

Lemma next_exhausted a w cl :
  deliveries (byte_streams w a) = [] ->
  grpc_byte_stream_next (Some (upstream_stream a)) cl w
  = Ok (false, emit (ev_byte_stream_next false) w).
Proof. intros H. unfold grpc_byte_stream_next. now rewrite H. Qed.

Lemma deliveries_left_take_ready a s rest w :
  send_message (send_op (calld w)) = Some (upstream_stream a) ->
  deliveries_left (take_ready a s rest w) = length rest.
Proof.
  intros H. unfold deliveries_left. cbn. rewrite H. cbn.
  destruct (decide (a = a)); [reflexivity | congruence].
Qed.

(** The loop equation of [continue_send_message]: the bound on the turns
    plays no part. *)
Lemma continue_send_message_eq w :
  continue_send_message w =
  ('(got, w1) ← grpc_byte_stream_next (send_message (send_op (calld w)))
                  calld_got_slice w;
   if got : bool then
     let w2 := slice_buffer_add (incoming_slice (calld w1)) w1 in
     if all_bytes_collected w2 then Ok (finish_send_message w2)
     else continue_send_message w2
   else Ok w1).
Proof.
  unfold continue_send_message at 1.
  cbn [continue_send_message_loop].
  destruct (send_message (send_op (calld w))) as [[a|]|] eqn:Hp;
    try reflexivity.
  destruct (deliveries (byte_streams w a)) as [|[s|s] rest] eqn:Hd.
  - now rewrite (next_exhausted _ _ _ Hd).
  - rewrite (next_ready _ _ _ _ _ Hd). cbn [mbind result_bind].
    change (slice_buffer_add _ _) with (take_ready a s rest w).
    unfold all_bytes_collected.
    destruct (_ =? _); [reflexivity|].
    unfold continue_send_message.
    rewrite (deliveries_left_take_ready _ _ _ _ Hp).
    unfold deliveries_left. now rewrite Hp, Hd.
  - now rewrite (next_later _ _ _ _ Hd).
Qed.

(** On a stream of the layer above, by what the stream does next. *)
Lemma continue_send_message_exhausted a w :
  send_message (send_op (calld w)) = Some (upstream_stream a) ->
  deliveries (byte_streams w a) = [] ->
  continue_send_message w = Ok (emit (ev_byte_stream_next false) w).
Proof.
  intros Hp Hd. rewrite continue_send_message_eq, Hp.
  now rewrite (next_exhausted _ _ _ Hd).
Qed.

Lemma continue_send_message_later a s rest w :
  send_message (send_op (calld w)) = Some (upstream_stream a) ->
  deliveries (byte_streams w a) = later s :: rest ->
  continue_send_message w = Ok (suspend a s rest w).
Proof.
  intros Hp Hd. rewrite continue_send_message_eq, Hp.
  now rewrite (next_later _ _ _ _ Hd).
Qed.

Lemma continue_send_message_ready a s rest w :
  send_message (send_op (calld w)) = Some (upstream_stream a) ->
  deliveries (byte_streams w a) = ready s :: rest ->
  continue_send_message w =
  if all_bytes_collected (take_ready a s rest w)
  then Ok (finish_send_message (take_ready a s rest w))
  else continue_send_message (take_ready a s rest w).
Proof.
  intros Hp Hd. rewrite continue_send_message_eq, Hp.
  now rewrite (next_ready _ _ _ _ _ Hd).
Qed.

Lemma got_slice_eq s w success :
  got_slice (update_calld (set_incoming_slice s) (set_pending None w)) success =
  if all_bytes_collected (resume s w)
  then Ok (finish_send_message (resume s w))
  else continue_send_message (resume s w).
Proof. reflexivity. Qed.

End Drain.

(** ** A proof rule for the drain

    [H] holds when the loop of [continue_send_message] asks the stream for
    a chunk, [S] while the machine waits for [got_slice], [J] at the
    completion check and [Q] once the message has been forwarded. *)
Section DrainRule.
Context `{core : grpc_core} {R : Type}.
Variable a : nat.
Variables H S J Q : world R -> Prop.

Hypothesis H_stream :
  forall w, H w -> send_message (send_op (calld w)) = Some (upstream_stream a).
Hypothesis H_ready :
  forall w s rest, H w ->
    deliveries (byte_streams w a) = ready s :: rest ->
    J (take_ready a s rest w).
Hypothesis H_later :
  forall w s rest, H w ->
    deliveries (byte_streams w a) = later s :: rest ->
    S (suspend a s rest w).
Hypothesis H_exhausted :
  forall w, H w ->
    deliveries (byte_streams w a) = [] ->
    S (emit (ev_byte_stream_next false) w).
Hypothesis S_resume :
  forall w cl s, S w -> pending w = Some (cl, s) ->
    cl = calld_got_slice /\ J (resume s w).
Hypothesis J_continue :
  forall w, J w -> all_bytes_collected w = false -> H w.
Hypothesis J_finish :
  forall w, J w -> all_bytes_collected w = true -> Q (finish_send_message w).
Hypothesis Q_quiet : forall w, Q w -> pending w = None.

Lemma deliveries_take_ready s rest (w : world R) :
  deliveries (byte_streams (take_ready a s rest w) a) = rest.
Proof. cbn. destruct (decide (a = a)); [reflexivity | congruence]. Qed.

Lemma drain_rule_check (w : world R) :
  J w ->
  (forall w', H w' ->
     length (deliveries (byte_streams w' a))
     = length (deliveries (byte_streams w a)) ->
     exists w'', continue_send_message w' = Ok w'' /\ (S w'' \/ Q w'')) ->
  exists w',
    (if all_bytes_collected w then Ok (finish_send_message w)
     else continue_send_message w) = Ok w'
    /\ (S w' \/ Q w').
Proof using J_continue J_finish.
  intros HJ IH. destruct (all_bytes_collected w) eqn:E.
  - eexists; split; [reflexivity|]. right. now apply J_finish.
  - apply IH; [now apply J_continue | reflexivity].
Qed.

Lemma drain_rule_continue (w : world R) :
  H w -> exists w', continue_send_message w = Ok w' /\ (S w' \/ Q w').
Proof using H_stream H_ready H_later H_exhausted J_continue J_finish.
  remember (length (deliveries (byte_streams w a))) as n eqn:Hn.
  revert w Hn. induction n as [|n IH]; intros w Hn Hw;
    pose proof (H_stream _ Hw) as Hp;
    destruct (deliveries (byte_streams w a)) as [|[s|s] rest] eqn:Hd;
    try discriminate.
  - rewrite (continue_send_message_exhausted _ _ Hp Hd).
    eexists; split; [reflexivity|]. left. now apply H_exhausted.
  - rewrite (continue_send_message_ready _ _ _ _ Hp Hd).
    apply drain_rule_check; [now apply H_ready|].
    intros w' Hw' Hlen. apply IH; [|assumption].
    rewrite Hlen, deliveries_take_ready. cbn in Hn. congruence.
  - rewrite (continue_send_message_later _ _ _ _ Hp Hd).
    eexists; split; [reflexivity|]. left. now apply H_later.
Qed.

Lemma drain_rule_deliver (w : world R) :
  S w \/ Q w ->
  exists w', byte_stream_deliver w = Ok w' /\ (S w' \/ Q w').
Proof using H_stream H_ready H_later H_exhausted S_resume J_continue
  J_finish Q_quiet.
  intros [Hw|Hw]; unfold byte_stream_deliver.
  - destruct (pending w) as [[cl s]|] eqn:Hpend.
    + destruct (S_resume _ _ _ Hw Hpend) as [-> HJ].
      rewrite got_slice_eq.
      apply drain_rule_check; [assumption|].
      intros w' Hw' _. now apply drain_rule_continue.
    + eexists; split; [reflexivity|]. now left.
  - rewrite (Q_quiet _ Hw). eexists; split; [reflexivity|]. now right.
Qed.

Lemma drain_rule_deliver_all n (w : world R) :
  S w \/ Q w ->
  exists w', deliver_all n w = Ok w' /\ (S w' \/ Q w').
Proof using H_stream H_ready H_later H_exhausted S_resume J_continue
  J_finish Q_quiet.
  revert w. induction n as [|n IH]; intros w Hw; cbn [deliver_all].
  - eexists; split; [reflexivity | assumption].
  - destruct (drain_rule_deliver _ Hw) as (w1 & -> & Hw1).
    cbn [mbind result_bind]. now apply IH.
Qed.

(** The whole run: the loop, then [n] deliveries. *)
Lemma drain_rule n (w : world R) :
  H w ->
  exists w',
    (w0 ← continue_send_message w; deliver_all n w0) = Ok w'
    /\ (S w' \/ Q w').
Proof using H_stream H_ready H_later H_exhausted S_resume J_continue
  J_finish Q_quiet.
  intros Hw. destruct (drain_rule_continue _ Hw) as (w0 & -> & Hw0).
  cbn [mbind result_bind]. now apply drain_rule_deliver_all.
Qed.

End DrainRule.

Section Entry.
Context `{core : grpc_core} {R : Type}.
Implicit Types (w : world R) (op : grpc_transport_stream_op R).

Lemma skip_compression_spec channeld w :
  skip_compression channeld w = true <-> resolved_to_none channeld w.
Proof.
  unfold skip_compression, resolved_to_none.
  destruct (has_compression_algorithm (calld w)).
  - destruct (decide _); intuition congruence.
  - rewrite bool_decide_eq_true. intuition congruence.
Qed.

Lemma compress_start_skipped channeld op stream w w1 :
  send_message op = Some stream ->
  after_metadata channeld op w = Ok w1 ->
  resolved_to_none channeld w1 \/ no_compress_requested w1 stream ->
  compress_start_transport_stream_op channeld op w
  = Ok (grpc_call_next_op op w1).
Proof.
  intros Hs Hm Hc. unfold compress_start_transport_stream_op.
  fold (after_metadata channeld op w). rewrite Hm, Hs. cbn [mbind result_bind].
  destruct Hc as [Hc|Hc].
  - apply skip_compression_spec in Hc. now rewrite Hc.
  - unfold no_compress_requested in Hc. apply Z.eqb_neq in Hc.
    rewrite Hc. now rewrite andb_false_r.
Qed.

Lemma compress_start_entered channeld op stream w w1 :
  send_message op = Some stream ->
  after_metadata channeld op w = Ok w1 ->
  ~ (resolved_to_none channeld w1 \/ no_compress_requested w1 stream) ->
  compress_start_transport_stream_op channeld op w
  = continue_send_message (enter_drain op stream w1).
Proof.
  intros Hs Hm Hc. unfold compress_start_transport_stream_op.
  fold (after_metadata channeld op w). rewrite Hm, Hs. cbn [mbind result_bind].
  destruct (skip_compression channeld w1) eqn:Hk.
  - exfalso. apply Hc. left. now apply skip_compression_spec.
  - destruct (_ =? 0) eqn:Hf; [reflexivity|].
    exfalso. apply Hc. right. unfold no_compress_requested.
    now apply Z.eqb_neq.
Qed.

(** *** What the drain leaves in the trace *)

Lemma extends_emit t0 e w : extends t0 w -> extends t0 (emit e w).
Proof.
  intros [evs E]. exists (evs ++ [e]). cbn. rewrite E. now rewrite app_assoc.
Qed.

Lemma continue_send_message_extends a w w' :
  send_message (send_op (calld w)) = Some (upstream_stream a) ->
  continue_send_message w = Ok w' -> extends (trace w) w'.
Proof.
  intros Hp Hrun.
  pose (P := fun x : world R =>
               send_message (send_op (calld x)) = Some (upstream_stream a)
               /\ extends (trace w) x).
  destruct (drain_rule_continue a P (extends (trace w)) P (extends (trace w)))
    with (w := w) as (w'' & E & Hw'').
  - now intros x [? ?].
  - intros x s rest [Hx1 Hx2] _. split; [exact Hx1|].
    unfold take_ready, slice_buffer_add. now do 2 apply extends_emit.
  - intros x s rest [_ Hx] _. unfold suspend. now apply extends_emit.
  - intros x [_ Hx] _. now apply extends_emit.
  - now intros x [? ?] _.
  - intros x [_ Hx] _. unfold finish_send_message, grpc_call_next_op.
    apply extends_emit. destruct (grpc_msg_compress _ _); exact Hx.
  - split; [exact Hp|]. exists []. now rewrite app_nil_r.
  - rewrite Hrun in E. injection E as <-. now destruct Hw''.
Qed.

Lemma continue_send_message_asks_first w w' :
  continue_send_message w = Ok w' ->
  exists got evs, trace w' = trace w ++ ev_byte_stream_next got :: evs.
Proof.
  intros Hrun.
  destruct (send_message (send_op (calld w))) as [[a|]|] eqn:Hp;
    [| rewrite continue_send_message_eq, Hp in Hrun; discriminate ..].
  destruct (deliveries (byte_streams w a)) as [|[s|s] rest] eqn:Hd.
  - rewrite (continue_send_message_exhausted _ _ Hp Hd) in Hrun.
    injection Hrun as <-. now exists false, [].
  - rewrite (continue_send_message_ready _ _ _ _ Hp Hd) in Hrun.
    assert (extends (trace (take_ready a s rest w)) w') as [evs E].
    { destruct (all_bytes_collected _).
      - injection Hrun as <-. unfold finish_send_message, grpc_call_next_op.
        apply extends_emit. destruct (grpc_msg_compress _ _);
          exists []; cbn; now rewrite app_nil_r.
      - now apply (continue_send_message_extends a). }
    exists true. eexists. rewrite E. cbn. rewrite <- !app_assoc. reflexivity.
  - rewrite (continue_send_message_later _ _ _ _ Hp Hd) in Hrun.
    injection Hrun as <-. now exists false, [].
Qed.

End Entry.

Section Skip.
Context `{core : grpc_core} {R : Type}.
Implicit Types (w : world R) (op : grpc_transport_stream_op R).

Lemma compression_md_filter_slices channeld w md :
  slices (calld (fst (compression_md_filter channeld w md))) = slices (calld w).
Proof.
  unfold compression_md_filter. destruct (decide _); [|reflexivity].
  destruct (grpc_compression_algorithm_parse _); cbn;
    destruct (negb _); reflexivity.
Qed.

Lemma batch_filter_slices channeld batch w :
  slices (calld (fst (grpc_metadata_batch_filter
                        (compression_md_filter channeld) batch w)))
  = slices (calld w).
Proof.
  revert w. induction batch as [|md rest IH]; intros w; [reflexivity|].
  cbn [grpc_metadata_batch_filter].
  pose proof (compression_md_filter_slices channeld w md) as Hmd.
  destruct (compression_md_filter channeld w md) as [w1 [md'|]]; cbn in Hmd.
  - specialize (IH w1).
    destruct (grpc_metadata_batch_filter _ rest w1) as [w2 rest'].
    cbn in *. congruence.
  - rewrite IH. exact Hmd.
Qed.

Lemma after_metadata_slices channeld op w w1 :
  after_metadata channeld op w = Ok w1 ->
  slices (calld w1) = slices (calld w).
Proof.
  unfold after_metadata, process_send_initial_metadata.
  destruct (send_initial_metadata op) as [p|]; [|now intros [= <-]].
  pose proof (batch_filter_slices channeld (md_batches w p) w) as Hf.
  destruct (grpc_metadata_batch_filter _ _ w) as [w' filtered]. cbn in Hf.
  destruct (has_compression_algorithm (calld w')) eqn:Hhas; cbn;
    rewrite ?Hhas; cbn;
    destruct (_ !!! _) as [e1|]; cbn; try discriminate;
    destruct (mdelem_accept_encoding channeld) as [e2|]; cbn;
    try discriminate; intros [= <-]; exact Hf.
Qed.

(** C4.  An operation that carries a message is handed to the next filter
    as it came, untouched and with the buffer as it was, exactly when the
    resolved algorithm (or, with none resolved, the channel default) is the
    no-compression sentinel or the message carries GRPC_WRITE_NO_COMPRESS;
    in every other case, and in no other, the drain is entered. *)
Theorem skipped_exactly_when channeld op stream w w1 :
  send_message op = Some stream ->
  after_metadata channeld op w = Ok w1 ->
  (compress_start_transport_stream_op channeld op w
     = Ok (grpc_call_next_op op w1)
   <-> resolved_to_none channeld w1 \/ no_compress_requested w1 stream)
  /\ (compress_start_transport_stream_op channeld op w
        = continue_send_message (enter_drain op stream w1)
      <-> ~ (resolved_to_none channeld w1 \/ no_compress_requested w1 stream))
  /\ slices (calld (grpc_call_next_op op w1)) = slices (calld w).
Proof.
  intros Hs Hm.
  assert (Hdec : (resolved_to_none channeld w1
                  \/ no_compress_requested w1 stream)
                 \/ ~ (resolved_to_none channeld w1
                       \/ no_compress_requested w1 stream)).
  { destruct (skip_compression channeld w1) eqn:Hk.
    - left. left. now apply skip_compression_spec.
    - unfold no_compress_requested.
      destruct (decide (Z.land (byte_stream_flags w1 stream)
                          GRPC_WRITE_NO_COMPRESS = 0)) as [E|E].
      + right. intros [Hc|Hc]; [|now apply Hc].
        apply skip_compression_spec in Hc. congruence.
      + left. now right. }
  assert (Hne : continue_send_message (enter_drain op stream w1)
                <> Ok (grpc_call_next_op op w1)).
  { intros E. apply continue_send_message_asks_first in E.
    destruct E as (got & evs & E). cbn in E.
    apply app_inv_head in E. discriminate. }
  split; [|split].
  - split.
    + intros E. destruct Hdec as [Hc|Hc]; [assumption|].
      rewrite (compress_start_entered _ _ _ _ _ Hs Hm Hc) in E.
      now apply Hne in E.
    + now apply compress_start_skipped.
  - split.
    + intros E Hc.
      rewrite (compress_start_skipped _ _ _ _ _ Hs Hm Hc) in E.
      symmetry in E. now apply Hne in E.
    + now apply compress_start_entered.
  - cbn. now apply (after_metadata_slices channeld op).
Qed.

End Skip.

Section Outcome.
Context `{core : grpc_core} {R : Type}.
Implicit Types (w : world R) (op : grpc_transport_stream_op R).

Lemma finish_send_message_trace w :
  trace (finish_send_message w)
  = trace w ++ [ev_call_next_op (forwarded_op (send_op (calld w)))].
Proof.
  unfold finish_send_message. destruct (grpc_msg_compress _ _); reflexivity.
Qed.

Lemma finish_send_message_forwarded t0 op L w :
  checking t0 op L w -> all_bytes_collected w = true ->
  forwarded t0 op L (finish_send_message w).
Proof.
  intros (Hop & HL & Hpend & evs & s & Ht & Hevs) Hall.
  unfold all_bytes_collected in Hall. apply Z.eqb_eq in Hall.
  assert (Htr : exists evs0 s0,
             trace (finish_send_message w)
             = t0 ++ evs0 ++ [ev_slice_buffer_add s0 L;
                              ev_call_next_op (forwarded_op op)]
             /\ Forall (drain_event L) evs0).
  { exists evs, s. split; [|assumption].
    rewrite finish_send_message_trace, Ht, Hop, <- Hall, HL.
    now rewrite <- !app_assoc. }
  unfold forwarded.
  split; [|split; [|split; [|split; [|split]]]]; try exact Htr;
    unfold finish_send_message; destruct (grpc_msg_compress _ _); cbn;
    rewrite ?Hop; auto.
Qed.

(** Every drain either is still draining or has forwarded the message, and
    never aborts. *)
Lemma drain_outcome a op w n :
  send_message op = Some (upstream_stream a) ->
  send_op (calld w) = op ->
  pending w = None ->
  exists w',
    (w0 ← continue_send_message w; deliver_all n w0) = Ok w'
    /\ (draining (trace w) op (send_length (calld w)) w'
        \/ forwarded (trace w) op (send_length (calld w)) w').
Proof.
  intros Hs Hop Hpend.
  set (t0 := trace w). set (L := send_length (calld w)).
  apply (drain_rule a
           (fun x => draining t0 op L x /\ pending x = None)
           (draining t0 op L) (checking t0 op L) (forwarded t0 op L)).
  - intros x [(Hx & _) _]. now rewrite Hx.
  - intros x s rest [(Hx & HL & _ & evs & Ht & Hevs) Hp] _.
    repeat split; try assumption.
    exists (evs ++ [ev_byte_stream_next true]), s. split.
    + cbn. rewrite Ht. now rewrite <- !app_assoc.
    + apply Forall_app. split; [assumption|]. now repeat constructor.
  - intros x s rest [(Hx & HL & _ & evs & Ht & Hevs) Hp] _.
    repeat split; try assumption.
    + cbn. now intros cl s' [= <- _].
    + exists (evs ++ [ev_byte_stream_next false]). split.
      * cbn. rewrite Ht. now rewrite <- !app_assoc.
      * apply Forall_app. split; [assumption|]. now repeat constructor.
  - intros x [(Hx & HL & Hcl & evs & Ht & Hevs) Hp] _.
    repeat split; try assumption.
    exists (evs ++ [ev_byte_stream_next false]). split.
    + cbn. rewrite Ht. now rewrite <- !app_assoc.
    + apply Forall_app. split; [assumption|]. now repeat constructor.
  - intros x cl s (Hx & HL & Hcl & evs & Ht & Hevs) Hp.
    split; [now apply (Hcl cl s)|].
    repeat split; try assumption.
    exists evs, s. split; [|assumption].
    cbn. rewrite Ht. now rewrite <- !app_assoc.
  - intros x (Hx & HL & Hp & evs & s & Ht & Hevs) Hall.
    unfold all_bytes_collected in Hall. apply Z.eqb_neq in Hall.
    repeat split; try assumption.
    + intros cl s'. rewrite Hp. discriminate.
    + exists (evs ++ [ev_slice_buffer_add s (sb_length (slices (calld x)))]).
      split; [assumption|].
      apply Forall_app. split; [assumption|].
      constructor; [|constructor]. cbn. congruence.
  - intros x. apply finish_send_message_forwarded.
  - now intros x (? & _).
  - repeat split; try assumption.
    + intros cl s. rewrite Hpend. discriminate.
    + exists []. split; [now rewrite app_nil_r | constructor].
Qed.

End Outcome.

Section Forwarding.
Context `{core : grpc_core} {R : Type}.
Implicit Types (w : world R) (op : grpc_transport_stream_op R).

Lemma send_and_deliver_outcome channeld op a w w1 n :
  send_message op = Some (upstream_stream a) ->
  after_metadata channeld op w = Ok w1 ->
  pending w1 = None ->
  ~ (resolved_to_none channeld w1
     \/ no_compress_requested w1 (upstream_stream a)) ->
  exists w',
    send_and_deliver channeld op n w = Ok w'
    /\ (draining (trace w1) op (bs_length (byte_streams w1 a)) w'
        \/ forwarded (trace w1) op (bs_length (byte_streams w1 a)) w').
Proof.
  intros Hs Hm Hp Hc. unfold send_and_deliver.
  rewrite (compress_start_entered _ _ _ _ _ Hs Hm Hc).
  now apply (drain_outcome a op (enter_drain op (upstream_stream a) w1) n).
Qed.

Lemma drain_events_no_next_op L (evs : list (event R)) :
  Forall (drain_event L) evs -> next_ops evs = [].
Proof.
  induction 1 as [|e evs He _ IH]; [reflexivity|].
  unfold next_ops in *. cbn. destruct e; cbn in *; try contradiction; exact IH.
Qed.

Lemma drain_events_no_closure_run L (evs : list (event R)) :
  Forall (drain_event L) evs -> closure_runs evs = [].
Proof.
  induction 1 as [|e evs He _ IH]; [reflexivity|].
  unfold closure_runs in *. cbn.
  destruct e; cbn in *; try contradiction; exact IH.
Qed.

Lemma next_ops_app (l1 l2 : list (event R)) :
  next_ops (l1 ++ l2) = next_ops l1 ++ next_ops l2.
Proof. apply omap_app. Qed.

Lemma closure_runs_app (l1 l2 : list (event R)) :
  closure_runs (l1 ++ l2) = closure_runs l1 ++ closure_runs l2.
Proof. apply omap_app. Qed.

(** What the events since [t0] can be, by the state of the machine. *)
Lemma draining_events t0 op L w evs :
  draining t0 op L w -> trace w = t0 ++ evs ->
  next_ops evs = [] /\ closure_runs evs = [].
Proof.
  intros (_ & _ & _ & evs' & Ht & Hevs) E.
  rewrite Ht in E. apply app_inv_head in E. subst evs'.
  split; [eapply drain_events_no_next_op | eapply drain_events_no_closure_run];
    eassumption.
Qed.

Lemma forwarded_events t0 op L w evs :
  forwarded t0 op L w -> trace w = t0 ++ evs ->
  next_ops evs = [forwarded_op op] /\ closure_runs evs = [].
Proof.
  intros (_ & _ & _ & _ & _ & evs' & s & Ht & Hevs) E.
  rewrite Ht in E. apply app_inv_head in E. subst evs.
  rewrite next_ops_app, closure_runs_app.
  rewrite (drain_events_no_next_op _ _ Hevs).
  now rewrite (drain_events_no_closure_run _ _ Hevs).
Qed.

Lemma appends_app (l1 l2 : list (event R)) :
  appends (l1 ++ l2) = appends l1 ++ appends l2.
Proof. apply omap_app. Qed.

Lemma drain_events_appends L (evs : list (event R)) :
  Forall (drain_event L) evs -> ~ In L (appends evs).
Proof.
  induction 1 as [|e evs He _ IH]; [now intros []|].
  unfold appends in *. cbn.
  destruct e; cbn in *; try contradiction; try exact IH.
  intros [E|Hin]; [congruence | now apply IH].
Qed.

(** The run of a message that enters the drain never aborts, and leaves the
    call in one of two states: still draining, with nothing handed down, no
    closure run and no append that reached the declared length; or
    forwarded, with the one operation handed down right after the append
    that reached it. *)
Lemma send_and_deliver_cases channeld op a w w1 n :
  send_message op = Some (upstream_stream a) ->
  after_metadata channeld op w = Ok w1 ->
  pending w1 = None ->
  ~ (resolved_to_none channeld w1
     \/ no_compress_requested w1 (upstream_stream a)) ->
  exists w' evs,
    send_and_deliver channeld op n w = Ok w'
    /\ trace w' = trace w1 ++ evs
    /\ send_length (calld w') = bs_length (byte_streams w1 a)
    /\ ((next_ops evs = [] /\ closure_runs evs = []
         /\ ~ In (bs_length (byte_streams w1 a)) (appends evs))
        \/ (next_ops evs = [forwarded_op op] /\ closure_runs evs = []
            /\ In (bs_length (byte_streams w1 a)) (appends evs)
            /\ post_send (calld w') = on_complete op
            /\ replacement_stream (calld w')
               = grpc_slice_buffer_stream_init (slices (calld w'))
                   (send_flags (calld w')))).
Proof.
  intros Hs Hm Hp Hc.
  destruct (send_and_deliver_outcome channeld op a w w1 n Hs Hm Hp Hc)
    as (w' & Hrun & [Hd|Hf]).
  - pose proof Hd as (_ & HL & _ & evs & Ht & Hevs).
    exists w', evs. split; [exact Hrun|]. split; [exact Ht|].
    split; [exact HL|]. left.
    destruct (draining_events _ _ _ _ _ Hd Ht) as [Hn Hcr].
    split; [exact Hn|]. split; [exact Hcr|].
    now apply drain_events_appends.
  - pose proof Hf as (_ & _ & Hpost & HL & Hr & evs & s & Ht & Hevs).
    eexists w', _. split; [exact Hrun|]. split; [exact Ht|].
    split; [exact HL|]. right.
    destruct (forwarded_events _ _ _ _ _ Hf Ht) as [Hn Hcr].
    split; [exact Hn|]. split; [exact Hcr|]. split; [|split; assumption].
    rewrite appends_app. apply in_or_app. right. now left.
Qed.

(** C10.  The operation that goes down for a message that went through the
    drain is the operation that came in, with [send_message] pointing at the
    replacement stream over the buffer and [on_complete] at the filter's
    [send_done]; every other member has the value it arrived with. *)
Theorem forwarded_op_is_snapshot channeld op a w w1 n :
  send_message op = Some (upstream_stream a) ->
  after_metadata channeld op w = Ok w1 ->
  pending w1 = None ->
  ~ (resolved_to_none channeld w1
     \/ no_compress_requested w1 (upstream_stream a)) ->
  exists w' evs,
    send_and_deliver channeld op n w = Ok w'
    /\ trace w' = trace w1 ++ evs
    /\ forall fwd, In fwd (next_ops evs) ->
         fwd = mk_op (send_initial_metadata op)
                 (Some calld_replacement_stream) calld_send_done (op_rest op)
         /\ replacement_stream (calld w')
            = grpc_slice_buffer_stream_init (slices (calld w'))
                (send_flags (calld w')).
Proof.
  intros Hs Hm Hp Hc.
  destruct (send_and_deliver_cases channeld op a w w1 n Hs Hm Hp Hc)
    as (w' & evs & Hrun & Ht & _ & [(Hn & _)|(Hn & _ & _ & _ & Hr)]);
    exists w', evs; (split; [exact Hrun|]); (split; [exact Ht|]);
    intros fwd Hin; rewrite Hn in Hin.
  - destruct Hin.
  - destruct Hin as [<-|[]]. split; [reflexivity | exact Hr].
Qed.

(** C2.  Once the message has gone down, the completion of the forwarded
    operation is the filter's [send_done]; when it fires with a flag, the
    buffer is reset first and the completion closure that the operation
    arrived with is run with the same flag.  It is the only completion the
    filter runs for the message, and the message went down once. *)
Theorem completion_fires_once channeld op a w w1 n :
  send_message op = Some (upstream_stream a) ->
  after_metadata channeld op w = Ok w1 ->
  pending w1 = None ->
  ~ (resolved_to_none channeld w1
     \/ no_compress_requested w1 (upstream_stream a)) ->
  exists w' evs,
    send_and_deliver channeld op n w = Ok w'
    /\ trace w' = trace w1 ++ evs
    /\ closure_runs evs = []
    /\ forall fwd success, In fwd (next_ops evs) ->
         on_complete fwd = calld_send_done
         /\ next_ops evs = [fwd]
         /\ slices (calld (send_done w' success)) = gpr_slice_buffer_init
         /\ trace (send_done w' success)
            = trace w1 ++ evs ++ [ev_slice_buffer_reset_and_unref;
                                  ev_closure_run (on_complete op) success]
         /\ closure_runs (evs ++ [ev_slice_buffer_reset_and_unref;
                                  ev_closure_run (on_complete op) success])
            = [(on_complete op, success)].
Proof.
  intros Hs Hm Hp Hc.
  destruct (send_and_deliver_cases channeld op a w w1 n Hs Hm Hp Hc)
    as (w' & evs & Hrun & Ht & _
        & [(Hn & Hcr & _)|(Hn & Hcr & _ & Hpost & _)]);
    exists w', evs; (split; [exact Hrun|]); (split; [exact Ht|]);
    (split; [exact Hcr|]); intros fwd success Hin; rewrite Hn in Hin.
  - destruct Hin.
  - destruct Hin as [<-|[]].
    split; [reflexivity|]. split; [exact Hn|]. split; [reflexivity|]. split.
    + cbn. rewrite Ht, Hpost. now rewrite <- !app_assoc.
    + rewrite closure_runs_app, Hcr. reflexivity.
Qed.

End Forwarding.

Section Bound.
Context `{core : grpc_core} {R : Type}.
Implicit Types (w : world R) (op : grpc_transport_stream_op R).

Lemma bytes_of_cons d ds :
  bytes_of (d :: ds) = GPR_SLICE_LENGTH (delivered d) + bytes_of ds.
Proof. reflexivity. Qed.




End Bound.

Section Completion.
Context `{core : grpc_core} {R : Type}.
Implicit Types (w : world R) (op : grpc_transport_stream_op R).


(** *** Progress *)

Lemma deliver_all_quiet n w :
  pending w = None -> deliver_all n w = Ok w.
Proof.
  intros Hp. induction n as [|n IH]; [reflexivity|].
  cbn [deliver_all]. unfold byte_stream_deliver. rewrite Hp. exact IH.
Qed.

Lemma finish_send_message_pending w :
  pending (finish_send_message w) = pending w.
Proof.
  unfold finish_send_message. now destruct (grpc_msg_compress _ _).
Qed.

Lemma finish_send_message_stream w :
  send_message (send_op (calld (finish_send_message w)))
  = Some calld_replacement_stream.
Proof.
  unfold finish_send_message. now destruct (grpc_msg_compress _ _).
Qed.

(** A stream that honours its length and has something to deliver gets the
    message through: after as many deliveries as the stream has chunks the
    machine has finished the message. *)
Lemma drain_completes a ds w n :
  send_message (send_op (calld w)) = Some (upstream_stream a) ->
  deliveries (byte_streams w a) = ds ->
  pending w = None ->
  sb_length (slices (calld w)) + bytes_of ds = send_length (calld w) ->
  ds <> [] ->
  (length ds <= n)%nat ->
  exists w',
    (w0 ← continue_send_message w; deliver_all n w0) = Ok w'
    /\ send_message (send_op (calld w')) = Some calld_replacement_stream.
Proof.
  revert w n. induction ds as [|[s|s] rest IH]; intros w n Hs Hd Hp Hsum Hne Hn;
    [contradiction| |].
  - rewrite (continue_send_message_ready _ _ _ _ Hs Hd).
    rewrite bytes_of_cons in Hsum. cbn [delivered] in Hsum.
    destruct (all_bytes_collected (take_ready a s rest w)) eqn:Hall.
    + cbn [mbind result_bind]. rewrite deliver_all_quiet.
      * eexists. split; [reflexivity | apply finish_send_message_stream].
      * now rewrite finish_send_message_pending.
    + unfold all_bytes_collected in Hall. apply Z.eqb_neq in Hall.
      cbn in Hall. cbn [length] in Hn.
      apply IH; try assumption.
      * apply deliveries_take_ready.
      * cbn. lia.
      * intros ->. cbn in Hsum. lia.
      * lia.
  - rewrite (continue_send_message_later _ _ _ _ Hs Hd).
    rewrite bytes_of_cons in Hsum. cbn [delivered] in Hsum.
    cbn [mbind result_bind]. destruct n as [|n]; [cbn in Hn; lia|].
    cbn [deliver_all]. unfold byte_stream_deliver.
    cbn [pending suspend emit set_pending]. rewrite got_slice_eq.
    destruct (all_bytes_collected (resume s (suspend a s rest w))) eqn:Hall.
    + cbn [mbind result_bind]. rewrite deliver_all_quiet.
      * eexists. split; [reflexivity | apply finish_send_message_stream].
      * now rewrite finish_send_message_pending.
    + unfold all_bytes_collected in Hall. apply Z.eqb_neq in Hall.
      cbn in Hall. cbn [length] in Hn.
      apply (IH (resume s (suspend a s rest w)) n); try assumption.
      * cbn. destruct (decide (a = a)); [reflexivity | congruence].
      * reflexivity.
      * cbn. lia.
      * intros ->. cbn in Hsum. lia.
      * lia.
Qed.

(** X7.  Under the contract of the byte-source, a message that enters the
    drain with the buffer empty goes down, once, when the stream has
    delivered its chunks. *)
Lemma message_goes_down channeld op a w w1 n :
  send_message op = Some (upstream_stream a) ->
  after_metadata channeld op w = Ok w1 ->
  pending w1 = None ->
  ~ (resolved_to_none channeld w1
     \/ no_compress_requested w1 (upstream_stream a)) ->
  sb_length (slices (calld w1)) = 0 ->
  honours_length (byte_streams w1 a) ->
  deliveries (byte_streams w1 a) <> [] ->
  (length (deliveries (byte_streams w1 a)) <= n)%nat ->
  exists w' evs,
    send_and_deliver channeld op n w = Ok w'
    /\ trace w' = trace w1 ++ evs
    /\ next_ops evs = [forwarded_op op].
Proof.
  intros Hs Hm Hp Hc Hempty Hcontract Hne Hn.
  destruct (send_and_deliver_outcome channeld op a w w1 n Hs Hm Hp Hc)
    as (w' & Hrun & Hout).
  destruct (drain_completes a (deliveries (byte_streams w1 a))
              (enter_drain op (upstream_stream a) w1) n)
    as (w'' & E & Hdone); try assumption; try reflexivity.
  { cbn. rewrite Hempty. exact Hcontract. }
  unfold send_and_deliver in Hrun.
  rewrite (compress_start_entered _ _ _ _ _ Hs Hm Hc), E in Hrun.
  injection Hrun as ->.
  destruct Hout as [(Hop & _)|Hf].
  - rewrite Hop, Hs in Hdone. discriminate.
  - pose proof Hf as (_ & _ & _ & _ & _ & evs & s & Ht & _).
    eexists w', _. split.
    + unfold send_and_deliver.
      now rewrite (compress_start_entered _ _ _ _ _ Hs Hm Hc).
    + split; [exact Ht|]. now apply (forwarded_events _ _ _ _ _ Hf Ht).
Qed.

End Completion.

Section ZeroLength.
Context `{core : grpc_core} {R : Type}.
Implicit Types (w : world R) (op : grpc_transport_stream_op R).

(** C7, as the code has it.  A zero-length message that enters the drain
    with the buffer empty still asks the stream for a chunk; when the stream
    hands out an empty chunk at once, the loop body runs exactly once, the
    machine is not left waiting, and the message goes straight to
    compression and down the stack. *)
Theorem zero_length_message_one_turn channeld op a w w1 s rest :
  send_message op = Some (upstream_stream a) ->
  after_metadata channeld op w = Ok w1 ->
  ~ (resolved_to_none channeld w1
     \/ no_compress_requested w1 (upstream_stream a)) ->
  bs_length (byte_streams w1 a) = 0 ->
  sb_length (slices (calld w1)) = 0 ->
  deliveries (byte_streams w1 a) = ready s :: rest ->
  GPR_SLICE_LENGTH s = 0 ->
  exists w' evs,
    compress_start_transport_stream_op channeld op w = Ok w'
    /\ trace w' = trace w1 ++ evs
    /\ evs = [ev_byte_stream_next true; ev_slice_buffer_add s 0;
              ev_call_next_op (forwarded_op op)]
    /\ loop_turns evs = 1%nat
    /\ suspensions evs = 0%nat
    /\ pending w' = pending w1.
Proof.
  intros Hs Hm Hc HL Hempty Hd Hlen.
  rewrite (compress_start_entered _ _ _ _ _ Hs Hm Hc).
  set (w0 := enter_drain op (upstream_stream a) w1).
  assert (Hp : send_message (send_op (calld w0)) = Some (upstream_stream a))
    by exact Hs.
  assert (Hd0 : deliveries (byte_streams w0 a) = ready s :: rest) by exact Hd.
  rewrite (continue_send_message_ready _ _ _ _ Hp Hd0).
  assert (Hall : all_bytes_collected (take_ready a s rest w0) = true).
  { unfold all_bytes_collected. cbn. rewrite HL, Hempty, Hlen. reflexivity. }
  rewrite Hall. eexists. eexists. split; [reflexivity|].
  split; [|split; [reflexivity|]].
  - rewrite finish_send_message_trace. cbn. rewrite Hempty, Hlen, <- !app_assoc.
    reflexivity.
  - split; [reflexivity|]. split; [reflexivity|].
    unfold finish_send_message. now destruct (grpc_msg_compress _ _).
Qed.

(** X8.  Whatever the declared length, the check comes after the first
    chunk: when the stream has no chunk at hand the operation returns with
    the machine waiting and nothing handed down. *)
Lemma message_waits_for_first_chunk channeld op a w w1 :
  send_message op = Some (upstream_stream a) ->
  after_metadata channeld op w = Ok w1 ->
  ~ (resolved_to_none channeld w1
     \/ no_compress_requested w1 (upstream_stream a)) ->
  deliveries (byte_streams w1 a) = []
  \/ (exists s rest, deliveries (byte_streams w1 a) = later s :: rest) ->
  exists w',
    compress_start_transport_stream_op channeld op w = Ok w'
    /\ trace w' = trace w1 ++ [ev_byte_stream_next false].
Proof.
  intros Hs Hm Hc Hd.
  rewrite (compress_start_entered _ _ _ _ _ Hs Hm Hc).
  set (w0 := enter_drain op (upstream_stream a) w1).
  assert (Hp : send_message (send_op (calld w0)) = Some (upstream_stream a))
    by exact Hs.
  destruct Hd as [Hd|(s & rest & Hd)].
  - rewrite (continue_send_message_exhausted a w0 Hp Hd).
    eexists. split; reflexivity.
  - rewrite (continue_send_message_later a s rest w0 Hp Hd).
    eexists. split; reflexivity.
Qed.

End ZeroLength.

Section Transform.
Context `{core : grpc_core} {R : Type}.
Implicit Types (w : world R) (op : grpc_transport_stream_op R).

Lemma land_lor_mask f m : Z.land (Z.lor f m) m = m.
Proof.
  apply Z.bits_inj'. intros i _.
  rewrite Z.land_spec, Z.lor_spec.
  now destruct (Z.testbit f i), (Z.testbit m i).
Qed.

(** C3, as the code has it.  When the transform succeeds its output replaces
    the buffer and the flags gain the internal-compression bit; when it
    declines, buffer and flags stay as they are.  Either way the message goes
    down through the replacement stream, which carries these flags, with
    [send_done] as completion.  The bit is never cleared: the outgoing flags
    carry it exactly when the transform succeeded or the incoming flags
    carried it already. *)
Theorem finish_send_message_transform w :
  let verdict :=
    grpc_msg_compress (compression_algorithm (calld w)) (slices (calld w)) in
  let w' := finish_send_message w in
  (forall tmp, verdict = Some tmp ->
     slices (calld w') = tmp
     /\ send_flags (calld w')
        = Z.lor (send_flags (calld w)) GRPC_WRITE_INTERNAL_COMPRESS)
  /\ (verdict = None ->
      slices (calld w') = slices (calld w)
      /\ send_flags (calld w') = send_flags (calld w))
  /\ replacement_stream (calld w')
     = grpc_slice_buffer_stream_init (slices (calld w')) (send_flags (calld w'))
  /\ trace w' = trace w ++ [ev_call_next_op (forwarded_op (send_op (calld w)))]
  /\ (internally_compressed (rs_flags (replacement_stream (calld w')))
      <-> is_Some verdict \/ internally_compressed (send_flags (calld w))).
Proof.
  cbn zeta. split; [|split; [|split; [|split]]].
  - intros tmp E. unfold finish_send_message. rewrite E. now split.
  - intros E. unfold finish_send_message. rewrite E. now split.
  - unfold finish_send_message. now destruct (grpc_msg_compress _ _).
  - apply finish_send_message_trace.
  - unfold finish_send_message, internally_compressed.
    destruct (grpc_msg_compress _ _) as [tmp|]; cbn.
    + rewrite land_lor_mask. split; [intros _; left; now exists tmp | easy].
    + split; [now right | intros [[x Hx]|Hf]; [discriminate | exact Hf]].
Qed.

End Transform.

Section ChannelProperties.
Context `{core : grpc_core}.

(** *** The loop of [init_channel_elem] *)

Lemma init_loop_spec opts k idxs st st' :
  for_each idxs (init_channel_loop_body opts k) st = Ok st' ->
  length (il_table st') = length (il_table st)
  /\ (exists names,
        canonical_names
          (List.filter
             (fun a => grpc_compression_options_is_algorithm_enabled opts a
                       && negb (a =? GRPC_COMPRESS_NONE)%nat) idxs) names
        /\ il_names st' = il_names st ++ names)
  /\ (forall i,
        In i idxs -> (i < length (il_table st))%nat ->
        grpc_compression_options_is_algorithm_enabled opts i = true ->
        exists name,
          grpc_compression_algorithm_name i = Some name
          /\ il_table st' !! i = Some (Some {| key := k; value := name |}))
  /\ (forall i,
        ~ (In i idxs
           /\ grpc_compression_options_is_algorithm_enabled opts i = true) ->
        il_table st' !! i = il_table st !! i).
Proof.
  revert st. induction idxs as [|j idxs IH]; intros st Hrun.
  - injection Hrun as <-. split; [reflexivity|]. split.
    + exists []. split; [constructor | now rewrite app_nil_r].
    + split; [now intros i [] | reflexivity].
  - cbn [for_each] in Hrun.
    destruct (init_channel_loop_body opts k j st) as [st1|] eqn:Hbody;
      [|discriminate].
    cbn [mbind result_bind] in Hrun.
    destruct (IH _ Hrun) as (Hlen & (names & Hnames & Hn) & Hin & Hout).
    unfold init_channel_loop_body in Hbody.
    destruct (grpc_compression_options_is_algorithm_enabled opts j) eqn:Hj;
      cbn [negb] in Hbody.
    + destruct (grpc_compression_algorithm_name j) as [nm|] eqn:Hnm;
        [|discriminate].
      injection Hbody as <-. cbn in *.
      rewrite length_insert in Hlen, Hin.
      split; [exact Hlen|]. split; [|split].
      * rewrite Hj. cbn [andb].
        destruct j as [|j]; cbn [Nat.eqb negb Nat.ltb Nat.leb] in *.
        -- exists names. split; assumption.
        -- exists (nm :: names). split; [now constructor|].
           rewrite Hn. now rewrite <- app_assoc.
      * intros i [<-|Hi] Hlt Hen.
        -- destruct (in_dec Nat.eq_dec j idxs) as [Hjin|Hjout].
           ++ now apply Hin.
           ++ exists nm. split; [assumption|].
              rewrite Hout by tauto. now apply list_lookup_insert_eq.
        -- now apply Hin.
      * intros i Hi. rewrite Hout by tauto.
        apply list_lookup_insert_ne. intros <-. apply Hi. split; [now left|].
        assumption.
    + injection Hbody as <-. cbn [List.filter]. rewrite Hj. cbn [andb].
      split; [exact Hlen|]. split; [now exists names|]. split.
      * intros i [<-|Hi] Hlt Hen; [congruence | now apply Hin].
      * intros i Hi. apply Hout. intros [Hi1 Hi2]. apply Hi.
        split; [now right | assumption].
Qed.

(** What a successful [init_channel_elem] has checked and built. *)
Lemma init_channel_elem_inv ctx args channeld ctx' :
  init_channel_elem ctx args = Ok (channeld, ctx') ->
  grpc_compression_options_is_algorithm_enabled (options_of args)
    (channel_compression_algorithm args) = true
  /\ is_last args = false
  /\ exists st ctx0,
       ctx0 = mdctx_add (h_mdstr "grpc-accept-encoding") 1
                (mdctx_add (h_mdstr "grpc-encoding") 1
                   (mdctx_add (h_mdstr GRPC_COMPRESS_REQUEST_ALGORITHM_KEY) 1
                      ctx))
       /\ ctx' = mdctx_add
                   (h_mdelem {| key := "grpc-accept-encoding";
                                value := gpr_strjoin_sep (il_names st) "," |})
                   1
                   (mdctx_add (h_mdstr (gpr_strjoin_sep (il_names st) ","))
                      (-1)
                      (mdctx_add (h_mdstr "grpc-accept-encoding") (-1)
                         (mdctx_add
                            (h_mdstr (gpr_strjoin_sep (il_names st) ",")) 1
                            (mdctx_add (h_mdstr "grpc-accept-encoding") 1
                               (il_ctx st)))))
       /\ for_each (seq 0 GRPC_COMPRESS_ALGORITHMS_COUNT)
            (init_channel_loop_body (options_of args) "grpc-encoding")
            {| il_table := replicate GRPC_COMPRESS_ALGORITHMS_COUNT None;
               il_names := [];
               il_ctx := ctx0 |} = Ok st
       /\ channeld =
          {| mdstr_request_compression_algorithm_key :=
               GRPC_COMPRESS_REQUEST_ALGORITHM_KEY;
             mdstr_outgoing_compression_algorithm_key := "grpc-encoding";
             mdstr_compression_capabilities_key := "grpc-accept-encoding";
             mdelem_compression_algorithms := il_table st;
             mdelem_accept_encoding :=
               Some {| key := "grpc-accept-encoding";
                       value := gpr_strjoin_sep (il_names st) "," |};
             default_compression_algorithm :=
               channel_compression_algorithm args;
             compression_options := options_of args |}.
Proof.
  unfold init_channel_elem, options_of, grpc_mdstr_from_string,
    GRPC_MDSTR_REF, grpc_mdelem_from_metadata_strings.
  cbn [enabled_algorithms_bitset]. intros Hrun.
  change (grpc_compression_options_is_algorithm_enabled
            {| enabled_algorithms_bitset :=
                 uint32 (compression_algorithm_states args);
               opt_default_compression_algorithm := GRPC_COMPRESS_NONE |}
            (channel_compression_algorithm args))
    with (grpc_compression_options_is_algorithm_enabled
            {| enabled_algorithms_bitset :=
                 uint32 (compression_algorithm_states args);
               opt_default_compression_algorithm :=
                 channel_compression_algorithm args |}
            (channel_compression_algorithm args)) in Hrun.
  destruct (grpc_compression_options_is_algorithm_enabled _
              (channel_compression_algorithm args)) eqn:Hdef;
    [|discriminate].
  cbv beta iota zeta delta [GPR_ASSERT mbind result_bind] in Hrun.
  destruct (for_each _ _ _) as [st|] eqn:Hloop; [|discriminate].
  destruct (is_last args); [discriminate|].
  cbv beta iota zeta delta [negb] in Hrun. injection Hrun as <- <-.
  split; [reflexivity|]. split; [reflexivity|].
  eexists. eexists. split; [reflexivity|]. split; [reflexivity|].
  split; [exact Hloop | reflexivity].
Qed.

(** The element table after construction: the entry of an enabled algorithm
    holds its precomputed element, the entry of a disabled one was never
    assigned. *)
Lemma init_channel_elem_table ctx args channeld ctx' a :
  init_channel_elem ctx args = Ok (channeld, ctx') ->
  (a < GRPC_COMPRESS_ALGORITHMS_COUNT)%nat ->
  if grpc_compression_options_is_algorithm_enabled (options_of args) a
  then exists name,
         grpc_compression_algorithm_name a = Some name
         /\ mdelem_compression_algorithms channeld !! a
            = Some (Some (selected_algorithm_elem name))
  else mdelem_compression_algorithms channeld !! a = Some None.
Proof.
  intros Hinit Ha.
  destruct (init_channel_elem_inv _ _ _ _ Hinit)
    as (_ & _ & st & ctx0 & _ & _ & Hloop & ->).
  destruct (init_loop_spec _ _ _ _ _ Hloop) as (_ & _ & Hin & Hout).
  cbn [il_table mdelem_compression_algorithms] in *.
  destruct (grpc_compression_options_is_algorithm_enabled _ a) eqn:Hen.
  - apply Hin; [|now rewrite length_replicate|assumption].
    apply in_seq. lia.
  - rewrite Hout by (intros [_ ?]; congruence).
    now apply lookup_replicate_2.
Qed.

(** C8.  The accept-encoding element that [init_channel_elem] builds has the
    key "grpc-accept-encoding", the key the channel keeps for the
    capabilities, and as value the canonical names of the enabled algorithms
    other than the no-compression sentinel, in the order of the enumeration,
    joined by commas. *)
Theorem accept_encoding_lists_enabled ctx args channeld ctx' :
  init_channel_elem ctx args = Ok (channeld, ctx') ->
  exists names,
    canonical_names (advertised (compression_options channeld)) names
    /\ mdelem_accept_encoding channeld
       = Some {| key := mdstr_compression_capabilities_key channeld;
                 value := gpr_strjoin_sep names "," |}
    /\ mdstr_compression_capabilities_key channeld = "grpc-accept-encoding"%string
    /\ enabled_algorithms_bitset (compression_options channeld)
       = uint32 (compression_algorithm_states args).
Proof.
  intros Hinit.
  destruct (init_channel_elem_inv _ _ _ _ Hinit)
    as (_ & _ & st & ctx0 & _ & _ & Hloop & ->).
  destruct (init_loop_spec _ _ _ _ _ Hloop)
    as (_ & (names & Hnames & Hn) & _ & _).
  cbn [il_names app] in Hn. exists names.
  cbn [compression_options mdelem_accept_encoding
         mdstr_compression_capabilities_key enabled_algorithms_bitset
         options_of].
  rewrite Hn. now repeat split.
Qed.

Lemma init_loop_total opts k idxs st :
  (forall a, In a idxs ->
     grpc_compression_options_is_algorithm_enabled opts a = true ->
     is_Some (grpc_compression_algorithm_name a)) ->
  exists st', for_each idxs (init_channel_loop_body opts k) st = Ok st'.
Proof.
  revert st. induction idxs as [|j idxs IH]; intros st Hnames.
  - now exists st.
  - assert (Hbody : exists st1, init_channel_loop_body opts k j st = Ok st1).
    { unfold init_channel_loop_body.
      destruct (grpc_compression_options_is_algorithm_enabled opts j) eqn:Hj;
        cbn [negb]; [|now eexists].
      destruct (Hnames j (or_introl eq_refl) Hj) as [nm ->]. now eexists. }
    destruct Hbody as [st1 Hbody]. cbn [for_each]. rewrite Hbody.
    cbn [mbind result_bind]. apply IH. intros a Ha. apply Hnames. now right.
Qed.

(** [init_channel_elem] builds the channel data whenever its assertions
    hold: the default is enabled, every enabled algorithm of the enumeration
    has a name, and the filter is not the last of the stack. *)
Lemma init_channel_elem_total ctx args :
  grpc_compression_options_is_algorithm_enabled (options_of args)
    (channel_compression_algorithm args) = true ->
  (forall a, (a < GRPC_COMPRESS_ALGORITHMS_COUNT)%nat ->
     grpc_compression_options_is_algorithm_enabled (options_of args) a = true ->
     is_Some (grpc_compression_algorithm_name a)) ->
  is_last args = false ->
  exists channeld ctx', init_channel_elem ctx args = Ok (channeld, ctx').
Proof.
  intros Hdef Hnames Hlast.
  unfold init_channel_elem, grpc_mdstr_from_string, GRPC_MDSTR_REF,
    grpc_mdelem_from_metadata_strings.
  cbn [enabled_algorithms_bitset].
  change (grpc_compression_options_is_algorithm_enabled
            {| enabled_algorithms_bitset :=
                 uint32 (compression_algorithm_states args);
               opt_default_compression_algorithm := GRPC_COMPRESS_NONE |}
            (channel_compression_algorithm args))
    with (grpc_compression_options_is_algorithm_enabled (options_of args)
            (channel_compression_algorithm args)).
  rewrite Hdef, Hlast.
  cbv beta iota zeta delta [GPR_ASSERT mbind result_bind negb].
  match goal with
  | |- context [for_each ?idxs ?body ?st0] =>
      destruct (init_loop_total (options_of args) "grpc-encoding" idxs st0)
        as [st' Hst']
  end.
  - intros a Ha. apply Hnames. apply in_seq in Ha. lia.
  - unfold options_of in Hst'. rewrite Hst'. eexists. eexists. reflexivity.
Qed.

Lemma destroy_loop_unassigned what (table : list mdelem_slot) idxs a ctx :
  In a idxs -> table !!! a = None ->
  for_each idxs (fun algo_idx c => slot_unref c what (table !!! algo_idx)) ctx
  = Abort (indeterminate_pointer what).
Proof.
  revert ctx. induction idxs as [|j idxs IH]; intros ctx Hin Hnone;
    [destruct Hin|].
  cbn [for_each]. destruct (table !!! j) as [e|] eqn:Hj; [|reflexivity].
  cbn [slot_unref mbind result_bind]. apply IH; [|assumption].
  destruct Hin as [<-|Hin]; [congruence | assumption].
Qed.

(** Teardown after a construction that skipped an algorithm: the loop of
    [destroy_channel_elem] reaches the entry that was never assigned. *)
Lemma destroy_channel_elem_unassigned ctx args channeld ctx' a ctx'' :
  init_channel_elem ctx args = Ok (channeld, ctx') ->
  (a < GRPC_COMPRESS_ALGORITHMS_COUNT)%nat ->
  grpc_compression_options_is_algorithm_enabled (options_of args) a = false ->
  destroy_channel_elem ctx'' channeld
  = Abort (indeterminate_pointer "mdelem_compression_algorithms[algo_idx]").
Proof.
  intros Hinit Ha Hdis.
  pose proof (init_channel_elem_table _ _ _ _ a Hinit Ha) as Hslot.
  rewrite Hdis in Hslot. unfold destroy_channel_elem.
  rewrite (destroy_loop_unassigned _ _ _ a); [reflexivity| |].
  - apply in_seq. lia.
  - now apply list_lookup_total_correct.
Qed.

(** *** The ledger of references *)

Lemma mdctx_add_at h d ctx x :
  mdctx_add h d ctx x = ctx x + d * same_handle x h.
Proof. unfold mdctx_add, same_handle. destruct (decide _); lia. Qed.

Lemma acquired_by_init_cons opts k i idxs x :
  acquired_by_init opts k (i :: idxs) x
  = (if grpc_compression_options_is_algorithm_enabled opts i
     then match grpc_compression_algorithm_name i with
          | Some name => same_handle x (h_mdelem {| key := k; value := name |})
          | None => 0
          end
     else 0) + acquired_by_init opts k idxs x.
Proof. reflexivity. Qed.

Lemma released_by_destroy_cons (table : list mdelem_slot) i idxs x :
  released_by_destroy table (i :: idxs) x
  = match table !!! i with
    | Some e => same_handle x (h_mdelem e)
    | None => 0
    end + released_by_destroy table idxs x.
Proof. reflexivity. Qed.

(** The loop of [init_channel_elem] leaves the key and the names as it found
    them and holds one reference on every element it built. *)
Lemma init_loop_ledger opts k idxs st st' x :
  for_each idxs (init_channel_loop_body opts k) st = Ok st' ->
  il_ctx st' x = il_ctx st x + acquired_by_init opts k idxs x.
Proof.
  revert st. induction idxs as [|j idxs IH]; intros st Hrun.
  - injection Hrun as <-. cbn. lia.
  - cbn [for_each] in Hrun.
    destruct (init_channel_loop_body opts k j st) as [st1|] eqn:Hbody;
      [|discriminate].
    cbn [mbind result_bind] in Hrun. rewrite (IH _ Hrun).
    rewrite acquired_by_init_cons.
    unfold init_channel_loop_body in Hbody.
    destruct (grpc_compression_options_is_algorithm_enabled opts j);
      cbn [negb] in Hbody.
    + destruct (grpc_compression_algorithm_name j) as [nm|]; [|discriminate].
      injection Hbody as <-.
      cbn [il_ctx GRPC_MDSTR_REF grpc_mdstr_from_string
             grpc_mdelem_from_metadata_strings].
      rewrite !mdctx_add_at. lia.
    + injection Hbody as <-. lia.
Qed.

(** On a table whose entries are all assigned the loop of
    [destroy_channel_elem] releases one reference per entry. *)
Lemma destroy_loop_ledger what (table : list mdelem_slot) idxs ctx :
  (forall i, In i idxs -> is_Some (table !!! i)) ->
  exists ctx',
    for_each idxs (fun algo_idx c => slot_unref c what (table !!! algo_idx)) ctx
    = Ok ctx'
    /\ forall x, ctx' x = ctx x - released_by_destroy table idxs x.
Proof.
  revert ctx. induction idxs as [|j idxs IH]; intros ctx Hall.
  - exists ctx. split; [reflexivity|]. intros x. cbn. lia.
  - destruct (Hall j (or_introl eq_refl)) as [e He].
    destruct (IH (GRPC_MDELEM_UNREF ctx e)) as (ctx' & Hrun & Hctx').
    { intros i Hi. apply Hall. now right. }
    exists ctx'. split.
    + cbn [for_each]. rewrite He. exact Hrun.
    + intros x. rewrite Hctx', released_by_destroy_cons, He.
      unfold GRPC_MDELEM_UNREF. rewrite mdctx_add_at. lia.
Qed.

Lemma released_is_acquired opts k (table : list mdelem_slot) idxs x :
  (forall i, In i idxs ->
     grpc_compression_options_is_algorithm_enabled opts i = true
     /\ exists name,
          grpc_compression_algorithm_name i = Some name
          /\ table !! i = Some (Some {| key := k; value := name |})) ->
  released_by_destroy table idxs x = acquired_by_init opts k idxs x.
Proof.
  induction idxs as [|j idxs IH]; intros Hall; [reflexivity|].
  rewrite released_by_destroy_cons, acquired_by_init_cons.
  destruct (Hall j (or_introl eq_refl)) as (Hen & name & Hname & Hslot).
  rewrite Hen, Hname, (list_lookup_total_correct _ _ _ Hslot).
  rewrite IH; [reflexivity|]. intros i Hi. apply Hall. now right.
Qed.

(** With every algorithm of the enumeration enabled, teardown releases what
    construction acquired, each handle once: the ledger of the metadata
    context is back where it was. *)
Lemma teardown_balances_when_all_enabled ctx args channeld ctx' :
  init_channel_elem ctx args = Ok (channeld, ctx') ->
  (forall a, (a < GRPC_COMPRESS_ALGORITHMS_COUNT)%nat ->
     grpc_compression_options_is_algorithm_enabled (options_of args) a = true) ->
  exists ctx'',
    destroy_channel_elem ctx' channeld = Ok ctx''
    /\ forall x, ctx'' x = ctx x.
Proof.
  intros Hinit Hall.
  assert (Htable : forall i, In i (seq 0 GRPC_COMPRESS_ALGORITHMS_COUNT) ->
            grpc_compression_options_is_algorithm_enabled (options_of args) i
            = true
            /\ exists name,
                 grpc_compression_algorithm_name i = Some name
                 /\ mdelem_compression_algorithms channeld !! i
                    = Some (Some {| key := "grpc-encoding"; value := name |})).
  { intros i Hi. apply in_seq in Hi.
    assert (Hlt : (i < GRPC_COMPRESS_ALGORITHMS_COUNT)%nat) by lia.
    pose proof (init_channel_elem_table _ _ _ _ i Hinit Hlt) as Hslot.
    rewrite (Hall i Hlt) in Hslot. split; [now apply Hall | exact Hslot]. }
  destruct (init_channel_elem_inv _ _ _ _ Hinit)
    as (_ & _ & st & ctx0 & Hctx0 & Hctx' & Hloop & Hch).
  pose proof (fun x => init_loop_ledger _ _ _ _ _ x Hloop) as Hledger.
  cbn [il_ctx] in Hledger.
  unfold destroy_channel_elem.
  match goal with
  | |- context [for_each ?idxs ?body ?c0] =>
      destruct (destroy_loop_ledger "mdelem_compression_algorithms[algo_idx]"
                  (mdelem_compression_algorithms channeld) idxs c0)
        as (c & Hrun & Hc)
  end.
  { intros i Hi. destruct (Htable i Hi) as (_ & name & _ & Hslot).
    rewrite (list_lookup_total_correct _ _ _ Hslot). now eexists. }
  rewrite Hrun. cbn [mbind result_bind].
  assert (Hacc : mdelem_accept_encoding channeld
                 = Some {| key := "grpc-accept-encoding";
                           value := gpr_strjoin_sep (il_names st) "," |})
    by now rewrite Hch.
  rewrite Hacc. cbn [slot_unref]. eexists. split; [reflexivity|].
  intros x. unfold GRPC_MDELEM_UNREF. rewrite mdctx_add_at, Hc.
  rewrite (released_is_acquired (options_of args) "grpc-encoding") by exact Htable.
  unfold GRPC_MDSTR_UNREF. rewrite !mdctx_add_at.
  rewrite Hctx', !mdctx_add_at, Hledger, Hctx0, !mdctx_add_at.
  rewrite Hch. cbn [mdstr_request_compression_algorithm_key
                      mdstr_outgoing_compression_algorithm_key
                      mdstr_compression_capabilities_key].
  lia.
Qed.

End ChannelProperties.

Section Negotiation.
Context `{core : grpc_core} {R : Type}.
Implicit Types (w : world R) (op : grpc_transport_stream_op R).

Lemma batch_filter_passes channeld batch w :
  no_request channeld batch ->
  grpc_metadata_batch_filter (compression_md_filter channeld) batch w
  = (w, batch).
Proof.
  induction 1 as [|md batch Hmd _ IH]; [reflexivity|].
  cbn [grpc_metadata_batch_filter]. unfold compression_md_filter at 1.
  destruct (decide _) as [E|_]; [contradiction|]. now rewrite IH.
Qed.

(** The scan of a batch with one request: the request leaves the batch, the
    batch drops its reference, and the call data is what the filter made of
    the request. *)
Lemma batch_filter_one_request channeld pre req post w :
  no_request channeld pre -> no_request channeld post ->
  key req = mdstr_request_compression_algorithm_key channeld ->
  grpc_metadata_batch_filter (compression_md_filter channeld)
    (pre ++ req :: post) w
  = (let w1 := fst (compression_md_filter channeld w req) in
     set_mdctx (GRPC_MDELEM_UNREF (mdctx w1) req) w1,
     pre ++ post).
Proof.
  intros Hpre Hpost Hreq. induction Hpre as [|md pre Hmd _ IH].
  - cbn [app grpc_metadata_batch_filter].
    assert (Hout : snd (compression_md_filter channeld w req) = None).
    { unfold compression_md_filter. now destruct (decide _). }
    destruct (compression_md_filter channeld w req) as [w1 out].
    cbn in Hout. subst out. cbn [fst]. now apply batch_filter_passes.
  - cbn [app grpc_metadata_batch_filter]. unfold compression_md_filter at 1.
    destruct (decide _) as [E|_]; [contradiction|]. now rewrite IH.
Qed.

(** The scan on a request that names no known algorithm, or a known
    algorithm that the channel has not enabled: the filter logs at least one
    message, takes the request out of the batch and returns; the scan of the
    batch goes on and ends with the no-compression sentinel as the algorithm
    of the call.  Nothing else of the call is touched.  What becomes of the
    call is decided after the scan, where [process_send_initial_metadata]
    reads the element of the sentinel. *)
Theorem invalid_request_falls_back channeld pre req post w :
  no_request channeld pre -> no_request channeld post ->
  key req = mdstr_request_compression_algorithm_key channeld ->
  grpc_compression_algorithm_parse (value req) = None
  \/ (exists a,
        grpc_compression_algorithm_parse (value req) = Some a
        /\ grpc_compression_options_is_algorithm_enabled
             (compression_options channeld) a = false) ->
  exists w' msgs,
    grpc_metadata_batch_filter (compression_md_filter channeld)
      (pre ++ req :: post) w = (w', pre ++ post)
    /\ snd (compression_md_filter channeld w req) = None
    /\ compression_algorithm (calld w') = GRPC_COMPRESS_NONE
    /\ has_compression_algorithm (calld w') = true
    /\ msgs <> []
    /\ trace w' = trace w ++ map ev_log msgs
    /\ slices (calld w') = slices (calld w)
    /\ send_op (calld w') = send_op (calld w)
    /\ pending w' = pending w.
Proof.
  intros Hpre Hpost Hreq Hbad.
  rewrite (batch_filter_one_request _ _ _ _ _ Hpre Hpost Hreq).
  unfold compression_md_filter. destruct (decide _) as [_|E]; [|contradiction].
  destruct Hbad as [Hparse|(a & Hparse & Hdis)]; rewrite Hparse.
  - cbn [calld update_calld compression_algorithm set_compression_algorithm].
    destruct (grpc_compression_options_is_algorithm_enabled _ GRPC_COMPRESS_NONE).
    + eexists. eexists [_]. split; [reflexivity|]. cbn.
      repeat split; try reflexivity. discriminate.
    + eexists. eexists [_; _]. split; [reflexivity|]. cbn.
      rewrite <- app_assoc. repeat split; try reflexivity. discriminate.
  - cbn [calld update_calld compression_algorithm set_compression_algorithm].
    rewrite Hdis. eexists. eexists [_]. split; [reflexivity|]. cbn.
    repeat split; try reflexivity. discriminate.
Qed.

(** What [compression_md_filter] makes of a request for an enabled
    algorithm. *)
Lemma compression_md_filter_enabled channeld req a w :
  key req = mdstr_request_compression_algorithm_key channeld ->
  grpc_compression_algorithm_parse (value req) = Some a ->
  grpc_compression_options_is_algorithm_enabled
    (compression_options channeld) a = true ->
  compression_md_filter channeld w req
  = (update_calld (set_has_compression_algorithm true)
       (update_calld (set_compression_algorithm a) w), None).
Proof.
  intros Hreq Hparse Hen. unfold compression_md_filter.
  destruct (decide _) as [_|E]; [|contradiction].
  rewrite Hparse. cbn [calld update_calld compression_algorithm
                         set_compression_algorithm].
  now rewrite Hen.
Qed.

(** C5.  On a channel built by [init_channel_elem], a call whose initial
    metadata holds the request for an enabled algorithm [A] ends the
    negotiation with [A] as its algorithm; the request has left the batch,
    and the batch ends with the channel's precomputed element for [A] and
    its accept-encoding element, each with one more reference counted. *)
Theorem requested_algorithm_is_chosen
    ctx args channeld ctx' A v pre post p w :
  init_channel_elem ctx args = Ok (channeld, ctx') ->
  (A < GRPC_COMPRESS_ALGORITHMS_COUNT)%nat ->
  grpc_compression_options_is_algorithm_enabled
    (compression_options channeld) A = true ->
  grpc_compression_algorithm_parse v = Some A ->
  md_batches w p
  = pre ++ {| key := GRPC_COMPRESS_REQUEST_ALGORITHM_KEY; value := v |} :: post ->
  no_request channeld pre -> no_request channeld post ->
  exists w' name accept,
    process_send_initial_metadata channeld p w = Ok w'
    /\ grpc_compression_algorithm_name A = Some name
    /\ mdelem_compression_algorithms channeld !! A
       = Some (Some (selected_algorithm_elem name))
    /\ mdelem_accept_encoding channeld = Some accept
    /\ key accept = "grpc-accept-encoding"%string
    /\ compression_algorithm (calld w') = A
    /\ has_compression_algorithm (calld w') = true
    /\ md_batches w' p = pre ++ post ++ [selected_algorithm_elem name; accept]
    /\ mdctx w'
       = mdctx_add (h_mdelem accept) 1
           (mdctx_add (h_mdelem (selected_algorithm_elem name)) 1
              (mdctx_add
                 (h_mdelem {| key := GRPC_COMPRESS_REQUEST_ALGORITHM_KEY;
                              value := v |}) (-1) (mdctx w))).
Proof.
  intros Hinit HA Hen Hparse Hbatch Hpre Hpost.
  pose proof (init_channel_elem_table _ _ _ _ A Hinit HA) as Htable.
  destruct (init_channel_elem_inv _ _ _ _ Hinit)
    as (_ & _ & st & ctx0 & _ & _ & Hloop & Hch).
  assert (Hopts : compression_options channeld = options_of args)
    by now rewrite Hch.
  assert (Hkey : mdstr_request_compression_algorithm_key channeld
                 = GRPC_COMPRESS_REQUEST_ALGORITHM_KEY) by now rewrite Hch.
  assert (Hacc : mdelem_accept_encoding channeld
                 = Some {| key := "grpc-accept-encoding";
                           value := gpr_strjoin_sep (il_names st) "," |})
    by now rewrite Hch.
  rewrite <- Hopts, Hen in Htable. destruct Htable as (name & Hname & Hslot).
  clear Hch Hloop.
  eexists. exists name. eexists.
  split; [|split; [exact Hname|split; [exact Hslot|split; [exact Hacc|]]]].
  - unfold process_send_initial_metadata. rewrite Hbatch.
    rewrite (batch_filter_one_request _ _ _ _ _ Hpre Hpost)
      by (symmetry; exact Hkey).
    rewrite (compression_md_filter_enabled _ _ A)
      by (solve [symmetry; exact Hkey | exact Hparse | exact Hen]).
    cbn [fst calld update_calld set_mdctx set_md_batch
           has_compression_algorithm set_has_compression_algorithm
           compression_algorithm set_compression_algorithm negb].
    rewrite (list_lookup_total_correct _ _ _ Hslot).
    cbn [slot_ref mbind result_bind GRPC_MDELEM_REF].
    rewrite Hacc. cbn [slot_ref mbind result_bind GRPC_MDELEM_REF].
    reflexivity.
  - cbn. destruct (decide (p = p)) as [_|E]; [|congruence].
    unfold grpc_metadata_batch_add_tail.
    repeat split; try reflexivity. now rewrite <- !app_assoc.
Qed.

End Negotiation.

(** On the reference instance with the sentinel as channel default, a
    message is passed down untouched. *)
Lemma skipped_exactly_when_witness :
  let channeld := Reference.channeld_all GRPC_COMPRESS_NONE in
  let w :=
    Reference.call_world
      (mk_byte_stream 5 0 [ready Reference.hello]) [] in
  send_message Reference.send_message_op = Some (upstream_stream 5)
  /\ after_metadata (core := Reference.core) channeld
       Reference.send_message_op w = Ok w
  /\ compress_start_transport_stream_op (core := Reference.core) channeld
       Reference.send_message_op w
     = Ok (grpc_call_next_op Reference.send_message_op w).
Proof.
  split; [reflexivity|]. split; [reflexivity|].
  apply (skipped_exactly_when (core := Reference.core)
           (Reference.channeld_all GRPC_COMPRESS_NONE)
           Reference.send_message_op (upstream_stream 5));
    [reflexivity | reflexivity |].
  left. right. split; reflexivity.
Defined.

(** What the reference instance does with the eleven-byte message. *)
Lemma late_message_run :
  send_and_deliver (core := Reference.core) (Reference.channeld_all 2%nat)
    Reference.send_both_op 1 Reference.late_message
  = Ok Reference.late_message_sent.
Proof. vm_compute. reflexivity. Qed.

Lemma late_message_entered :
  ~ (resolved_to_none (Reference.channeld_all 2%nat)
       Reference.late_message_negotiated
     \/ no_compress_requested (core := Reference.core)
          Reference.late_message_negotiated (upstream_stream 5)).
Proof. intros [[[_ H]|[H _]]|H]; try discriminate. apply H. reflexivity. Qed.

(** On the reference instance with gzip as channel default: an eleven-byte
    message whose second chunk arrives late goes down once, as the operation
    that came in but for the stream and the completion. *)
Lemma forwarded_op_is_snapshot_witness :
  next_ops (trace Reference.late_message_sent)
  = [mk_op (Some 9%nat) (Some calld_replacement_stream) calld_send_done tt]
  /\ replacement_stream (calld Reference.late_message_sent)
     = grpc_slice_buffer_stream_init
         (slices (calld Reference.late_message_sent))
         (send_flags (calld Reference.late_message_sent)).
Proof.
  split; [reflexivity|].
  destruct (forwarded_op_is_snapshot (core := Reference.core)
              (Reference.channeld_all 2%nat) Reference.send_both_op 5%nat
              Reference.late_message Reference.late_message_negotiated 1)
    as (w' & evs & Hrun & Ht & Hfwd).
  - reflexivity.
  - reflexivity.
  - reflexivity.
  - exact late_message_entered.
  - rewrite late_message_run in Hrun. injection Hrun as <-.
    cbn [trace Reference.late_message_negotiated app] in Ht. subst evs.
    apply (Hfwd (mk_op (Some 9%nat) (Some calld_replacement_stream)
                   calld_send_done tt)).
    left. reflexivity.
Defined.

(** The same message, completed by the transport with a failure flag: the
    buffer is reset and the caller's closure runs once, with that flag. *)
Lemma completion_fires_once_witness :
  slices (calld (send_done Reference.late_message_sent 0))
  = gpr_slice_buffer_init
  /\ closure_runs (trace (send_done Reference.late_message_sent 0))
     = [(closure_of_caller 7, 0)].
Proof.
  destruct (completion_fires_once (core := Reference.core)
              (Reference.channeld_all 2%nat) Reference.send_both_op 5%nat
              Reference.late_message Reference.late_message_negotiated 1)
    as (w' & evs & Hrun & Ht & _ & Hdone).
  - reflexivity.
  - reflexivity.
  - reflexivity.
  - exact late_message_entered.
  - rewrite late_message_run in Hrun. injection Hrun as <-.
    cbn [trace Reference.late_message_negotiated app] in Ht. subst evs.
    destruct (Hdone (mk_op (Some 9%nat) (Some calld_replacement_stream)
                       calld_send_done tt) 0)
      as (_ & _ & Hs & Htr & Hcr); [left; reflexivity|].
    split; [exact Hs|]. rewrite Htr. exact Hcr.
Defined.


(** C7, as it is written, fails: on the reference instance a zero-length
    message whose stream hands out its one empty chunk is forwarded only
    after the loop body has run. *)
Lemma zero_length_runs_loop_body :
  compress_start_transport_stream_op (core := Reference.core)
    (Reference.channeld_all 2%nat) Reference.send_both_op
    Reference.empty_message
  = Ok Reference.empty_message_sent
  /\ send_length (calld Reference.empty_message_sent) = 0
  /\ trace Reference.empty_message_sent
     = [ev_byte_stream_next true; ev_slice_buffer_add [] 0;
        ev_call_next_op (forwarded_op Reference.send_both_op)]
  /\ loop_turns (trace Reference.empty_message_sent) = 1%nat
  /\ ~ completes_without_a_turn (core := Reference.core)
        (Reference.channeld_all 2%nat) Reference.send_both_op
        Reference.empty_message.
Proof.
  assert (E : compress_start_transport_stream_op (core := Reference.core)
                (Reference.channeld_all 2%nat) Reference.send_both_op
                Reference.empty_message
              = Ok Reference.empty_message_sent)
    by (vm_compute; reflexivity).
  split; [exact E|]. split; [reflexivity|]. split; [reflexivity|].
  split; [reflexivity|].
  intros (w' & evs & Hrun & Ht & Hturns & _).
  rewrite E in Hrun. injection Hrun as <-.
  cbn in Ht. subst evs. discriminate Hturns.
Qed.

(** The zero-length message of the reference instance: one turn of the loop,
    then the operation goes down. *)
Lemma zero_length_message_one_turn_witness :
  exists w' evs,
    compress_start_transport_stream_op (core := Reference.core)
      (Reference.channeld_all 2%nat) Reference.send_both_op
      Reference.empty_message = Ok w'
    /\ trace w' = trace Reference.empty_message_negotiated ++ evs
    /\ evs = [ev_byte_stream_next true; ev_slice_buffer_add [] 0;
              ev_call_next_op (forwarded_op Reference.send_both_op)]
    /\ loop_turns evs = 1%nat
    /\ suspensions evs = 0%nat
    /\ pending w' = pending Reference.empty_message_negotiated.
Proof.
  apply (zero_length_message_one_turn (core := Reference.core)
           (Reference.channeld_all 2%nat) Reference.send_both_op 5%nat
           Reference.empty_message Reference.empty_message_negotiated [] []).
  - reflexivity.
  - reflexivity.
  - intros [[[_ H]|[H _]]|H]; try discriminate. apply H. reflexivity.
  - reflexivity.
  - reflexivity.
  - reflexivity.
  - reflexivity.
Defined.

(** C3, as it is written, fails: on the reference instance a two-byte message
    that arrives with the internal-compression bit in its flags is declined
    by the transform and still goes down with the bit set. *)
Lemma declined_message_keeps_bit :
  compress_start_transport_stream_op (core := Reference.core)
    (Reference.channeld_all 2%nat) Reference.send_both_op
    Reference.flagged_message
  = Ok (finish_send_message (core := Reference.core)
          Reference.flagged_message_collected)
  /\ grpc_msg_compress (grpc_core := Reference.core)
    (compression_algorithm (calld Reference.flagged_message_collected))
    (slices (calld Reference.flagged_message_collected)) = None
  /\ rs_flags (replacement_stream
                 (calld (finish_send_message (core := Reference.core)
                           Reference.flagged_message_collected)))
     = 2147483648
  /\ ~ compressed_bit_iff_success (core := Reference.core)
        Reference.flagged_message_collected.
Proof.
  split; [vm_compute; reflexivity|]. split; [reflexivity|].
  split; [reflexivity|].
  intros [Hset _].
  assert (Hs : is_Some (@None gpr_slice_buffer)) by (apply Hset; reflexivity).
  destruct Hs as [x Hx]. discriminate Hx.
Qed.

(** The reference channel with every algorithm enabled advertises deflate
    and gzip. *)
Lemma accept_encoding_lists_enabled_witness :
  exists ctx' names,
    init_channel_elem (core := Reference.core) Reference.empty_mdctx
      (Reference.args_all 2%nat) = Ok (Reference.channeld_all 2%nat, ctx')
    /\ canonical_names (core := Reference.core) [1%nat; 2%nat] names
    /\ mdelem_accept_encoding (Reference.channeld_all 2%nat)
       = Some {| key := "grpc-accept-encoding";
                 value := gpr_strjoin_sep names "," |}.
Proof.
  assert (Hinit : exists ctx',
             init_channel_elem (core := Reference.core) Reference.empty_mdctx
               (Reference.args_all 2%nat)
             = Ok (Reference.channeld_all 2%nat, ctx'))
    by (eexists; reflexivity).
  destruct Hinit as [ctx' Hinit].
  destruct (accept_encoding_lists_enabled (core := Reference.core) _ _ _ _ Hinit)
    as (names & Hnames & Haccept & _).
  exists ctx', names. split; [exact Hinit|]. split; [exact Hnames|exact Haccept].
Defined.

(** A call on the reference channel that asks for deflate gets deflate, and
    its metadata ends with the two precomputed elements. *)
Lemma requested_algorithm_is_chosen_witness :
  exists w',
    process_send_initial_metadata (core := Reference.core)
      (Reference.channeld_all 2%nat) 9 Reference.deflate_requested = Ok w'
    /\ compression_algorithm (calld w') = 1%nat
    /\ md_batches w' 9%nat
       = [Reference.user_agent;
          {| key := "grpc-encoding"; value := "deflate" |};
          {| key := "grpc-accept-encoding"; value := "deflate,gzip" |}].
Proof.
  assert (Hinit : exists ctx',
             init_channel_elem (core := Reference.core) Reference.empty_mdctx
               (Reference.args_all 2%nat)
             = Ok (Reference.channeld_all 2%nat, ctx'))
    by (eexists; reflexivity).
  destruct Hinit as [ctx' Hinit].
  destruct (requested_algorithm_is_chosen (core := Reference.core) (R := unit)
              _ _ _ _ 1%nat "deflate" [Reference.user_agent] [] 9%nat
              Reference.deflate_requested Hinit)
    as (w' & name & accept & Hrun & Hname & _ & Haccept & _ & Halg & _ & Hb & _).
  - cbn. lia.
  - reflexivity.
  - reflexivity.
  - reflexivity.
  - constructor; [discriminate | constructor].
  - constructor.
  - injection Hname as <-. injection Haccept as <-.
    exists w'. split; [exact Hrun|]. split; [exact Halg | exact Hb].
Defined.

(** A call on the reference channel that asks for an algorithm nobody knows
    falls back to the sentinel. *)
Lemma invalid_request_falls_back_witness :
  exists w' msgs,
    grpc_metadata_batch_filter
      (compression_md_filter (core := Reference.core)
         (Reference.channeld_all 2%nat))
      ([Reference.user_agent] ++ Reference.request_snappy :: [])
      (Reference.call_world Reference.no_stream []) = (w', [Reference.user_agent] ++ [])
    /\ compression_algorithm (calld w') = GRPC_COMPRESS_NONE
    /\ msgs <> []
    /\ trace w' = map ev_log msgs.
Proof.
  destruct (invalid_request_falls_back (core := Reference.core)
              (Reference.channeld_all 2%nat) [Reference.user_agent]
              Reference.request_snappy []
              (Reference.call_world Reference.no_stream []))
    as (w' & msgs & Hrun & _ & Halg & _ & Hmsgs & Ht & _).
  - constructor; [discriminate | constructor].
  - constructor.
  - reflexivity.
  - left. reflexivity.
  - exists w', msgs. split; [exact Hrun|]. split; [exact Halg|].
    split; [exact Hmsgs | exact Ht].
Defined.

(** C9 does not hold of the code.  On the reference instance with gzip
    disabled, construction leaves the gzip entry of the element table
    unassigned, and teardown, whose loop has no test for disabled
    algorithms, passes that entry to GRPC_MDELEM_UNREF all the same. *)
Theorem teardown_unrefs_unassigned_entry :
  exists ctx',
    init_channel_elem (core := Reference.core) Reference.empty_mdctx
      Reference.args_no_gzip = Ok (Reference.channeld_no_gzip, ctx')
    /\ mdelem_compression_algorithms Reference.channeld_no_gzip !! 2%nat
       = Some None
    /\ destroy_channel_elem (core := Reference.core) ctx'
         Reference.channeld_no_gzip
       = Abort (indeterminate_pointer "mdelem_compression_algorithms[algo_idx]").
Proof.
  assert (Hinit : exists ctx',
             init_channel_elem (core := Reference.core) Reference.empty_mdctx
               Reference.args_no_gzip
             = Ok (Reference.channeld_no_gzip, ctx'))
    by (eexists; reflexivity).
  destruct Hinit as [ctx' Hinit].
  exists ctx'. split; [exact Hinit|]. split; [reflexivity|].
  apply (destroy_channel_elem_unassigned (core := Reference.core)
           _ _ _ _ 2%nat _ Hinit); [|reflexivity].
  apply Nat.lt_succ_diag_r.
Qed.

(** * Further properties of the channel data *)

Section Construction.
Context `{core : grpc_core}.

Lemma init_loop_abort opts k idxs st f :
  for_each idxs (init_channel_loop_body opts k) st = Abort f ->
  exists what, f = assertion_failed what.
Proof.
  revert st. induction idxs as [|j idxs IH]; intros st Hrun; [discriminate|].
  cbn [for_each] in Hrun.
  destruct (init_channel_loop_body opts k j st) as [st1|f1] eqn:Hbody.
  - now apply (IH st1).
  - cbn [mbind result_bind] in Hrun. injection Hrun as <-.
    unfold init_channel_loop_body in Hbody.
    destruct (negb _); [discriminate|].
    destruct (grpc_compression_algorithm_name j); [discriminate|].
    injection Hbody as <-. now eexists.
Qed.

Lemma init_channel_elem_abort ctx args f :
  init_channel_elem ctx args = Abort f ->
  exists what, f = assertion_failed what.
Proof.
  unfold init_channel_elem, grpc_mdstr_from_string, GRPC_MDSTR_REF,
    grpc_mdelem_from_metadata_strings.
  destruct (grpc_compression_options_is_algorithm_enabled _
              (channel_compression_algorithm args)).
  - cbv beta iota zeta delta [GPR_ASSERT mbind result_bind].
    destruct (for_each _ _ _) as [st|f1] eqn:Hloop.
    + destruct (is_last args); cbv beta iota zeta delta [negb].
      * intros [= <-]. now eexists.
      * discriminate.
    + intros [= <-]. now apply init_loop_abort in Hloop.
  - cbv beta iota zeta delta [GPR_ASSERT mbind result_bind].
    intros [= <-]. now eexists.
Qed.

(** X1.  [init_channel_elem] builds the channel data exactly when its three
    assertions hold: the default algorithm is enabled, every enabled
    algorithm of the enumeration has a name, and the filter is not the last
    of the stack.  When it does not, it is an assertion that ended it: the
    construction never uses a pointer it has not assigned. *)
Theorem construction_succeeds_exactly_when ctx args :
  ((exists channeld ctx', init_channel_elem ctx args = Ok (channeld, ctx'))
   <-> grpc_compression_options_is_algorithm_enabled (options_of args)
         (channel_compression_algorithm args) = true
       /\ (forall a, (a < GRPC_COMPRESS_ALGORITHMS_COUNT)%nat ->
             grpc_compression_options_is_algorithm_enabled (options_of args) a
             = true ->
             is_Some (grpc_compression_algorithm_name a))
       /\ is_last args = false)
  /\ (forall f, init_channel_elem ctx args = Abort f ->
        exists what, f = assertion_failed what).
Proof.
  split; [split|].
  - intros (channeld & ctx' & Hinit).
    destruct (init_channel_elem_inv _ _ _ _ Hinit) as (Hdef & Hlast & _).
    split; [exact Hdef|]. split; [|exact Hlast].
    intros a Ha Hen.
    pose proof (init_channel_elem_table _ _ _ _ a Hinit Ha) as Hslot.
    rewrite Hen in Hslot. destruct Hslot as (name & Hname & _).
    now exists name.
  - intros (Hdef & Hnames & Hlast). now apply init_channel_elem_total.
  - apply init_channel_elem_abort.
Qed.

Lemma init_channel_elem_table_length ctx args channeld ctx' :
  init_channel_elem ctx args = Ok (channeld, ctx') ->
  length (mdelem_compression_algorithms channeld)
  = GRPC_COMPRESS_ALGORITHMS_COUNT.
Proof.
  intros Hinit.
  destruct (init_channel_elem_inv _ _ _ _ Hinit)
    as (_ & _ & st & ctx0 & _ & _ & Hloop & ->).
  destruct (init_loop_spec _ _ _ _ _ Hloop) as (Hlen & _).
  cbn [il_table mdelem_compression_algorithms] in *.
  now rewrite Hlen, length_replicate.
Qed.

(** X2.  After construction the element table has one entry per algorithm of
    the enumeration; the entry of an enabled algorithm holds the element
    "grpc-encoding: name" for its canonical name, the entry of a disabled
    algorithm is left unassigned; and the channel keeps the bitset and the
    default of its arguments and the three keys. *)
Theorem element_table_after_construction ctx args channeld ctx' :
  init_channel_elem ctx args = Ok (channeld, ctx') ->
  length (mdelem_compression_algorithms channeld)
  = GRPC_COMPRESS_ALGORITHMS_COUNT
  /\ (forall a, (a < GRPC_COMPRESS_ALGORITHMS_COUNT)%nat ->
        if grpc_compression_options_is_algorithm_enabled
             (compression_options channeld) a
        then exists name,
               grpc_compression_algorithm_name a = Some name
               /\ mdelem_compression_algorithms channeld !! a
                  = Some (Some {| key := "grpc-encoding"; value := name |})
        else mdelem_compression_algorithms channeld !! a = Some None)
  /\ compression_options channeld = options_of args
  /\ default_compression_algorithm channeld = channel_compression_algorithm args
  /\ mdstr_request_compression_algorithm_key channeld
     = GRPC_COMPRESS_REQUEST_ALGORITHM_KEY
  /\ mdstr_outgoing_compression_algorithm_key channeld = "grpc-encoding"%string
  /\ mdstr_compression_capabilities_key channeld
     = "grpc-accept-encoding"%string.
Proof.
  intros Hinit.
  split; [now apply (init_channel_elem_table_length ctx args _ ctx')|].
  assert (Hopts : compression_options channeld = options_of args
                  /\ default_compression_algorithm channeld
                     = channel_compression_algorithm args
                  /\ mdstr_request_compression_algorithm_key channeld
                     = GRPC_COMPRESS_REQUEST_ALGORITHM_KEY
                  /\ mdstr_outgoing_compression_algorithm_key channeld
                     = "grpc-encoding"%string
                  /\ mdstr_compression_capabilities_key channeld
                     = "grpc-accept-encoding"%string).
  { destruct (init_channel_elem_inv _ _ _ _ Hinit)
      as (_ & _ & st & ctx0 & _ & _ & _ & ->).
    now repeat split. }
  split; [|exact Hopts].
  intros a Ha. destruct Hopts as (-> & _).
  exact (init_channel_elem_table _ _ _ _ a Hinit Ha).
Qed.

End Construction.

(** * Further properties of the negotiation *)

Section Scan.
Context `{core : grpc_core} {R : Type}.
Implicit Types (w : world R) (op : grpc_transport_stream_op R).

(** What [compression_md_filter] does with one element. *)
Lemma compression_md_filter_step channeld w md :
  let w' := fst (compression_md_filter channeld w md) in
  snd (compression_md_filter channeld w md)
  = (if is_request channeld md then None else Some md)
  /\ compression_algorithm (calld w')
     = (if is_request channeld md
        then resolve_request channeld (value md)
        else compression_algorithm (calld w))
  /\ has_compression_algorithm (calld w')
     = (if is_request channeld md then true
        else has_compression_algorithm (calld w))
  /\ slices (calld w') = slices (calld w)
  /\ send_op (calld w') = send_op (calld w)
  /\ pending w' = pending w
  /\ byte_streams w' = byte_streams w
  /\ md_batches w' = md_batches w
  /\ mdctx w' = mdctx w
  /\ exists msgs,
       trace w' = trace w ++ map ev_log msgs
       /\ (is_request channeld md = false -> msgs = [])
       /\ (forall a, grpc_compression_algorithm_parse (value md) = Some a ->
             grpc_compression_options_is_algorithm_enabled
               (compression_options channeld) a = true -> msgs = []).
Proof.
  unfold compression_md_filter, is_request, resolve_request.
  destruct (decide _) as [E|E].
  - rewrite (bool_decide_eq_true_2 _ E).
    destruct (grpc_compression_algorithm_parse (value md)) as [a|];
      cbn [calld update_calld compression_algorithm set_compression_algorithm
             gpr_log emit].
    + destruct (grpc_compression_options_is_algorithm_enabled _ a) eqn:Hen;
        cbn; repeat split; try reflexivity.
      * exists []. rewrite app_nil_r. repeat split; try reflexivity.
      * eexists [_]. repeat split; try reflexivity; try discriminate.
        intros a' [= <-] Hen'. congruence.
    + destruct (grpc_compression_options_is_algorithm_enabled _
                  GRPC_COMPRESS_NONE);
        cbn; repeat split; try reflexivity.
      * eexists [_]. repeat split; try reflexivity; discriminate.
      * eexists [_; _]. rewrite <- app_assoc.
        repeat split; try reflexivity; discriminate.
  - rewrite (bool_decide_eq_false_2 _ E). cbn. repeat split; try reflexivity.
    exists []. rewrite app_nil_r. repeat split; reflexivity.
Qed.

Lemma dropped_with_requests_cons channeld md rest x :
  dropped_with_requests channeld (md :: rest) x
  = (if is_request channeld md
     then (if decide (x = h_mdelem md) then 1 else 0) else 0)
    + dropped_with_requests channeld rest x.
Proof. reflexivity. Qed.

(** What the scan of a whole batch leaves: the other headers in their order,
    the algorithm of the last request, the references of the requests
    dropped, and log messages only. *)
Lemma batch_filter_scan channeld batch w :
  let w' := fst (grpc_metadata_batch_filter (compression_md_filter channeld)
                   batch w) in
  snd (grpc_metadata_batch_filter (compression_md_filter channeld) batch w)
  = other_headers channeld batch
  /\ compression_algorithm (calld w')
     = match last_request channeld batch with
       | Some r => resolve_request channeld (value r)
       | None => compression_algorithm (calld w)
       end
  /\ has_compression_algorithm (calld w')
     = match last_request channeld batch with
       | Some _ => true
       | None => has_compression_algorithm (calld w)
       end
  /\ slices (calld w') = slices (calld w)
  /\ send_op (calld w') = send_op (calld w)
  /\ pending w' = pending w
  /\ byte_streams w' = byte_streams w
  /\ md_batches w' = md_batches w
  /\ (forall x, mdctx w' x = mdctx w x - dropped_with_requests channeld batch x)
  /\ exists msgs, trace w' = trace w ++ map ev_log msgs.
Proof.
  revert w. induction batch as [|md rest IH]; intros w.
  - cbn. repeat split; try reflexivity; try (intros; lia).
    exists []. now rewrite app_nil_r.
  - cbn [grpc_metadata_batch_filter].
    pose proof (compression_md_filter_step channeld w md) as Hstep.
    destruct (compression_md_filter channeld w md) as [w1 out].
    cbn [fst snd] in Hstep.
    destruct Hstep as (Hout & Ha & Hh & Hs & Hop & Hp & Hbs & Hmb & Hctx
                       & msgs1 & Ht1 & _).
    cbn [other_headers List.filter last_request].
    fold (other_headers channeld rest).
    destruct (is_request channeld md) eqn:Hreq; subst out; cbn [negb].
    + specialize (IH (set_mdctx (GRPC_MDELEM_UNREF (mdctx w1) md) w1)).
      cbn zeta in IH.
      destruct (grpc_metadata_batch_filter _ rest _) as [w2 kept].
      cbn [fst snd] in *.
      destruct IH as (Hk & Ha2 & Hh2 & Hs2 & Hop2 & Hp2 & Hbs2 & Hmb2 & Hctx2
                      & msgs2 & Ht2).
      cbn [calld set_mdctx pending byte_streams md_batches mdctx trace] in *.
      split; [exact Hk|].
      split; [rewrite Ha2; destruct (last_request channeld rest);
              [reflexivity | exact Ha]|].
      split; [rewrite Hh2; destruct (last_request channeld rest);
              [reflexivity | exact Hh]|].
      split; [congruence|]. split; [congruence|]. split; [congruence|].
      split; [congruence|]. split; [congruence|]. split.
      * intros x. rewrite Hctx2, dropped_with_requests_cons, Hreq.
        unfold GRPC_MDELEM_UNREF, mdctx_add.
        rewrite Hctx. destruct (decide (x = h_mdelem md)); lia.
      * exists (msgs1 ++ msgs2). rewrite Ht2, Ht1, map_app.
        now rewrite <- app_assoc.
    + specialize (IH w1). cbn zeta in IH.
      destruct (grpc_metadata_batch_filter _ rest w1) as [w2 kept].
      cbn [fst snd] in *.
      destruct IH as (Hk & Ha2 & Hh2 & Hs2 & Hop2 & Hp2 & Hbs2 & Hmb2 & Hctx2
                      & msgs2 & Ht2).
      split; [now rewrite Hk|].
      split; [rewrite Ha2; destruct (last_request channeld rest);
              [reflexivity | exact Ha]|].
      split; [rewrite Hh2; destruct (last_request channeld rest);
              [reflexivity | exact Hh]|].
      split; [congruence|]. split; [congruence|]. split; [congruence|].
      split; [congruence|]. split; [congruence|]. split.
      * intros x. rewrite Hctx2, Hctx, dropped_with_requests_cons, Hreq. lia.
      * exists (msgs1 ++ msgs2). rewrite Ht2, Ht1, map_app.
        now rewrite <- app_assoc.
Qed.

End Scan.

Section NegotiationOutcome.
Context `{core : grpc_core} {R : Type}.
Implicit Types (w : world R) (op : grpc_transport_stream_op R).

Lemma other_headers_no_request channeld batch :
  no_request channeld batch -> other_headers channeld batch = batch.
Proof.
  induction 1 as [|md batch Hmd _ IH]; [reflexivity|].
  cbn [other_headers List.filter]. unfold is_request at 1.
  rewrite (bool_decide_eq_false_2 _ Hmd). cbn [negb].
  fold (other_headers channeld batch). now rewrite IH.
Qed.

Lemma last_request_no_request channeld batch :
  no_request channeld batch -> last_request channeld batch = None.
Proof.
  induction 1 as [|md batch Hmd _ IH]; [reflexivity|].
  cbn [last_request]. rewrite IH. unfold is_request.
  now rewrite (bool_decide_eq_false_2 _ Hmd).
Qed.

Lemma last_request_app channeld pre req post :
  is_request channeld req = true ->
  no_request channeld post ->
  last_request channeld (pre ++ req :: post) = Some req.
Proof.
  intros Hreq Hpost. induction pre as [|md pre IH].
  - cbn [app last_request].
    now rewrite (last_request_no_request _ _ Hpost), Hreq.
  - cbn [app last_request]. now rewrite IH.
Qed.

Lemma other_headers_app channeld l1 l2 :
  other_headers channeld (l1 ++ l2)
  = other_headers channeld l1 ++ other_headers channeld l2.
Proof. unfold other_headers. apply List.filter_app. Qed.

(** The negotiation goes through when the entry of the negotiated algorithm
    and the accept-encoding element are assigned. *)
Lemma process_outcome channeld p w e1 e2 :
  mdelem_compression_algorithms channeld
    !! negotiated channeld (md_batches w p) w = Some (Some e1) ->
  mdelem_accept_encoding channeld = Some e2 ->
  exists w',
    process_send_initial_metadata channeld p w = Ok w'
    /\ compression_algorithm (calld w') = negotiated channeld (md_batches w p) w
    /\ has_compression_algorithm (calld w') = true
    /\ md_batches w' p = other_headers channeld (md_batches w p) ++ [e1; e2]
    /\ (forall q, q <> p -> md_batches w' q = md_batches w q)
    /\ slices (calld w') = slices (calld w)
    /\ send_op (calld w') = send_op (calld w)
    /\ pending w' = pending w
    /\ byte_streams w' = byte_streams w
    /\ (forall x,
          mdctx w' x
          = mdctx w x - dropped_with_requests channeld (md_batches w p) x
            + same_handle x (h_mdelem e1) + same_handle x (h_mdelem e2))
    /\ exists msgs, trace w' = trace w ++ map ev_log msgs.
Proof.
  intros Hslot Hacc. unfold process_send_initial_metadata.
  pose proof (batch_filter_scan channeld (md_batches w p) w) as Hscan.
  destruct (grpc_metadata_batch_filter _ (md_batches w p) w) as [w1 kept].
  cbn [fst snd] in Hscan.
  destruct Hscan as (Hk & Ha & Hh & Hs & Hop & Hp & Hbs & Hmb & Hctx
                     & msgs & Ht).
  unfold negotiated in Hslot |- *.
  assert (Halg :
            compression_algorithm
              (calld (if negb (has_compression_algorithm
                                 (calld (set_md_batch p kept w1)))
                      then update_calld (set_has_compression_algorithm true)
                             (update_calld
                                (set_compression_algorithm
                                   (default_compression_algorithm channeld))
                                (set_md_batch p kept w1))
                      else set_md_batch p kept w1))
            = match last_request channeld (md_batches w p) with
              | Some r => resolve_request channeld (value r)
              | None =>
                  if has_compression_algorithm (calld w)
                  then compression_algorithm (calld w)
                  else default_compression_algorithm channeld
              end).
  { cbn [calld set_md_batch]. rewrite Hh.
    destruct (last_request channeld (md_batches w p)); cbn [negb].
    - exact Ha.
    - destruct (has_compression_algorithm (calld w)); cbn [negb];
        [exact Ha | reflexivity]. }
  set (w3 := if negb (has_compression_algorithm
                        (calld (set_md_batch p kept w1)))
             then _ else _) in *.
  assert (Hw3 : has_compression_algorithm (calld w3) = true
                /\ slices (calld w3) = slices (calld w1)
                /\ send_op (calld w3) = send_op (calld w1)
                /\ pending w3 = pending w1
                /\ byte_streams w3 = byte_streams w1
                /\ mdctx w3 = mdctx w1
                /\ trace w3 = trace w1
                /\ md_batches w3 p = kept
                /\ forall q, q <> p -> md_batches w3 q = md_batches w1 q).
  { subst w3. cbn [calld set_md_batch].
    assert (Hpp : forall (X : Type) (a b : X),
               (if decide (p = p) then a else b) = a).
    { intros X a b. destruct (decide (p = p)); [reflexivity | congruence]. }
    assert (Hqp : forall (X : Type) (a b : X) q, q <> p ->
               (if decide (q = p) then a else b) = b).
    { intros X a b q Hq.
      destruct (decide (q = p)); [contradiction | reflexivity]. }
    destruct (has_compression_algorithm (calld w1)) eqn:Hhas; cbn [negb];
      cbn; rewrite ?Hhas, Hpp;
      (do 8 (split; [reflexivity|])); intros q Hq; now rewrite Hqp. }
  destruct Hw3 as (Hh3 & Hs3 & Hop3 & Hp3 & Hbs3 & Hctx3 & Ht3 & Hb3 & Hq3).
  rewrite Halg, (list_lookup_total_correct _ _ _ Hslot).
  cbn [slot_ref mbind result_bind GRPC_MDELEM_REF].
  rewrite Hacc. cbn [slot_ref mbind result_bind GRPC_MDELEM_REF].
  eexists. split; [reflexivity|].
  cbn [calld update_calld set_md_batch set_mdctx compression_algorithm
         has_compression_algorithm set_accept_encoding_storage
         set_compression_algorithm_storage slices send_op pending
         byte_streams md_batches mdctx trace].
  split; [exact Halg|]. split; [exact Hh3|]. split.
  { destruct (decide (p = p)) as [_|E]; [|congruence].
    unfold grpc_metadata_batch_add_tail.
    destruct (decide (p = p)) as [_|E]; [|congruence].
    rewrite Hb3, Hk. now rewrite <- app_assoc. }
  split.
  { intros q Hq. destruct (decide (q = p)); [contradiction|].
    rewrite (Hq3 q Hq). now rewrite Hmb. }
  split; [congruence|]. split; [congruence|]. split; [congruence|].
  split; [congruence|]. split.
  { intros x. rewrite !mdctx_add_at, Hctx3, Hctx. lia. }
  exists msgs. now rewrite Ht3.
Qed.

(** The negotiation aborts on the entry of the negotiated algorithm when
    that entry was never assigned. *)
Lemma process_unassigned channeld p w :
  mdelem_compression_algorithms channeld
    !!! negotiated channeld (md_batches w p) w = None ->
  process_send_initial_metadata channeld p w
  = Abort (indeterminate_pointer
             "mdelem_compression_algorithms[calld->compression_algorithm]").
Proof.
  intros Hslot. unfold process_send_initial_metadata.
  pose proof (batch_filter_scan channeld (md_batches w p) w) as Hscan.
  destruct (grpc_metadata_batch_filter _ (md_batches w p) w) as [w1 kept].
  cbn [fst snd] in Hscan. destruct Hscan as (_ & Ha & Hh & _).
  unfold negotiated in Hslot.
  cbn [calld set_md_batch]. rewrite Hh.
  destruct (last_request channeld (md_batches w p)); cbn [negb].
  - cbn [calld set_md_batch]. rewrite Ha, Hslot. reflexivity.
  - destruct (has_compression_algorithm (calld w)); cbn [negb].
    + cbn [calld set_md_batch]. rewrite Ha, Hslot. reflexivity.
    + cbn [calld update_calld set_md_batch compression_algorithm
             set_has_compression_algorithm set_compression_algorithm].
      rewrite Hslot. reflexivity.
Qed.

(** A batch without a request goes through the negotiation without a log
    line. *)
Lemma process_no_request_trace channeld p w w' :
  no_request channeld (md_batches w p) ->
  process_send_initial_metadata channeld p w = Ok w' ->
  trace w' = trace w.
Proof.
  intros Hnone. unfold process_send_initial_metadata.
  rewrite (batch_filter_passes _ _ _ Hnone).
  cbn [calld set_md_batch].
  destruct (has_compression_algorithm (calld w)); cbn [negb];
    destruct (_ !!! _) as [e1|]; cbn; try discriminate;
    destruct (mdelem_accept_encoding channeld) as [e2|]; cbn;
    try discriminate; intros [= <-]; reflexivity.
Qed.

(** The negotiation logs what its scan logs, and nothing more. *)
Lemma process_send_initial_metadata_trace channeld p w w' :
  process_send_initial_metadata channeld p w = Ok w' ->
  trace w'
  = trace (fst (grpc_metadata_batch_filter (compression_md_filter channeld)
                  (md_batches w p) w)).
Proof.
  unfold process_send_initial_metadata.
  destruct (grpc_metadata_batch_filter _ (md_batches w p) w) as [w1 kept].
  cbn [fst calld set_md_batch].
  destruct (has_compression_algorithm (calld w1)); cbn [negb];
    destruct (_ !!! _) as [e1|]; cbn; try discriminate;
    destruct (mdelem_accept_encoding channeld) as [e2|]; cbn;
    try discriminate; intros [= <-]; reflexivity.
Qed.

End NegotiationOutcome.

Section NegotiationProperties.
Context `{core : grpc_core} {R : Type}.
Implicit Types (w : world R) (op : grpc_transport_stream_op R).

(** X3.  On a channel built by [init_channel_elem], the negotiation over any
    batch ends with the algorithm that the last request stands for (the
    call's own or the channel default when there is none).  When that
    algorithm is of the enumeration and enabled, the batch keeps its other
    headers in their order, loses every request, one reference each, and
    ends with the precomputed element of the algorithm and the
    accept-encoding element, one more reference each; the buffer, the byte
    streams, the other batches and a pending request are as before, and the
    trace has grown by log lines only.  In every other case the element
    that the negotiation reads was never assigned. *)
Theorem negotiation_outcome ctx args channeld ctx' p w :
  init_channel_elem ctx args = Ok (channeld, ctx') ->
  ((negotiated channeld (md_batches w p) w
    < GRPC_COMPRESS_ALGORITHMS_COUNT)%nat
   /\ grpc_compression_options_is_algorithm_enabled
        (compression_options channeld)
        (negotiated channeld (md_batches w p) w) = true ->
   exists w' name accept,
     process_send_initial_metadata channeld p w = Ok w'
     /\ grpc_compression_algorithm_name
          (negotiated channeld (md_batches w p) w) = Some name
     /\ mdelem_accept_encoding channeld = Some accept
     /\ compression_algorithm (calld w')
        = negotiated channeld (md_batches w p) w
     /\ has_compression_algorithm (calld w') = true
     /\ md_batches w' p
        = other_headers channeld (md_batches w p)
          ++ [selected_algorithm_elem name; accept]
     /\ (forall q, q <> p -> md_batches w' q = md_batches w q)
     /\ slices (calld w') = slices (calld w)
     /\ send_op (calld w') = send_op (calld w)
     /\ pending w' = pending w
     /\ byte_streams w' = byte_streams w
     /\ (forall x,
           mdctx w' x
           = mdctx w x - dropped_with_requests channeld (md_batches w p) x
             + same_handle x (h_mdelem (selected_algorithm_elem name))
             + same_handle x (h_mdelem accept))
     /\ exists msgs, trace w' = trace w ++ map ev_log msgs)
  /\ (~ ((negotiated channeld (md_batches w p) w
          < GRPC_COMPRESS_ALGORITHMS_COUNT)%nat
         /\ grpc_compression_options_is_algorithm_enabled
              (compression_options channeld)
              (negotiated channeld (md_batches w p) w) = true) ->
      process_send_initial_metadata channeld p w
      = Abort (indeterminate_pointer
                 "mdelem_compression_algorithms[calld->compression_algorithm]")).
Proof.
  intros Hinit.
  set (a := negotiated channeld (md_batches w p) w).
  destruct (init_channel_elem_inv _ _ _ _ Hinit)
    as (_ & _ & st & ctx0 & _ & _ & _ & Hch).
  assert (Hopts : compression_options channeld = options_of args)
    by now rewrite Hch.
  assert (Hacc : mdelem_accept_encoding channeld
                 = Some {| key := "grpc-accept-encoding";
                           value := gpr_strjoin_sep (il_names st) "," |})
    by now rewrite Hch.
  clear Hch. split.
  - intros [Ha Hen].
    pose proof (init_channel_elem_table _ _ _ _ a Hinit Ha) as Hslot.
    rewrite <- Hopts, Hen in Hslot. destruct Hslot as (name & Hname & Hslot).
    destruct (process_outcome channeld p w _ _ Hslot Hacc)
      as (w' & Hrun & Halg & Hhas & Hb & Hq & Hs & Hop & Hp & Hbs & Hctx & Ht).
    exists w', name. eexists. fold a in Halg.
    split; [exact Hrun|]. split; [exact Hname|]. split; [exact Hacc|].
    split; [exact Halg|]. split; [exact Hhas|]. split; [exact Hb|].
    split; [exact Hq|]. split; [exact Hs|]. split; [exact Hop|].
    split; [exact Hp|]. split; [exact Hbs|]. split; [exact Hctx | exact Ht].
  - intros Hnot. apply process_unassigned. fold a.
    destruct (decide (a < GRPC_COMPRESS_ALGORITHMS_COUNT)%nat) as [Ha|Ha].
    + pose proof (init_channel_elem_table _ _ _ _ a Hinit Ha) as Hslot.
      rewrite <- Hopts in Hslot.
      destruct (grpc_compression_options_is_algorithm_enabled _ a) eqn:Hen.
      * exfalso. apply Hnot. now split.
      * now apply list_lookup_total_correct.
    + pose proof (init_channel_elem_table_length _ _ _ _ Hinit) as Hlen.
      rewrite list_lookup_total_alt, (proj2 (lookup_ge_None _ _)); [reflexivity|].
      rewrite Hlen. lia.
Qed.

(** X4.  A call that has no algorithm yet and whose initial metadata
    carries no request is given the default of the channel: on a channel
    built by [init_channel_elem] whose default is of the enumeration, the
    batch keeps every element and ends with the element of the default and
    the accept-encoding element, and nothing is logged. *)
Theorem default_algorithm_is_chosen ctx args channeld ctx' p w :
  init_channel_elem ctx args = Ok (channeld, ctx') ->
  (channel_compression_algorithm args < GRPC_COMPRESS_ALGORITHMS_COUNT)%nat ->
  has_compression_algorithm (calld w) = false ->
  no_request channeld (md_batches w p) ->
  exists w' name accept,
    process_send_initial_metadata channeld p w = Ok w'
    /\ grpc_compression_algorithm_name (channel_compression_algorithm args)
       = Some name
    /\ mdelem_accept_encoding channeld = Some accept
    /\ compression_algorithm (calld w') = channel_compression_algorithm args
    /\ has_compression_algorithm (calld w') = true
    /\ md_batches w' p
       = md_batches w p ++ [selected_algorithm_elem name; accept]
    /\ trace w' = trace w.
Proof.
  intros Hinit Hlt Hhas Hnone.
  destruct (init_channel_elem_inv _ _ _ _ Hinit)
    as (Hdef & _ & st & ctx0 & _ & _ & _ & Hch).
  assert (Hd : default_compression_algorithm channeld
               = channel_compression_algorithm args) by now rewrite Hch.
  assert (Hacc : mdelem_accept_encoding channeld
                 = Some {| key := "grpc-accept-encoding";
                           value := gpr_strjoin_sep (il_names st) "," |})
    by now rewrite Hch.
  clear Hch.
  pose proof (init_channel_elem_table _ _ _ _ _ Hinit Hlt) as Hslot.
  rewrite Hdef in Hslot. destruct Hslot as (name & Hname & Hslot).
  assert (Hneg : negotiated channeld (md_batches w p) w
                 = channel_compression_algorithm args).
  { unfold negotiated.
    now rewrite (last_request_no_request _ _ Hnone), Hhas. }
  rewrite <- Hneg in Hslot.
  destruct (process_outcome channeld p w _ _ Hslot Hacc)
    as (w' & Hrun & Halg & Hh & Hb & _).
  exists w', name. eexists.
  split; [exact Hrun|]. split; [exact Hname|]. split; [exact Hacc|].
  split; [now rewrite Halg|]. split; [exact Hh|]. split.
  - now rewrite Hb, (other_headers_no_request _ _ Hnone).
  - now apply (process_no_request_trace channeld p).
Qed.

(** X5.  Of several requests in one batch the last one decides: whatever
    comes before it, the scan ends with the algorithm that the last request
    stands for, the one it names when that is known and enabled and the
    no-compression sentinel otherwise, and the batch is left with its other
    headers in their order. *)
Theorem last_request_wins channeld pre req post w :
  key req = mdstr_request_compression_algorithm_key channeld ->
  no_request channeld post ->
  exists w',
    grpc_metadata_batch_filter (compression_md_filter channeld)
      (pre ++ req :: post) w
    = (w', other_headers channeld pre ++ post)
    /\ compression_algorithm (calld w')
       = resolve_request channeld (value req)
    /\ has_compression_algorithm (calld w') = true.
Proof.
  intros Hkey Hpost.
  assert (Hreq : is_request channeld req = true)
    by (unfold is_request; now apply bool_decide_eq_true_2).
  pose proof (batch_filter_scan channeld (pre ++ req :: post) w) as Hscan.
  destruct (grpc_metadata_batch_filter _ (pre ++ req :: post) w)
    as [w' kept].
  cbn [fst snd] in Hscan. destruct Hscan as (Hk & Ha & Hh & _).
  rewrite (last_request_app _ _ _ _ Hreq Hpost) in Ha, Hh.
  exists w'. split; [|split; assumption].
  rewrite Hk, other_headers_app. f_equal. f_equal.
  cbn [other_headers List.filter]. rewrite Hreq. cbn [negb].
  now apply other_headers_no_request.
Qed.

End NegotiationProperties.

(** * Further properties of the drain *)

Section DrainContents.
Context `{core : grpc_core} {R : Type}.
Implicit Types (w : world R) (op : grpc_transport_stream_op R).

Lemma slices_size_snoc l s :
  slices_size (l ++ [s]) = slices_size l + GPR_SLICE_LENGTH s.
Proof.
  induction l as [|x l IH]; cbn [app slices_size fold_right].
  - lia.
  - fold (slices_size (l ++ [s])). fold (slices_size l). lia.
Qed.

Lemma same_negotiation_finish w1 w :
  same_negotiation w1 w -> same_negotiation w1 (finish_send_message w).
Proof.
  unfold same_negotiation, finish_send_message.
  destruct (grpc_msg_compress _ _); cbn; tauto.
Qed.

(** The run of the drain from a call that has no request pending: at every
    return the machine is collecting, or the message has gone down. *)
Lemma drain_collects a op w1 n :
  send_message op = Some (upstream_stream a) ->
  send_op (calld w1) = op ->
  pending w1 = None ->
  exists w',
    (w0 ← continue_send_message w1; deliver_all n w0) = Ok w'
    /\ (collecting a
          (sb_slices (slices (calld w1))
           ++ map delivered (deliveries (byte_streams w1 a))) op w1 w'
        \/ collected
             (sb_slices (slices (calld w1))
              ++ map delivered (deliveries (byte_streams w1 a))) op w1 w').
Proof.
  intros Hs Hop Hp.
  set (all := sb_slices (slices (calld w1))
              ++ map delivered (deliveries (byte_streams w1 a))).
  pose (P := fun w => pending w = None /\ collecting a all op w1 w).
  apply (drain_rule a P (collecting a all op w1) P (collected all op w1)).
  - intros w (_ & Hw & _). now rewrite Hw.
  - intros w s rest (Hpw & Ho & HL & _ & Hall & Hsz & Hn) Hd. split; [exact Hpw|].
    unfold chunks_to_come in Hall. rewrite Hpw, Hd in Hall.
    cbn [app map delivered] in Hall.
    split; [exact Ho|]. split; [exact HL|]. split.
    { intros cl s' E. cbn in E. congruence. }
    split.
    { unfold chunks_to_come. cbn [take_ready slice_buffer_add emit
        update_calld calld set_slices slices gpr_slice_buffer_add sb_slices
        pending stream_advance set_byte_stream byte_streams].
      rewrite Hpw. destruct (decide (a = a)) as [_|E]; [|congruence].
      cbn [deliveries app]. now rewrite <- app_assoc. }
    split; [|exact Hn].
    cbn [take_ready slice_buffer_add emit update_calld calld set_slices
           slices gpr_slice_buffer_add sb_slices sb_length].
    cbn [stream_advance set_byte_stream calld set_incoming_slice slices].
    rewrite slices_size_snoc. lia.
  - intros w s rest (Hpw & Ho & HL & _ & Hall & Hsz & Hn) Hd.
    unfold chunks_to_come in Hall. rewrite Hpw, Hd in Hall.
    cbn [app map delivered] in Hall.
    split; [exact Ho|]. split; [exact HL|]. split.
    { intros cl s' E. cbn in E. congruence. }
    split; [|split; [exact Hsz | exact Hn]].
    unfold chunks_to_come. cbn [suspend emit set_pending pending calld
      stream_advance set_byte_stream byte_streams].
    destruct (decide (a = a)) as [_|E]; [|congruence]. exact Hall.
  - intros w (Hpw & Ho & HL & Hcl & Hall & Hsz & Hn) Hd.
    split; [exact Ho|]. split; [exact HL|]. split; [exact Hcl|].
    split; [exact Hall|]. split; [exact Hsz | exact Hn].
  - intros w cl s (Ho & HL & Hcl & Hall & Hsz & Hn) Hpend.
    split; [now apply (Hcl cl s)|]. split; [reflexivity|].
    unfold chunks_to_come in Hall. rewrite Hpend in Hall.
    split; [exact Ho|]. split; [exact HL|]. split.
    { intros cl' s' E. cbn in E. discriminate. }
    split.
    { unfold chunks_to_come. cbn [resume slice_buffer_add emit update_calld
        calld set_slices slices gpr_slice_buffer_add sb_slices pending
        set_pending byte_streams set_incoming_slice].
      rewrite <- app_assoc. exact Hall. }
    split; [|exact Hn].
    cbn [resume slice_buffer_add emit update_calld calld set_slices slices
           gpr_slice_buffer_add sb_slices sb_length set_pending
           set_incoming_slice].
    rewrite slices_size_snoc. lia.
  - intros w Hw _. exact Hw.
  - intros w (Hpw & Ho & HL & _ & Hall & Hsz & Hn) Hdone.
    exists w, (chunks_to_come a w).
    split; [reflexivity|]. split; [exact Hpw|]. split; [exact Ho|].
    split; [exact Hall|]. split.
    { unfold all_bytes_collected in Hdone. apply Z.eqb_eq in Hdone. lia. }
    split; [exact Hsz | exact Hn].
  - intros w (w0 & rest & -> & Hpw & _).
    now rewrite finish_send_message_pending.
  - split; [exact Hp|]. split; [exact Hop|]. split; [reflexivity|]. split.
    { intros cl s E. rewrite Hp in E. discriminate. }
    split.
    { unfold chunks_to_come. now rewrite Hp. }
    split; [reflexivity|]. now repeat split.
Qed.

End DrainContents.

Section DrainProperties.
Context `{core : grpc_core} {R : Type}.
Implicit Types (w : world R) (op : grpc_transport_stream_op R).

(** X6.  The drain neither loses, repeats nor reorders a chunk.  For a
    message that enters the drain with the buffer empty, at every return
    the buffer followed by the chunks the stream still owes is the sequence
    of chunks the stream had to give; and when the message has gone down,
    the transform was given a first part of that sequence that counts the
    declared length, and the call holds the output of the transform, or
    that buffer when the transform declined, with the replacement stream
    declaring its length. *)
Theorem chunks_collected_in_order channeld op a w w1 n :
  send_message op = Some (upstream_stream a) ->
  after_metadata channeld op w = Ok w1 ->
  pending w1 = None ->
  ~ (resolved_to_none channeld w1
     \/ no_compress_requested w1 (upstream_stream a)) ->
  slices (calld w1) = gpr_slice_buffer_init ->
  exists w',
    send_and_deliver channeld op n w = Ok w'
    /\ ((send_op (calld w') = op
         /\ sb_slices (slices (calld w')) ++ chunks_to_come a w'
            = map delivered (deliveries (byte_streams w1 a))
         /\ sb_length (slices (calld w'))
            = slices_size (sb_slices (slices (calld w'))))
        \/ (exists buf rest,
              sb_slices buf ++ rest
              = map delivered (deliveries (byte_streams w1 a))
              /\ sb_length buf = bs_length (byte_streams w1 a)
              /\ slices_size (sb_slices buf) = bs_length (byte_streams w1 a)
              /\ send_op (calld w') = forwarded_op op
              /\ slices (calld w')
                 = match grpc_msg_compress (compression_algorithm (calld w1))
                           buf with
                   | Some out => out
                   | None => buf
                   end
              /\ rs_length (replacement_stream (calld w'))
                 = sb_length (slices (calld w')))).
Proof.
  intros Hs Hm Hp Hc Hempty. unfold send_and_deliver.
  rewrite (compress_start_entered _ _ _ _ _ Hs Hm Hc).
  destruct (drain_collects a op (enter_drain op (upstream_stream a) w1) n
              Hs eq_refl Hp) as (w' & Hrun & Hout).
  exists w'. split; [exact Hrun|].
  cbn [enter_drain update_calld calld slices set_send_op set_send_length
         set_send_flags byte_streams] in Hout.
  rewrite Hempty in Hout. cbn [sb_slices gpr_slice_buffer_init app] in Hout.
  destruct Hout as [(Ho & _ & _ & Hall & Hsz & _)
                   |(w0 & rest & -> & _ & Ho & Hall & HL & Hsz & Hn & _)].
  - left. split; [exact Ho|]. split; [exact Hall|].
    cbn in Hsz. rewrite Hempty in Hsz. cbn in Hsz. lia.
  - right. exists (slices (calld w0)), rest.
    cbn in HL, Hsz, Hn. rewrite Hempty in Hsz. cbn in Hsz.
    split; [exact Hall|]. split; [exact HL|]. split; [lia|].
    rewrite <- Hn. unfold finish_send_message, forwarded_op.
    destruct (grpc_msg_compress _ _); cbn; rewrite Ho; now repeat split.
Qed.

(** X9.  The drain leaves the negotiation alone: however far the message
    has come, collected, waiting for the stream or gone down, the call has
    the algorithm it entered the drain with, the two elements that the
    negotiation added, and the batches and the ledger of references as they
    were. *)
Theorem drain_leaves_negotiation_alone channeld op a w w1 n :
  send_message op = Some (upstream_stream a) ->
  after_metadata channeld op w = Ok w1 ->
  pending w1 = None ->
  ~ (resolved_to_none channeld w1
     \/ no_compress_requested w1 (upstream_stream a)) ->
  exists w',
    send_and_deliver channeld op n w = Ok w'
    /\ same_negotiation w1 w'.
Proof.
  intros Hs Hm Hp Hc. unfold send_and_deliver.
  rewrite (compress_start_entered _ _ _ _ _ Hs Hm Hc).
  destruct (drain_collects a op (enter_drain op (upstream_stream a) w1) n
              Hs eq_refl Hp) as (w' & Hrun & Hout).
  exists w'. split; [exact Hrun|].
  destruct Hout as [(_ & _ & _ & _ & _ & Hn)
                   |(w0 & rest & -> & _ & _ & _ & _ & _ & Hn)].
  - exact Hn.
  - now apply same_negotiation_finish in Hn.
Qed.

(** X12.  A call fresh from [init_call_elem] has no algorithm of its own
    and an empty buffer.  A message sent on it without initial metadata is
    handed down as it came exactly when the channel default is the
    no-compression sentinel or the message carries GRPC_WRITE_NO_COMPRESS;
    otherwise it enters the drain, and with the buffer empty. *)
Theorem fresh_call_uses_channel_default channeld op stream w0 :
  send_initial_metadata op = None ->
  send_message op = Some stream ->
  (compress_start_transport_stream_op channeld op (init_call_elem w0)
   = Ok (grpc_call_next_op op (init_call_elem w0))
   <-> default_compression_algorithm channeld = GRPC_COMPRESS_NONE
       \/ no_compress_requested (init_call_elem w0) stream)
  /\ (~ (default_compression_algorithm channeld = GRPC_COMPRESS_NONE
         \/ no_compress_requested (init_call_elem w0) stream) ->
      compress_start_transport_stream_op channeld op (init_call_elem w0)
      = continue_send_message (enter_drain op stream (init_call_elem w0))
      /\ slices (calld (enter_drain op stream (init_call_elem w0)))
         = gpr_slice_buffer_init).
Proof.
  intros Hmd Hs.
  assert (Hm : after_metadata channeld op (init_call_elem w0)
               = Ok (init_call_elem w0))
    by (unfold after_metadata; now rewrite Hmd).
  assert (Hr : resolved_to_none channeld (init_call_elem w0)
               <-> default_compression_algorithm channeld = GRPC_COMPRESS_NONE).
  { unfold resolved_to_none. cbn. intuition congruence. }
  assert (Hne : continue_send_message (enter_drain op stream (init_call_elem w0))
                <> Ok (grpc_call_next_op op (init_call_elem w0))).
  { intros E. apply continue_send_message_asks_first in E.
    destruct E as (got & evs & E). cbn in E.
    apply app_inv_head in E. discriminate. }
  split; [split|].
  - intros E.
    destruct (decide (default_compression_algorithm channeld
                      = GRPC_COMPRESS_NONE)) as [Hd|Hd]; [now left|].
    destruct (decide (Z.land (byte_stream_flags (init_call_elem w0) stream)
                        GRPC_WRITE_NO_COMPRESS = 0)) as [Hf|Hf];
      [|now right].
    exfalso. apply Hne. rewrite <- E. symmetry.
    apply (compress_start_entered channeld op stream _ _ Hs Hm).
    intros [Hx|Hx]; [now apply Hr in Hx | now apply Hx].
  - intros Hc. apply (compress_start_skipped channeld op stream _ _ Hs Hm).
    destruct Hc as [Hc|Hc]; [left; now apply Hr | now right].
  - intros Hc. split; [|reflexivity].
    apply (compress_start_entered channeld op stream _ _ Hs Hm).
    intros [Hx|Hx]; apply Hc; [left; now apply Hr | now right].
Qed.

End DrainProperties.

Section TeardownProperties.
Context `{core : grpc_core}.

(** X10.  After a construction by [init_channel_elem], teardown goes
    through exactly when every algorithm of the enumeration is enabled; and
    then it releases what the construction acquired, each handle once: the
    ledger of the metadata context is back where it was before the
    construction. *)
Theorem teardown_succeeds_exactly_when ctx args channeld ctx' :
  init_channel_elem ctx args = Ok (channeld, ctx') ->
  ((exists ctx'', destroy_channel_elem ctx' channeld = Ok ctx'')
   <-> forall a, (a < GRPC_COMPRESS_ALGORITHMS_COUNT)%nat ->
         grpc_compression_options_is_algorithm_enabled (options_of args) a
         = true)
  /\ (forall ctx'', destroy_channel_elem ctx' channeld = Ok ctx'' ->
        forall x, ctx'' x = ctx x).
Proof.
  intros Hinit.
  assert (Hall : forall ctx'', destroy_channel_elem ctx' channeld = Ok ctx'' ->
            forall a, (a < GRPC_COMPRESS_ALGORITHMS_COUNT)%nat ->
              grpc_compression_options_is_algorithm_enabled (options_of args) a
              = true).
  { intros ctx'' Hrun a Ha.
    destruct (grpc_compression_options_is_algorithm_enabled _ a) eqn:Hen;
      [reflexivity|].
    rewrite (destroy_channel_elem_unassigned _ _ _ _ a ctx' Hinit Ha Hen)
      in Hrun. discriminate. }
  split; [split|].
  - intros [ctx'' Hrun]. now apply (Hall ctx'').
  - intros Hen.
    destruct (teardown_balances_when_all_enabled _ _ _ _ Hinit Hen)
      as (ctx'' & Hrun & _). now exists ctx''.
  - intros ctx'' Hrun.
    destruct (teardown_balances_when_all_enabled _ _ _ _ Hinit
                (Hall ctx'' Hrun)) as (c & Hc & Hbal).
    rewrite Hrun in Hc. injection Hc as <-. exact Hbal.
Qed.

(** X11.  What [init_channel_elem] holds when it returns: one reference on
    each of its three key strings, one on the element of every enabled
    algorithm and one on the accept-encoding element.  The references it
    took on the way, on the key of the accept-encoding element and on the
    joined names, have been handed over to the element. *)
Theorem construction_ledger ctx args channeld ctx' :
  init_channel_elem ctx args = Ok (channeld, ctx') ->
  exists accept,
    mdelem_accept_encoding channeld = Some accept
    /\ forall x,
         ctx' x
         = ctx x
           + same_handle x (h_mdstr GRPC_COMPRESS_REQUEST_ALGORITHM_KEY)
           + same_handle x (h_mdstr "grpc-encoding")
           + same_handle x (h_mdstr "grpc-accept-encoding")
           + acquired_by_init (options_of args) "grpc-encoding"
               (seq 0 GRPC_COMPRESS_ALGORITHMS_COUNT) x
           + same_handle x (h_mdelem accept).
Proof.
  intros Hinit.
  destruct (init_channel_elem_inv _ _ _ _ Hinit)
    as (_ & _ & st & ctx0 & Hctx0 & Hctx' & Hloop & Hch).
  pose proof (fun x => init_loop_ledger _ _ _ _ _ x Hloop) as Hledger.
  cbn [il_ctx] in Hledger.
  eexists. split; [now rewrite Hch|].
  intros x. rewrite Hctx', !mdctx_add_at, Hledger, Hctx0, !mdctx_add_at. lia.
Qed.

End TeardownProperties.

(** * The further properties on the reference instance *)

(** The reference channel with gzip disabled: three entries, the gzip entry
    unassigned, and the bitset of the arguments. *)
Lemma element_table_after_construction_witness :
  exists ctx',
    init_channel_elem (core := Reference.core) Reference.empty_mdctx
      Reference.args_no_gzip = Ok (Reference.channeld_no_gzip, ctx')
    /\ length (mdelem_compression_algorithms Reference.channeld_no_gzip)
       = 3%nat
    /\ compression_options Reference.channeld_no_gzip
       = options_of Reference.args_no_gzip.
Proof.
  assert (Hinit : exists ctx',
             init_channel_elem (core := Reference.core) Reference.empty_mdctx
               Reference.args_no_gzip
             = Ok (Reference.channeld_no_gzip, ctx'))
    by (eexists; reflexivity).
  destruct Hinit as [ctx' Hinit].
  destruct (element_table_after_construction (core := Reference.core)
              _ _ _ _ Hinit) as (Hlen & _ & Hopts & _).
  exists ctx'. split; [exact Hinit|]. split; [exact Hlen | exact Hopts].
Defined.

(** A call on the reference channel whose batch asks for an unknown
    algorithm and then for deflate: both requests leave the batch, deflate
    is the algorithm. *)
Lemma negotiation_outcome_witness :
  exists w',
    process_send_initial_metadata (core := Reference.core)
      (Reference.channeld_all 2%nat) 9
      (Reference.call_world Reference.no_stream
         [Reference.request_snappy; Reference.user_agent;
          Reference.request_deflate]) = Ok w'
    /\ compression_algorithm (calld w') = 1%nat
    /\ md_batches w' 9%nat
       = [Reference.user_agent;
          {| key := "grpc-encoding"; value := "deflate" |};
          {| key := "grpc-accept-encoding"; value := "deflate,gzip" |}].
Proof.
  assert (Hinit : exists ctx',
             init_channel_elem (core := Reference.core) Reference.empty_mdctx
               (Reference.args_all 2%nat)
             = Ok (Reference.channeld_all 2%nat, ctx'))
    by (eexists; reflexivity).
  destruct Hinit as [ctx' Hinit].
  destruct (negotiation_outcome (core := Reference.core) (R := unit)
              _ _ _ _ 9%nat
              (Reference.call_world Reference.no_stream
                 [Reference.request_snappy; Reference.user_agent;
                  Reference.request_deflate]) Hinit) as [Hok _].
  destruct Hok as (w' & name & accept & Hrun & Hname & Haccept & Halg & _
                   & Hb & _).
  - split; [vm_compute; lia | reflexivity].
  - vm_compute in Hname. injection Hname as <-.
    vm_compute in Haccept. injection Haccept as <-.
    exists w'. split; [exact Hrun|]. split; [exact Halg | exact Hb].
Defined.

(** A call on the reference channel, default gzip, whose batch has no
    request: gzip is the algorithm. *)
Lemma default_algorithm_is_chosen_witness :
  exists w',
    process_send_initial_metadata (core := Reference.core)
      (Reference.channeld_all 2%nat) 9
      (Reference.call_world Reference.no_stream [Reference.user_agent])
    = Ok w'
    /\ compression_algorithm (calld w') = 2%nat
    /\ md_batches w' 9%nat
       = [Reference.user_agent;
          {| key := "grpc-encoding"; value := "gzip" |};
          {| key := "grpc-accept-encoding"; value := "deflate,gzip" |}].
Proof.
  assert (Hinit : exists ctx',
             init_channel_elem (core := Reference.core) Reference.empty_mdctx
               (Reference.args_all 2%nat)
             = Ok (Reference.channeld_all 2%nat, ctx'))
    by (eexists; reflexivity).
  destruct Hinit as [ctx' Hinit].
  destruct (default_algorithm_is_chosen (core := Reference.core) (R := unit)
              _ _ _ _ 9%nat
              (Reference.call_world Reference.no_stream [Reference.user_agent])
              Hinit)
    as (w' & name & accept & Hrun & Hname & Haccept & Halg & _ & Hb & _).
  - cbn. lia.
  - reflexivity.
  - constructor; [discriminate | constructor].
  - vm_compute in Hname. injection Hname as <-.
    vm_compute in Haccept. injection Haccept as <-.
    exists w'. split; [exact Hrun|]. split; [exact Halg | exact Hb].
Defined.

(** Two requests in one batch on the reference channel: the second one,
    for deflate, decides. *)
Lemma last_request_wins_witness :
  exists w',
    grpc_metadata_batch_filter
      (compression_md_filter (core := Reference.core)
         (Reference.channeld_all 2%nat))
      ([Reference.request_snappy; Reference.user_agent]
       ++ Reference.request_deflate :: [])
      (Reference.call_world Reference.no_stream [])
    = (w', [Reference.user_agent])
    /\ compression_algorithm (calld w') = 1%nat.
Proof.
  destruct (last_request_wins (core := Reference.core)
              (Reference.channeld_all 2%nat)
              [Reference.request_snappy; Reference.user_agent]
              Reference.request_deflate []
              (Reference.call_world Reference.no_stream []))
    as (w' & Hrun & Halg & _).
  - reflexivity.
  - constructor.
  - exists w'. split; [exact Hrun | exact Halg].
Defined.

(** The eleven-byte message of the reference instance: the transform was
    given the two chunks in their order. *)
Lemma chunks_collected_in_order_witness :
  exists buf rest,
    sb_slices buf ++ rest = [Reference.hello; Reference.world_]
    /\ sb_length buf = 11
    /\ slices (calld Reference.late_message_sent)
       = match Reference.msg_compress 2%nat buf with
         | Some out => out
         | None => buf
         end.
Proof.
  destruct (chunks_collected_in_order (core := Reference.core)
              (Reference.channeld_all 2%nat) Reference.send_both_op 5%nat
              Reference.late_message Reference.late_message_negotiated 1)
    as (w' & Hrun & Hout).
  - reflexivity.
  - reflexivity.
  - reflexivity.
  - exact late_message_entered.
  - reflexivity.
  - rewrite late_message_run in Hrun. injection Hrun as <-.
    destruct Hout as [(Ho & _)|(buf & rest & Hall & HL & _ & _ & Hsl & _)].
    + vm_compute in Ho. discriminate Ho.
    + exists buf, rest. split; [exact Hall|]. split; [exact HL | exact Hsl].
Defined.

(** The eleven-byte message, two deliveries allowed: it goes down once. *)
Lemma message_goes_down_witness :
  exists w' evs,
    send_and_deliver (core := Reference.core) (Reference.channeld_all 2%nat)
      Reference.send_both_op 2 Reference.late_message = Ok w'
    /\ trace w' = trace Reference.late_message_negotiated ++ evs
    /\ next_ops evs = [forwarded_op Reference.send_both_op].
Proof.
  apply (message_goes_down (core := Reference.core)
           (Reference.channeld_all 2%nat) Reference.send_both_op 5%nat
           Reference.late_message Reference.late_message_negotiated 2).
  - reflexivity.
  - reflexivity.
  - reflexivity.
  - exact late_message_entered.
  - reflexivity.
  - reflexivity.
  - discriminate.
  - vm_compute. lia.
Defined.

(** A message whose only chunk arrives late, sent without metadata on the
    reference channel: the operation returns with the machine waiting. *)
Lemma message_waits_for_first_chunk_witness :
  exists w',
    compress_start_transport_stream_op (core := Reference.core)
      (Reference.channeld_all 2%nat) Reference.send_message_op
      (Reference.call_world (mk_byte_stream 5 0 [later Reference.hello]) [])
    = Ok w'
    /\ trace w'
       = trace (Reference.call_world
                  (mk_byte_stream 5 0 [later Reference.hello]) [])
         ++ [ev_byte_stream_next false].
Proof.
  apply (message_waits_for_first_chunk (core := Reference.core)
           (Reference.channeld_all 2%nat) Reference.send_message_op 5%nat
           (Reference.call_world (mk_byte_stream 5 0 [later Reference.hello]) [])
           (Reference.call_world (mk_byte_stream 5 0 [later Reference.hello]) [])).
  - reflexivity.
  - reflexivity.
  - intros [[[H _]|[_ H]]|H]; try discriminate. apply H. reflexivity.
  - right. exists Reference.hello, []. reflexivity.
Defined.

(** The eleven-byte message has gone down, and the call still has what the
    negotiation left. *)
Lemma drain_leaves_negotiation_alone_witness :
  same_negotiation Reference.late_message_negotiated
    Reference.late_message_sent.
Proof.
  destruct (drain_leaves_negotiation_alone (core := Reference.core)
              (Reference.channeld_all 2%nat) Reference.send_both_op 5%nat
              Reference.late_message Reference.late_message_negotiated 1)
    as (w' & Hrun & Hsame).
  - reflexivity.
  - reflexivity.
  - reflexivity.
  - exact late_message_entered.
  - rewrite late_message_run in Hrun. injection Hrun as <-. exact Hsame.
Defined.

(** The reference channel with every algorithm enabled is torn down, and
    the ledger is back at the empty one. *)
Lemma teardown_succeeds_exactly_when_witness :
  exists ctx' ctx'',
    init_channel_elem (core := Reference.core) Reference.empty_mdctx
      (Reference.args_all 2%nat) = Ok (Reference.channeld_all 2%nat, ctx')
    /\ destroy_channel_elem (core := Reference.core) ctx'
         (Reference.channeld_all 2%nat) = Ok ctx''
    /\ forall x, ctx'' x = 0.
Proof.
  assert (Hinit : exists ctx',
             init_channel_elem (core := Reference.core) Reference.empty_mdctx
               (Reference.args_all 2%nat)
             = Ok (Reference.channeld_all 2%nat, ctx'))
    by (eexists; reflexivity).
  destruct Hinit as [ctx' Hinit].
  destruct (teardown_succeeds_exactly_when (core := Reference.core)
              _ _ _ _ Hinit) as [[_ Hall] Hbal].
  destruct Hall as [ctx'' Hrun].
  - intros a Ha. cbn in Ha.
    destruct a as [|[|[|a]]]; [reflexivity | reflexivity | reflexivity | lia].
  - exists ctx', ctx''. split; [exact Hinit|]. split; [exact Hrun|].
    intros x. exact (Hbal ctx'' Hrun x).
Defined.

(** The reference channel with every algorithm enabled holds one reference
    on its gzip element and one on the key of the requests. *)
Lemma construction_ledger_witness :
  exists ctx',
    init_channel_elem (core := Reference.core) Reference.empty_mdctx
      (Reference.args_all 2%nat) = Ok (Reference.channeld_all 2%nat, ctx')
    /\ ctx' (h_mdelem {| key := "grpc-encoding"; value := "gzip" |}) = 1
    /\ ctx' (h_mdstr "grpc-internal-encoding-request") = 1.
Proof.
  assert (Hinit : exists ctx',
             init_channel_elem (core := Reference.core) Reference.empty_mdctx
               (Reference.args_all 2%nat)
             = Ok (Reference.channeld_all 2%nat, ctx'))
    by (eexists; reflexivity).
  destruct Hinit as [ctx' Hinit].
  destruct (construction_ledger (core := Reference.core) _ _ _ _ Hinit)
    as (accept & Hacc & Hledger).
  cbn in Hacc. injection Hacc as <-.
  exists ctx'. split; [exact Hinit|].
  split; rewrite Hledger; vm_compute; reflexivity.
Defined.

(** A five-byte message sent without metadata on a fresh call of the
    reference channel, default gzip: it enters the drain with the buffer
    empty. *)
Lemma fresh_call_uses_channel_default_witness :
  compress_start_transport_stream_op (core := Reference.core)
    (Reference.channeld_all 2%nat) Reference.send_message_op
    (init_call_elem
       (set_byte_stream 5 (mk_byte_stream 5 0 [ready Reference.hello])
          (Reference.world0 Reference.empty_mdctx)))
  = continue_send_message (core := Reference.core)
      (enter_drain Reference.send_message_op (upstream_stream 5)
         (init_call_elem
            (set_byte_stream 5 (mk_byte_stream 5 0 [ready Reference.hello])
               (Reference.world0 Reference.empty_mdctx))))
  /\ slices
       (calld
          (enter_drain Reference.send_message_op (upstream_stream 5)
             (init_call_elem
                (set_byte_stream 5
                   (mk_byte_stream 5 0 [ready Reference.hello])
                   (Reference.world0 Reference.empty_mdctx)))))
     = gpr_slice_buffer_init.
Proof.
  apply (fresh_call_uses_channel_default (core := Reference.core)
           (Reference.channeld_all 2%nat) Reference.send_message_op
           (upstream_stream 5)
           (set_byte_stream 5 (mk_byte_stream 5 0 [ready Reference.hello])
              (Reference.world0 Reference.empty_mdctx))).
  - reflexivity.
  - reflexivity.
  - intros [H|H]; [discriminate | apply H; reflexivity].
Defined.

(** * The invalid request and the element of the sentinel *)

Section InvalidRequest.
Context `{core : grpc_core} {R : Type}.
Implicit Types (w : world R) (op : grpc_transport_stream_op R).

(** X13.  With the sentinel enabled on a channel built by
    [init_channel_elem], a request that names no known algorithm, or one that is not enabled, is
    ignored as the log says: the negotiation goes through with the sentinel
    as the algorithm of the call, the request has left the batch, the batch
    ends with the element of the sentinel and the accept-encoding element,
    at least one message is logged, and an operation that carries a message
    as well is handed to the next filter as it came. *)
Lemma invalid_request_proceeds_with_sentinel
    ctx args channeld ctx' pre req post p w :
  init_channel_elem ctx args = Ok (channeld, ctx') ->
  (GRPC_COMPRESS_NONE < GRPC_COMPRESS_ALGORITHMS_COUNT)%nat ->
  grpc_compression_options_is_algorithm_enabled
    (compression_options channeld) GRPC_COMPRESS_NONE = true ->
  md_batches w p = pre ++ req :: post ->
  no_request channeld pre -> no_request channeld post ->
  key req = mdstr_request_compression_algorithm_key channeld ->
  grpc_compression_algorithm_parse (value req) = None
  \/ (exists a,
        grpc_compression_algorithm_parse (value req) = Some a
        /\ grpc_compression_options_is_algorithm_enabled
             (compression_options channeld) a = false) ->
  exists w' name accept msgs,
    process_send_initial_metadata channeld p w = Ok w'
    /\ grpc_compression_algorithm_name GRPC_COMPRESS_NONE = Some name
    /\ mdelem_accept_encoding channeld = Some accept
    /\ compression_algorithm (calld w') = GRPC_COMPRESS_NONE
    /\ has_compression_algorithm (calld w') = true
    /\ md_batches w' p = pre ++ post ++ [selected_algorithm_elem name; accept]
    /\ msgs <> []
    /\ trace w' = trace w ++ map ev_log msgs
    /\ forall op stream,
         send_initial_metadata op = Some p ->
         send_message op = Some stream ->
         compress_start_transport_stream_op channeld op w
         = Ok (grpc_call_next_op op w').
Proof.
  intros Hinit H0 Hen Hbatch Hpre Hpost Hkey Hbad.
  pose proof (init_channel_elem_table _ _ _ _ GRPC_COMPRESS_NONE Hinit H0)
    as Hslot.
  destruct (init_channel_elem_inv _ _ _ _ Hinit)
    as (_ & _ & st & ctx0 & _ & _ & _ & Hch).
  assert (Hopts : compression_options channeld = options_of args)
    by now rewrite Hch.
  assert (Hacc : mdelem_accept_encoding channeld
                 = Some {| key := "grpc-accept-encoding";
                           value := gpr_strjoin_sep (il_names st) "," |})
    by now rewrite Hch.
  clear Hch. rewrite <- Hopts, Hen in Hslot.
  destruct Hslot as (name & Hname & Hslot).
  assert (Hreq : is_request channeld req = true)
    by (unfold is_request; now apply bool_decide_eq_true_2).
  assert (Hneg : negotiated channeld (md_batches w p) w = GRPC_COMPRESS_NONE).
  { unfold negotiated. rewrite Hbatch, (last_request_app _ _ _ _ Hreq Hpost).
    unfold resolve_request.
    destruct Hbad as [->|(a & -> & ->)]; reflexivity. }
  rewrite <- Hneg in Hslot.
  destruct (process_outcome channeld p w _ _ Hslot Hacc)
    as (w' & Hrun & Halg & Hhas & Hb & _).
  destruct (invalid_request_falls_back channeld pre req post w
              Hpre Hpost Hkey Hbad)
    as (w1 & msgs & Hscan & _ & _ & _ & Hmsgs & Ht & _).
  exists w', name. eexists. exists msgs.
  split; [exact Hrun|]. split; [exact Hname|]. split; [exact Hacc|].
  split; [now rewrite Halg|]. split; [exact Hhas|]. split.
  { rewrite Hb, Hbatch, other_headers_app. cbn [other_headers List.filter].
    rewrite Hreq. cbn [negb].
    fold (other_headers channeld post).
    rewrite (other_headers_no_request _ _ Hpre),
      (other_headers_no_request _ _ Hpost).
    now rewrite <- app_assoc. }
  split; [exact Hmsgs|]. split.
  { rewrite (process_send_initial_metadata_trace _ _ _ _ Hrun), Hbatch, Hscan.
    exact Ht. }
  intros op stream Hmd Hs.
  apply (compress_start_skipped channeld op stream w w' Hs).
  - unfold after_metadata. now rewrite Hmd.
  - left. left. split; [exact Hhas | now rewrite Halg].
Qed.

End InvalidRequest.

(** C6 does not hold of the code.  On the reference instance with the
    no-compression sentinel disabled, construction leaves the entry of the
    sentinel unassigned.  A request for an algorithm that the core does not
    know is logged as ignored, twice, and resolves the call to the sentinel;
    [process_send_initial_metadata] then passes the unassigned entry of the
    sentinel to GRPC_MDELEM_REF, and the operation never reaches the next
    filter. *)
Theorem invalid_request_reads_unassigned_entry :
  exists ctx',
    init_channel_elem (core := Reference.core) Reference.empty_mdctx
      Reference.args_no_identity = Ok (Reference.channeld_no_identity, ctx')
    /\ mdelem_compression_algorithms Reference.channeld_no_identity
       !! GRPC_COMPRESS_NONE = Some None
    /\ grpc_compression_algorithm_parse (grpc_core := Reference.core)
         (value Reference.request_snappy) = None
    /\ grpc_metadata_batch_filter
         (compression_md_filter (core := Reference.core)
            Reference.channeld_no_identity)
         (md_batches Reference.snappy_requested 9%nat)
         Reference.snappy_requested
       = (Reference.snappy_scanned, [Reference.user_agent])
    /\ compression_algorithm (calld Reference.snappy_scanned)
       = GRPC_COMPRESS_NONE
    /\ logged (trace Reference.snappy_scanned)
       = ["Invalid compression algorithm: 'snappy' (unknown). Ignoring.";
          "Invalid compression algorithm: 'snappy' (previously disabled). Ignoring."]%string
    /\ process_send_initial_metadata (core := Reference.core)
         Reference.channeld_no_identity 9 Reference.snappy_requested
       = Abort (indeterminate_pointer
                  "mdelem_compression_algorithms[calld->compression_algorithm]")
    /\ compress_start_transport_stream_op (core := Reference.core)
         Reference.channeld_no_identity Reference.send_both_op
         Reference.snappy_requested
       = Abort (indeterminate_pointer
                  "mdelem_compression_algorithms[calld->compression_algorithm]").
Proof.
  assert (Hinit : exists ctx',
             init_channel_elem (core := Reference.core) Reference.empty_mdctx
               Reference.args_no_identity
             = Ok (Reference.channeld_no_identity, ctx'))
    by (eexists; reflexivity).
  destruct Hinit as [ctx' Hinit].
  exists ctx'. split; [exact Hinit|]. split; [reflexivity|].
  split; [reflexivity|]. split; [vm_compute; reflexivity|].
  split; [reflexivity|]. split; [vm_compute; reflexivity|].
  assert (Hp : process_send_initial_metadata (core := Reference.core)
                 Reference.channeld_no_identity 9 Reference.snappy_requested
               = Abort (indeterminate_pointer
                          "mdelem_compression_algorithms[calld->compression_algorithm]")).
  { apply (process_unassigned (core := Reference.core)).
    vm_compute. reflexivity. }
  split; [exact Hp|].
  unfold compress_start_transport_stream_op.
  cbn [send_initial_metadata Reference.send_both_op]. rewrite Hp. reflexivity.
Qed.

(** A call on the reference channel, every algorithm enabled, that asks for
    an algorithm nobody knows: the negotiation goes through with the
    sentinel, and the batch ends with the element of the sentinel. *)
Lemma invalid_request_proceeds_with_sentinel_witness :
  exists w' msgs,
    process_send_initial_metadata (core := Reference.core)
      (Reference.channeld_all 2%nat) 9
      (Reference.call_world Reference.no_stream
         [Reference.user_agent; Reference.request_snappy]) = Ok w'
    /\ compression_algorithm (calld w') = GRPC_COMPRESS_NONE
    /\ md_batches w' 9%nat
       = [Reference.user_agent;
          {| key := "grpc-encoding"; value := "identity" |};
          {| key := "grpc-accept-encoding"; value := "deflate,gzip" |}]
    /\ msgs <> []
    /\ trace w' = map ev_log msgs.
Proof.
  assert (Hinit : exists ctx',
             init_channel_elem (core := Reference.core) Reference.empty_mdctx
               (Reference.args_all 2%nat)
             = Ok (Reference.channeld_all 2%nat, ctx'))
    by (eexists; reflexivity).
  destruct Hinit as [ctx' Hinit].
  destruct (invalid_request_proceeds_with_sentinel (core := Reference.core)
              (R := unit) _ _ _ _ [Reference.user_agent]
              Reference.request_snappy [] 9%nat
              (Reference.call_world Reference.no_stream
                 [Reference.user_agent; Reference.request_snappy]) Hinit)
    as (w' & name & accept & msgs & Hrun & Hname & Haccept & Halg & _ & Hb
        & Hmsgs & Ht & _).
  - vm_compute. lia.
  - reflexivity.
  - reflexivity.
  - constructor; [discriminate | constructor].
  - constructor.
  - reflexivity.
  - left. reflexivity.
  - injection Hname as <-. injection Haccept as <-.
    exists w', msgs. split; [exact Hrun|]. split; [exact Halg|].
    split; [exact Hb|]. split; [exact Hmsgs | exact Ht].
Defined.
